(** * A deduplicating, content-addressed file store: embedding and properties

    The development follows the TypeScript sources:

    - [FilePath], [ContentHash], [FileNode], [DirectoryNode]: the value
      objects and entities of the core package;
    - [PostgresRepository]: the metadata store, with its SQL statements read
      as operations on two tables ([fs_nodes], [blobs]);
    - [LocalBlobStorage]: the sharded blob directory, read as a finite map
      from hash to bytes;
    - [FileSystemService] and [OrphanCleanupService]: the two services that
      drive the stores.

    Conventions.  JavaScript strings are modelled by [string] (8-bit
    characters), buffers by [list byte], numbers and timestamps by [Z].
    [async] methods run to completion one after the other, so a method is a
    function from the state of the two stores to an outcome: a value or a
    thrown error, the state it leaves behind (a [throw] does not undo what
    was done before it), and the list of store calls made, oldest first.
    The clock is a field of the state: [new Date()] and SQL [NOW()] read it,
    and it does not advance while one method runs. *)

From Stdlib Require Import ZArith Lia List Bool.
From Stdlib Require Import Strings.String Strings.Ascii Strings.Byte.
From Stdlib Require OrderedTypeEx.
From stdpp Require Import base option list strings gmap fin_maps sorting.
Import ListNotations.
Local Open Scope Z_scope.

(* ===================================================================== *)
(** ** JavaScript string methods used by the sources *)
(* ===================================================================== *)

Module Js.

(** [s.startsWith(p)] *)
Definition startsWith (s p : string) : bool := String.prefix p s.

(** [s.includes(sub)] *)
Fixpoint includes (s sub : string) : bool :=
  String.prefix sub s
  || match s with
     | EmptyString => false
     | String _ s' => includes s' sub
     end.

(** [s.lastIndexOf(c)] for a one-character needle; [-1] when absent. *)
Fixpoint lastIndexOf (s : string) (c : ascii) : Z :=
  match s with
  | EmptyString => -1
  | String a s' =>
      let r := lastIndexOf s' c in
      if 0 <=? r then r + 1
      else if Ascii.eqb a c then 0 else -1
  end.

(** [s.substring(a, b)]: negative arguments count as 0, arguments past
    the end as the length, and the two are swapped when [a > b]. *)
Definition substring (s : string) (a b : Z) : string :=
  let len := Z.of_nat (String.length s) in
  let clamp x := Z.max 0 (Z.min x len) in
  let lo := Z.min (clamp a) (clamp b) in
  let hi := Z.max (clamp a) (clamp b) in
  String.substring (Z.to_nat lo) (Z.to_nat (hi - lo)) s.

(** [(s.match(/c/g) || []).length]: the number of occurrences of [c]. *)
Fixpoint countChar (s : string) (c : ascii) : Z :=
  match s with
  | EmptyString => 0
  | String a s' => (if Ascii.eqb a c then 1 else 0) + countChar s' c
  end.

(** [x || d] on strings: the empty string is falsy. *)
Definition orElse (x d : string) : string :=
  match x with EmptyString => d | _ => x end.

End Js.

(* ===================================================================== *)
(** ** SHA-256 ([crypto.createHash("sha256")]) *)
(* ===================================================================== *)

Module Sha256.

Definition w32 (x : Z) : Z := x mod 2 ^ 32.
Definition add32 (a b : Z) : Z := w32 (a + b).
Definition rotr (n x : Z) : Z :=
  Z.lor (Z.shiftr x n) (w32 (Z.shiftl x (32 - n))).
Definition Ch (x y z : Z) : Z :=
  Z.lxor (Z.land x y) (Z.land (w32 (Z.lnot x)) z).
Definition Maj (x y z : Z) : Z :=
  Z.lxor (Z.lxor (Z.land x y) (Z.land x z)) (Z.land y z).
Definition bsig0 (x : Z) : Z := Z.lxor (Z.lxor (rotr 2 x) (rotr 13 x)) (rotr 22 x).
Definition bsig1 (x : Z) : Z := Z.lxor (Z.lxor (rotr 6 x) (rotr 11 x)) (rotr 25 x).
Definition ssig0 (x : Z) : Z := Z.lxor (Z.lxor (rotr 7 x) (rotr 18 x)) (Z.shiftr x 3).
Definition ssig1 (x : Z) : Z := Z.lxor (Z.lxor (rotr 17 x) (rotr 19 x)) (Z.shiftr x 10).

(** The first [n] primes, by trial division. *)
Definition isPrime (p : nat) : bool :=
  (2 <=? p)%nat && forallb (fun d => negb (Nat.eqb (p mod d) 0)) (seq 2 (p - 2)).

Definition primes (n : nat) : list Z :=
  map Z.of_nat (firstn n (filter isPrime (seq 2 400))).

(** The integer cube root of [n], one bit at a time from bit [bits - 1]. *)
Fixpoint cubeRoot (bits : nat) (n acc : Z) : Z :=
  match bits with
  | O => acc
  | S b =>
      let next := acc + 2 ^ Z.of_nat b in
      if next * next * next <=? n then cubeRoot b n next else cubeRoot b n acc
  end.

(** The round constants: the first 32 bits of the fractional parts of the
    cube roots of the first 64 primes. *)
Definition K : list Z :=
  Eval vm_compute in map (fun p => w32 (cubeRoot 40 (p * 2 ^ 96) 0)) (primes 64).

(** The initial hash value: the first 32 bits of the fractional parts of
    the square roots of the first 8 primes. *)
Definition H0 : list Z :=
  Eval vm_compute in map (fun p => w32 (Z.sqrt (p * 2 ^ 64))) (primes 8).

(** The [n] low bytes of [x], most significant first. *)
Definition be_bytes (n : nat) (x : Z) : list Z :=
  map (fun i => Z.land (Z.shiftr x (8 * Z.of_nat i)) 255) (rev (seq 0 n)).

(** Padding: a [0x80] byte, zeros up to 56 modulo 64, then the bit length
    on 64 bits. *)
Definition pad (msg : list Z) : list Z :=
  let len := Z.of_nat (length msg) in
  msg ++ [128] ++ repeat 0 (Z.to_nat ((55 - len) mod 64)) ++ be_bytes 8 (8 * len).

Fixpoint words (fuel : nat) (bs : list Z) : list Z :=
  match fuel, bs with
  | S f, b0 :: b1 :: b2 :: b3 :: rest =>
      (b0 * 2 ^ 24 + b1 * 2 ^ 16 + b2 * 2 ^ 8 + b3) :: words f rest
  | _, _ => []
  end.

Fixpoint blocks (fuel : nat) (ws : list Z) : list (list Z) :=
  match fuel, ws with
  | S f, _ :: _ => firstn 16 ws :: blocks f (skipn 16 ws)
  | _, _ => []
  end.

(** The message schedule, kept most recent word first while it grows. *)
Fixpoint extend (n : nat) (w : list Z) : list Z :=
  match n with
  | O => w
  | S n' =>
      let x := add32 (add32 (ssig1 (nth 1 w 0)) (nth 6 w 0))
                     (add32 (ssig0 (nth 14 w 0)) (nth 15 w 0)) in
      extend n' (x :: w)
  end.

Definition schedule (block : list Z) : list Z := rev (extend 48 (rev block)).

Definition round (st : list Z) (kw : Z * Z) : list Z :=
  match st with
  | [a; b; c; d; e; f; g; h] =>
      let t1 := add32 (add32 (add32 h (bsig1 e)) (add32 (Ch e f g) (fst kw))) (snd kw) in
      let t2 := add32 (bsig0 a) (Maj a b c) in
      [add32 t1 t2; a; b; c; add32 d t1; e; f; g]
  | _ => st
  end.

Definition compress (h : list Z) (block : list Z) : list Z :=
  let st := fold_left round (combine K (schedule block)) h in
  map (fun p => add32 (fst p) (snd p)) (combine h st).

Definition digest (msg : list Z) : list Z :=
  let p := pad msg in
  fold_left compress (blocks (length p) (words (length p) p)) H0.

Definition hexdigit (n : Z) : ascii :=
  match n with
  | 0 => "0" | 1 => "1" | 2 => "2" | 3 => "3" | 4 => "4" | 5 => "5"
  | 6 => "6" | 7 => "7" | 8 => "8" | 9 => "9" | 10 => "a" | 11 => "b"
  | 12 => "c" | 13 => "d" | 14 => "e" | _ => "f"
  end%char.

Definition hexword (w : Z) : list ascii :=
  map (fun i => hexdigit (Z.land (Z.shiftr w (4 * Z.of_nat i)) 15)) (rev (seq 0 8)).

(** [.digest("hex")] *)
Definition hex (msg : list Z) : string :=
  string_of_list_ascii (flat_map hexword (digest msg)).

End Sha256.

(** [Buffer]: a byte string. *)
Definition Buffer : Type := list byte.

(** [Buffer.from(s)] for a string of 8-bit characters. *)
Definition Buffer_from (s : string) : Buffer := list_byte_of_string s.

(** [content.length] *)
Definition Buffer_length (content : Buffer) : Z := Z.of_nat (length content).

(* ===================================================================== *)
(** ** Errors *)
(* ===================================================================== *)

(** What a method can throw: a plain [Error] with its message, one of the
    domain errors of [FsErrors.ts], a constraint violation reported by the
    database, or a failed file-system call of the blob directory. *)
Inductive Error : Type :=
| PlainError (message : string)
| FileNotFoundError (message : string)
| DirectoryNotFoundError (message : string)
| FileAlreadyExistsError (message : string)
| DirectoryNotEmptyError (message : string)
| DatabaseError (sqlstate : string)
| SystemError (code : string).

Inductive Result (A : Type) : Type :=
| Ok (a : A)
| Throw (e : Error).
Arguments Ok {A} a.
Arguments Throw {A} e.

(** The messages thrown by [FilePath.create]. *)
Definition MSG_NOT_ABSOLUTE : string := "Path must be absolute (sart with /)".
Definition MSG_TRAVERSAL : string := "Path cannot contain .. (directory traversal".
Definition MSG_NULL_BYTE : string := "Path cannot contain null bytes".

(** The error kinds of the specification, and the kind under which each
    thrown error is reported. *)
Inductive ErrorKind : Type :=
| InvalidPath | InvalidHash | NotFound | Conflict | BlobMissing
| StoreUnavailable | Invariant.

Definition kindOf (e : Error) : ErrorKind :=
  match e with
  | PlainError m =>
      if String.eqb m MSG_NOT_ABSOLUTE || String.eqb m MSG_TRAVERSAL
         || String.eqb m MSG_NULL_BYTE then InvalidPath
      else if String.eqb m "Invalid hash format" then InvalidHash
      else StoreUnavailable
  | FileNotFoundError _ | DirectoryNotFoundError _ => NotFound
  | FileAlreadyExistsError _ | DirectoryNotEmptyError _ => Conflict
  | DatabaseError s => if String.eqb s "23514" then Invariant else StoreUnavailable
  | SystemError c => if String.eqb c "ENOENT" then BlobMissing else StoreUnavailable
  end.

(* ===================================================================== *)
(** ** Value objects *)
(* ===================================================================== *)

Module FilePath.

Record t : Type := { value : string }.

(** [FilePath.create(path)] *)
Definition create (path : string) : Result t :=
  if negb (Js.startsWith path "/") then Throw (PlainError MSG_NOT_ABSOLUTE)
  else if Js.includes path ".." then Throw (PlainError MSG_TRAVERSAL)
  else if Js.includes path (String (ascii_of_nat 0) EmptyString)
       then Throw (PlainError MSG_NULL_BYTE)
  else Ok {| value := path |}.

Definition toString (p : t) : string := value p.

Definition equals (p other : t) : bool := String.eqb (value p) (value other).

End FilePath.

Module ContentHash.

Record t : Type := { value : string }.

(** One character of the class [[a-f0-9]]. *)
Definition isHexChar (c : ascii) : bool :=
  let n := nat_of_ascii c in
  ((48 <=? n) && (n <=? 57) || (97 <=? n) && (n <=? 102))%nat.

(** [/^[a-f0-9]{64}$/.test(hash)] *)
Definition wellFormed (hash : string) : bool :=
  (String.length hash =? 64)%nat && forallb isHexChar (list_ascii_of_string hash).

(** [ContentHash.fromString(hash)] *)
Definition fromString (hash : string) : Result t :=
  if negb (wellFormed hash) then Throw (PlainError "Invalid hash format")
  else Ok {| value := hash |}.

(** [ContentHash.fromContent(content)] *)
Definition fromContent (content : Buffer) : t :=
  {| value := Sha256.hex (map (fun b => Z.of_N (Byte.to_N b)) content) |}.

Definition toString (h : t) : string := value h.

Definition equals (h other : t) : bool := String.eqb (value h) (value other).

End ContentHash.

(* ===================================================================== *)
(** ** Entities *)
(* ===================================================================== *)

Module FileNode.

Record t : Type := {
  path : FilePath.t;
  contentHash : ContentHash.t;
  size : Z;
  mimeType : string;
  createdAt : Z;
  modifiedAt : Z
}.

(** [new FileNode(path, contentHash, size, mimeType)] at instant [now]. *)
Definition new (p : FilePath.t) (h : ContentHash.t) (sz : Z) (mime : string)
    (now : Z) : t :=
  {| path := p; contentHash := h; size := sz; mimeType := mime;
     createdAt := now; modifiedAt := now |}.

Definition updateContent (n : t) (newHash : ContentHash.t) (newSize : Z)
    (now : Z) : t :=
  {| path := path n; contentHash := newHash; size := newSize;
     mimeType := mimeType n; createdAt := createdAt n; modifiedAt := now |}.

Definition touch (n : t) (now : Z) : t :=
  {| path := path n; contentHash := contentHash n; size := size n;
     mimeType := mimeType n; createdAt := createdAt n; modifiedAt := now |}.

(** [(fileNode as any).createdAt = c; (fileNode as any).modifiedAt = m] *)
Definition withTimes (n : t) (c m : Z) : t :=
  {| path := path n; contentHash := contentHash n; size := size n;
     mimeType := mimeType n; createdAt := c; modifiedAt := m |}.

End FileNode.

Module DirectoryNode.

Record t : Type := {
  path : FilePath.t;
  createdAt : Z;
  modifiedAt : Z
}.

Definition new (p : FilePath.t) (now : Z) : t :=
  {| path := p; createdAt := now; modifiedAt := now |}.

Definition touch (n : t) (now : Z) : t :=
  {| path := path n; createdAt := createdAt n; modifiedAt := now |}.

Definition isRoot (n : t) : bool := String.eqb (FilePath.toString (path n)) "/".

Definition withTimes (n : t) (c m : Z) : t :=
  {| path := path n; createdAt := c; modifiedAt := m |}.

End DirectoryNode.

(** [FileNode | DirectoryNode]; [instanceof] is a match on the constructor. *)
Inductive Node : Type :=
| File (f : FileNode.t)
| Directory (d : DirectoryNode.t).

Definition Node_path (n : Node) : FilePath.t :=
  match n with
  | File f => FileNode.path f
  | Directory d => DirectoryNode.path d
  end.

(* ===================================================================== *)
(** ** The state of the two stores *)
(* ===================================================================== *)

(** A row of [fs_nodes], without its key [(tenant_id, path)].  The [type]
    column holds ['file'] or ['directory'] (a CHECK constraint); the columns
    [content_hash], [size] and [mime_type] are written for file rows only
    and read for file rows only, so a directory row carries none. *)
Inductive Row : Type :=
| FileRow (content_hash : string) (size : Z) (mime_type : string)
          (created_at modified_at : Z)
| DirectoryRow (created_at modified_at : Z).

(** The value of the [type] column. *)
Definition Row_type (r : Row) : string :=
  match r with
  | FileRow _ _ _ _ _ => "file"
  | DirectoryRow _ _ => "directory"
  end.

(** A row of [blobs], without its key [content_hash]. *)
Record BlobRow : Type := {
  reference_count : Z;
  blob_size : Z;
  blob_created_at : Z;
  last_accessed_at : Z
}.

Record World : Type := {
  clock : Z;
  currentTenantId : option string;
  fs_nodes : gmap (string * string) Row;
  blobs : gmap string BlobRow;
  blobDir : gmap string Buffer
}.

Definition set_tenant (t : option string) (w : World) : World :=
  {| clock := clock w; currentTenantId := t; fs_nodes := fs_nodes w;
     blobs := blobs w; blobDir := blobDir w |}.

Definition set_fs_nodes (m : gmap (string * string) Row) (w : World) : World :=
  {| clock := clock w; currentTenantId := currentTenantId w; fs_nodes := m;
     blobs := blobs w; blobDir := blobDir w |}.

Definition set_blobs (m : gmap string BlobRow) (w : World) : World :=
  {| clock := clock w; currentTenantId := currentTenantId w;
     fs_nodes := fs_nodes w; blobs := m; blobDir := blobDir w |}.

Definition set_blobDir (m : gmap string Buffer) (w : World) : World :=
  {| clock := clock w; currentTenantId := currentTenantId w;
     fs_nodes := fs_nodes w; blobs := blobs w; blobDir := m |}.

(** The environment moves the clock between two operations. *)
Definition set_clock (t : Z) (w : World) : World :=
  {| clock := t; currentTenantId := currentTenantId w;
     fs_nodes := fs_nodes w; blobs := blobs w; blobDir := blobDir w |}.

(** The calls a service makes on its two collaborators. *)
Inductive Call : Type :=
| CreateNode (path : string)
| GetNodeByPath (path : string)
| UpdateNode (path : string)
| DeleteNode (path : string)
| ListChildren (directoryPath : string)
| IncrementBlobRefCount (contentHash : string)
| DecrementBlobRefCount (contentHash : string)
| GetOrphanBlobs
| BlobWrite (contentHash : string)
| BlobRead (contentHash : string)
| BlobExists (contentHash : string)
| BlobDelete (contentHash : string)
| BlobDeleteMany (contentHashes : list string).

(* ===================================================================== *)
(** ** Methods as state transformers *)
(* ===================================================================== *)

Record Outcome (A : Type) : Type := {
  result : Result A;
  final : World;
  calls : list Call
}.
Arguments result {A} _.
Arguments final {A} _.
Arguments calls {A} _.

Definition M (A : Type) : Type := World -> Outcome A.

Definition ret {A} (a : A) : M A :=
  fun w => {| result := Ok a; final := w; calls := [] |}.

Definition throw {A} (e : Error) : M A :=
  fun w => {| result := Throw e; final := w; calls := [] |}.

Definition bind {A B} (m : M A) (k : A -> M B) : M B :=
  fun w =>
    let o := m w in
    match result o with
    | Ok a =>
        let o' := k a (final o) in
        {| result := result o'; final := final o'; calls := calls o ++ calls o' |}
    | Throw e => {| result := Throw e; final := final o; calls := calls o |}
    end.

Definition lift {A} (r : Result A) : M A :=
  match r with
  | Ok a => ret a
  | Throw e => throw e
  end.

Definition gets {A} (f : World -> A) : M A :=
  fun w => {| result := Ok (f w); final := w; calls := [] |}.

Definition modify (f : World -> World) : M unit :=
  fun w => {| result := Ok tt; final := f w; calls := [] |}.

(** Entering a method of a store. *)
Definition enter (c : Call) : M unit :=
  fun w => {| result := Ok tt; final := w; calls := [c] |}.

Declare Scope method_scope.
Delimit Scope method_scope with method.
Notation "x <- c1 ;; c2" := (bind c1 (fun x => c2))
  (at level 100, c1 at next level, right associativity) : method_scope.
Notation "c1 ;; c2" := (bind c1 (fun _ => c2))
  (at level 100, right associativity) : method_scope.
Local Open Scope method_scope.

(** [for (const x of xs) { ... }], stopping at the first throw. *)
Fixpoint mapM {A B} (f : A -> M B) (xs : list A) : M (list B) :=
  match xs with
  | [] => ret []
  | x :: xs' => y <- f x ;; ys <- mapM f xs' ;; ret (y :: ys)
  end.

Definition forEachM {A} (f : A -> M unit) (xs : list A) : M unit :=
  _ <- mapM f xs ;; ret tt.

(* ===================================================================== *)
(** ** PostgresRepository *)
(* ===================================================================== *)

Module PostgresRepository.

(** SQL [LIKE] with the default escape character: [%] stands for any
    sequence of characters, [_] for any one character, and a backslash
    makes the next character literal. *)
Fixpoint like (pat : string) (s : string) {struct pat} : bool :=
  match pat with
  | EmptyString => match s with EmptyString => true | _ => false end
  | String c pat' =>
      if Ascii.eqb c "%" then
        (fix skip (s : string) : bool :=
           like pat' s
           || match s with
              | EmptyString => false
              | String _ s' => skip s'
              end) s
      else if Ascii.eqb c "_" then
        match s with
        | String _ s' => like pat' s'
        | EmptyString => false
        end
      else if Ascii.eqb c "\" then
        match pat' with
        | EmptyString => false
        | String e pat'' =>
            match s with
            | String a s' => Ascii.eqb a e && like pat'' s'
            | EmptyString => false
            end
        end
      else
        match s with
        | String a s' => Ascii.eqb a c && like pat' s'
        | EmptyString => false
        end
  end.

(** [LENGTH(path) - LENGTH(REPLACE(path, '/', ''))] *)
Definition slashes (path : string) : Z := Js.countChar path "/".

(** [ORDER BY type DESC, path ASC], strings compared character by
    character. *)
Definition orderBefore (a b : string * Row) : bool :=
  match String.compare (Row_type a.2) (Row_type b.2) with
  | Gt => true
  | Lt => false
  | Eq => String.leb a.1 b.1
  end.

Definition OrderBefore (a b : string * Row) : Prop := orderBefore a b = true.

#[global] Instance OrderBefore_dec a b : Decision (OrderBefore a b).
Proof. unfold OrderBefore. apply _. Defined.

(** [ORDER BY last_accessed_at ASC] *)
Definition OlderFirst (a b : string * BlobRow) : Prop :=
  last_accessed_at a.2 <= last_accessed_at b.2.

#[global] Instance OlderFirst_dec a b : Decision (OlderFirst a b).
Proof. unfold OlderFirst. apply _. Defined.

(** The largest value of an [INTEGER] column. *)
Definition INT_MAX : Z := 2147483647.

Definition setTenant (tenantId : string) : M unit :=
  modify (set_tenant (Some tenantId)).

Definition ensureTenant : M string :=
  t <- gets currentTenantId ;;
  match t with
  | None | Some EmptyString => throw (PlainError "Tenant not set")
  | Some tenantId => ret tenantId
  end.

(** The row written for a node. *)
Definition rowOfNode (node : Node) : Row :=
  match node with
  | File f =>
      FileRow (ContentHash.toString (FileNode.contentHash f)) (FileNode.size f)
              (FileNode.mimeType f) (FileNode.createdAt f) (FileNode.modifiedAt f)
  | Directory d =>
      DirectoryRow (DirectoryNode.createdAt d) (DirectoryNode.modifiedAt d)
  end.

(** The node built from a selected row. *)
Definition nodeOfRow (path : string) (row : Row) : M Node :=
  filePath <- lift (FilePath.create path) ;;
  now <- gets clock ;;
  match row with
  | FileRow content_hash size mime_type created_at modified_at =>
      contentHash <- lift (ContentHash.fromString content_hash) ;;
      ret (File (FileNode.withTimes
                   (FileNode.new filePath contentHash size mime_type now)
                   created_at modified_at))
  | DirectoryRow created_at modified_at =>
      ret (Directory (DirectoryNode.withTimes (DirectoryNode.new filePath now)
                        created_at modified_at))
  end.

(** INSERT_FILE_NODE / INSERT_DIRECTORY_NODE; [UNIQUE (tenant_id, path)]. *)
Definition createNode (node : Node) : M unit :=
  let path := FilePath.toString (Node_path node) in
  enter (CreateNode path) ;;
  tenantId <- ensureTenant ;;
  rows <- gets fs_nodes ;;
  match rows !! (tenantId, path) with
  | Some _ => throw (DatabaseError "23505")
  | None => modify (set_fs_nodes (<[(tenantId, path) := rowOfNode node]> rows))
  end.

(** GET_NODE_BY_PATH *)
Definition getNodeByPath (path : string) : M (option Node) :=
  enter (GetNodeByPath path) ;;
  tenantId <- ensureTenant ;;
  rows <- gets fs_nodes ;;
  match rows !! (tenantId, path) with
  | None => ret None
  | Some row => node <- nodeOfRow path row ;; ret (Some node)
  end.

(** UPDATE_FILE_NODE / UPDATE_DIRECTORY_NODE: no row, no change.  The
    statement does not test the [type] column; run on a row of the other
    kind it changes, among the columns read for that kind, [modified_at]
    only. *)
Definition updatedRow (node : Node) (row : Row) : Row :=
  match node, row with
  | File f, FileRow _ _ _ created_at _ =>
      FileRow (ContentHash.toString (FileNode.contentHash f)) (FileNode.size f)
              (FileNode.mimeType f) created_at (FileNode.modifiedAt f)
  | File f, DirectoryRow created_at _ =>
      DirectoryRow created_at (FileNode.modifiedAt f)
  | Directory d, FileRow h s m created_at _ =>
      FileRow h s m created_at (DirectoryNode.modifiedAt d)
  | Directory d, DirectoryRow created_at _ =>
      DirectoryRow created_at (DirectoryNode.modifiedAt d)
  end.

Definition updateNode (node : Node) : M unit :=
  let path := FilePath.toString (Node_path node) in
  enter (UpdateNode path) ;;
  tenantId <- ensureTenant ;;
  rows <- gets fs_nodes ;;
  match rows !! (tenantId, path) with
  | None => ret tt
  | Some row =>
      modify (set_fs_nodes (<[(tenantId, path) := updatedRow node row]> rows))
  end.

(** DELETE_NODE *)
Definition deleteNode (path : string) : M unit :=
  enter (DeleteNode path) ;;
  tenantId <- ensureTenant ;;
  rows <- gets fs_nodes ;;
  modify (set_fs_nodes (delete (tenantId, path) rows)).

(** The rows selected by LIST_CHILDREN, in the order of the query. *)
Definition selectChildren (tenantId pattern directoryPath : string) (depth : Z)
    (rows : gmap (string * string) Row) : list (string * Row) :=
  merge_sort OrderBefore
    (omap (fun kr : (string * string) * Row =>
             let '((tenant_id, path), row) := kr in
             if String.eqb tenant_id tenantId
                && like pattern path
                && negb (String.eqb path directoryPath)
                && (slashes path =? depth)
             then Some (path, row) else None)
          (map_to_list rows)).

Definition listChildren (directoryPath : string) : M (list Node) :=
  enter (ListChildren directoryPath) ;;
  tenantId <- ensureTenant ;;
  let pattern :=
    if String.eqb directoryPath "/" then "/%" else directoryPath +:+ "/%" in
  let depth :=
    if String.eqb directoryPath "/" then 1
    else Js.countChar directoryPath "/" + 1 in
  rows <- gets fs_nodes ;;
  mapM (fun pr : string * Row => nodeOfRow pr.1 pr.2)
       (selectChildren tenantId pattern directoryPath depth rows).

(** INCREMENT_BLOB_REF: insert with count 1, or add 1 to the count. *)
Definition incrementBlobRefCount (contentHash : string) : M unit :=
  enter (IncrementBlobRefCount contentHash) ;;
  now <- gets clock ;;
  table <- gets blobs ;;
  match table !! contentHash with
  | None =>
      modify (set_blobs (<[contentHash :=
                {| reference_count := 1; blob_size := 0;
                   blob_created_at := now; last_accessed_at := now |}]> table))
  | Some b =>
      if INT_MAX <? reference_count b + 1 then throw (DatabaseError "22003")
      else
        modify (set_blobs (<[contentHash :=
                  {| reference_count := reference_count b + 1;
                     blob_size := blob_size b;
                     blob_created_at := blob_created_at b;
                     last_accessed_at := now |}]> table))
  end.

(** DECREMENT_BLOB_REF inside a transaction: a violated
    [CHECK (reference_count >= 0)] rolls back and is thrown again; no row
    gives 0. *)
Definition decrementBlobRefCount (contentHash : string) : M Z :=
  enter (DecrementBlobRefCount contentHash) ;;
  now <- gets clock ;;
  table <- gets blobs ;;
  match table !! contentHash with
  | None => ret 0
  | Some b =>
      if reference_count b - 1 <? 0 then throw (DatabaseError "23514")
      else
        modify (set_blobs (<[contentHash :=
                  {| reference_count := reference_count b - 1;
                     blob_size := blob_size b;
                     blob_created_at := blob_created_at b;
                     last_accessed_at := now |}]> table)) ;;
        ret (reference_count b - 1)
  end.

(** The rows selected by GET_ORPHAN_BLOBS; rows of equal
    [last_accessed_at] come in the order of the table. *)
Definition selectOrphans (table : gmap string BlobRow) : list string :=
  (take 1000
     (merge_sort OlderFirst
        (filter (fun kb : string * BlobRow => reference_count kb.2 = 0)
                (map_to_list table)))).*1.

Definition getOrphanBlobs : M (list string) :=
  enter GetOrphanBlobs ;;
  table <- gets blobs ;;
  ret (selectOrphans table).

End PostgresRepository.

(* ===================================================================== *)
(** ** LocalBlobStorage *)
(* ===================================================================== *)

Module LocalBlobStorage.

(** [getFilePath]: the shards and the file name under the base path. *)
Definition getFilePath (basePath contentHash : string) : list string :=
  [basePath; Js.substring contentHash 0 2; Js.substring contentHash 2 4; contentHash].

Definition write (contentHash : string) (content : Buffer) : M unit :=
  enter (BlobWrite contentHash) ;;
  files <- gets blobDir ;;
  modify (set_blobDir (<[contentHash := content]> files)).

Definition read (contentHash : string) : M Buffer :=
  enter (BlobRead contentHash) ;;
  files <- gets blobDir ;;
  match files !! contentHash with
  | Some content => ret content
  | None => throw (SystemError "ENOENT")
  end.

Definition exists_ (contentHash : string) : M bool :=
  enter (BlobExists contentHash) ;;
  files <- gets blobDir ;;
  ret (bool_decide (is_Some (files !! contentHash))).

(** [unlink], a missing file being ignored. *)
Definition delete (contentHash : string) : M unit :=
  enter (BlobDelete contentHash) ;;
  files <- gets blobDir ;;
  modify (set_blobDir (base.delete contentHash files)).

Definition deleteMany (contentHashes : list string) : M unit :=
  enter (BlobDeleteMany contentHashes) ;;
  forEachM delete contentHashes.

End LocalBlobStorage.


(* ===================================================================== *)
(** ** FileSystemService *)
(* ===================================================================== *)

Module FileSystemService.

Section Service.

(** [mime.lookup] of the [mime-types] package: the media type of a path's
    extension, if the package knows it. *)
Variable mimeLookup : string -> option string.

(** [path.substring(0, path.lastIndexOf("/")) || "/"] *)
Definition parentPath (path : string) : string :=
  Js.orElse (Js.substring path 0 (Js.lastIndexOf path "/")) "/".

Definition createDirectory (path : string) : M unit :=
  (* 1. Validate path *)
  filePath <- lift (FilePath.create path) ;;
  (* 2. Check if already exists *)
  existing <- PostgresRepository.getNodeByPath path ;;
  match existing with
  | Some _ => throw (FileAlreadyExistsError ("Path already exists: " +:+ path))
  | None =>
      (* 3. Check parent directory exists (unless creating root) *)
      (if negb (String.eqb path "/") then
         parent <- PostgresRepository.getNodeByPath (parentPath path) ;;
         match parent with
         | None =>
             throw (DirectoryNotFoundError
                      ("Parent directory not found: " +:+ parentPath path))
         | Some _ => ret tt
         end
       else ret tt) ;;
      (* 4. Create and save directory node *)
      now <- gets clock ;;
      PostgresRepository.createNode (Directory (DirectoryNode.new filePath now))
  end.

Definition writeFile (path : string) (content : Buffer) : M unit :=
  (* 1. Validate path *)
  filePath <- lift (FilePath.create path) ;;
  (* 2. Calculate content hash *)
  let contentHash := ContentHash.fromContent content in
  let hashString := ContentHash.toString contentHash in
  (* 3. Check if blob already exists *)
  blobExists <- LocalBlobStorage.exists_ hashString ;;
  (* 4. Write blob if it doesn't exist *)
  (if negb blobExists then LocalBlobStorage.write hashString content else ret tt) ;;
  (* 5. Check if file already exists *)
  existing <- PostgresRepository.getNodeByPath path ;;
  match existing with
  | Some (File existing) =>
      let oldHash := ContentHash.toString (FileNode.contentHash existing) in
      now <- gets clock ;;
      let existing := FileNode.updateContent existing contentHash
                        (Buffer_length content) now in
      PostgresRepository.updateNode (File existing) ;;
      PostgresRepository.incrementBlobRefCount hashString ;;
      oldRefCount <- PostgresRepository.decrementBlobRefCount oldHash ;;
      if oldRefCount =? 0 then LocalBlobStorage.delete oldHash else ret tt
  | Some (Directory _) =>
      throw (FileAlreadyExistsError ("Path is a directory: " +:+ path))
  | None =>
      parent <- PostgresRepository.getNodeByPath (parentPath path) ;;
      match parent with
      | None =>
          throw (DirectoryNotFoundError
                   ("Parent directory not found: " +:+ parentPath path))
      | Some _ =>
          let mimeType := default "application/octet-stream" (mimeLookup path) in
          now <- gets clock ;;
          PostgresRepository.createNode
            (File (FileNode.new filePath contentHash (Buffer_length content)
                     mimeType now)) ;;
          PostgresRepository.incrementBlobRefCount hashString
      end
  end.

Definition readFile (path : string) : M Buffer :=
  node <- PostgresRepository.getNodeByPath path ;;
  match node with
  | None => throw (FileNotFoundError ("File not found: " +:+ path))
  | Some (Directory _) => throw (FileNotFoundError ("Path is a directory: " +:+ path))
  | Some (File node) =>
      LocalBlobStorage.read (ContentHash.toString (FileNode.contentHash node))
  end.

Definition deleteFile (path : string) : M unit :=
  node <- PostgresRepository.getNodeByPath path ;;
  match node with
  | None => throw (FileNotFoundError ("File not found: " +:+ path))
  | Some (Directory _) => throw (FileNotFoundError ("Path is a directory: " +:+ path))
  | Some (File node) =>
      PostgresRepository.deleteNode path ;;
      let contentHash := ContentHash.toString (FileNode.contentHash node) in
      refCount <- PostgresRepository.decrementBlobRefCount contentHash ;;
      if refCount =? 0 then LocalBlobStorage.delete contentHash else ret tt
  end.

Definition deleteDirectory (path : string) : M unit :=
  node <- PostgresRepository.getNodeByPath path ;;
  match node with
  | None => throw (DirectoryNotFoundError ("Directory not found: " +:+ path))
  | Some (File _) => throw (DirectoryNotFoundError ("Path is a file: " +:+ path))
  | Some (Directory _) =>
      children <- PostgresRepository.listChildren path ;;
      if 0 <? Z.of_nat (length children)
      then throw (DirectoryNotEmptyError ("Directory not empty: " +:+ path))
      else PostgresRepository.deleteNode path
  end.

Definition listDirectory (path : string) : M (list Node) :=
  node <- PostgresRepository.getNodeByPath path ;;
  match node with
  | None => throw (DirectoryNotFoundError ("Directory not found: " +:+ path))
  | Some (File _) => throw (DirectoryNotFoundError ("Path is file: " +:+ path))
  | Some (Directory _) => PostgresRepository.listChildren path
  end.

Definition getInfo (path : string) : M Node :=
  node <- PostgresRepository.getNodeByPath path ;;
  match node with
  | None => throw (FileNotFoundError ("Path not found: " +:+ path))
  | Some node => ret node
  end.

Definition copyFile (source destination : string) : M unit :=
  content <- readFile source ;;
  writeFile destination content.

Definition moveFile (source destination : string) : M unit :=
  copyFile source destination ;;
  deleteFile source.

Definition setWorkingDirectory (path : string) : M unit :=
  throw (PlainError "Not implemented for now").

Definition getWorkingDirectory : M string := ret "/".

End Service.

End FileSystemService.

(* ===================================================================== *)
(** ** OrphanCleanupService *)
(* ===================================================================== *)

Module OrphanCleanupService.

Definition cleanup : M Z :=
  orphanHashes <- PostgresRepository.getOrphanBlobs ;;
  if Z.of_nat (length orphanHashes) =? 0 then ret 0
  else
    LocalBlobStorage.deleteMany orphanHashes ;;
    ret (Z.of_nat (length orphanHashes)).

(** The body of [while (true)], run at most [fuel] times: [None] when the
    loop has not reached its [break] by then. *)
Fixpoint cleanupLoop (fuel : nat) (batchSize totalDeleted : Z) : M (option Z) :=
  match fuel with
  | O => ret None
  | S fuel' =>
      deleted <- cleanup ;;
      let totalDeleted := totalDeleted + deleted in
      if deleted <? batchSize then ret (Some totalDeleted)
      else cleanupLoop fuel' batchSize totalDeleted
  end.

Definition cleanupInBatches (fuel : nat) (batchSize : Z) : M (option Z) :=
  cleanupLoop fuel batchSize 0.

End OrphanCleanupService.

(* ===================================================================== *)
(** ** Reading the state *)
(* ===================================================================== *)

(** The SHA-256 of a buffer, in hexadecimal. *)
Definition sha256 (content : Buffer) : string :=
  ContentHash.toString (ContentHash.fromContent content).

(** The row of the current tenant at a path. *)
Definition rowAt (w : World) (path : string) : option Row :=
  match currentTenantId w with
  | Some t => fs_nodes w !! (t, path)
  | None => None
  end.

(** The reference count recorded for a hash; no row counts as 0. *)
Definition refCount (w : World) (hash : string) : Z :=
  match blobs w !! hash with
  | Some b => reference_count b
  | None => 0
  end.

Definition isFileRow (r : Row) : bool :=
  match r with FileRow _ _ _ _ _ => true | DirectoryRow _ _ => false end.

Definition isDirectoryRow (r : Row) : bool := negb (isFileRow r).

Definition Row_hash (r : Row) : option string :=
  match r with FileRow h _ _ _ _ => Some h | DirectoryRow _ _ => None end.

(* ===================================================================== *)
(** ** Orders on the calls of one run *)
(* ===================================================================== *)

Definition isBlobWrite (c : Call) : bool :=
  match c with BlobWrite _ => true | _ => false end.

(** A metadata insertion or a reference-count increment. *)
Definition isMetadataWrite (c : Call) : bool :=
  match c with
  | CreateNode _ | UpdateNode _ | IncrementBlobRefCount _ => true
  | _ => false
  end.

Definition isIncrement (c : Call) : bool :=
  match c with IncrementBlobRefCount _ => true | _ => false end.

Definition isDecrement (c : Call) : bool :=
  match c with DecrementBlobRefCount _ => true | _ => false end.

(** No blob write comes after a metadata write. *)
Fixpoint writesFirst (seenMeta : bool) (tr : list Call) : bool :=
  match tr with
  | [] => true
  | c :: tr' =>
      if isBlobWrite c then negb seenMeta && writesFirst seenMeta tr'
      else writesFirst (seenMeta || isMetadataWrite c) tr'
  end.

(** No decrement comes before the first increment. *)
Fixpoint incrementFirst (seenInc : bool) (tr : list Call) : bool :=
  match tr with
  | [] => true
  | c :: tr' =>
      if isDecrement c then seenInc && incrementFirst seenInc tr'
      else incrementFirst (seenInc || isIncrement c) tr'
  end.

(** An increment or a blob write names the hash [H]. *)
Definition callsNameOnly (H : string) (c : Call) : Prop :=
  match c with
  | IncrementBlobRefCount h | BlobWrite h => h = H
  | _ => True
  end.

(** The number of calls of a run that satisfy a test. *)
Definition countCalls (test : Call -> bool) (tr : list Call) : nat :=
  length (filter (fun c => test c = true) tr).

(* ===================================================================== *)
(** ** Well-formed paths, rows and stores *)
(* ===================================================================== *)

(** The paths [FilePath.create] accepts. *)
Definition validPath (path : string) : bool :=
  Js.startsWith path "/"
  && negb (Js.includes path "..")
  && negb (Js.includes path (String (ascii_of_nat 0) EmptyString)).

(** A row whose hash column [ContentHash.fromString] accepts. *)
Definition rowReadable (row : Row) : bool :=
  match row with
  | FileRow h _ _ _ _ => ContentHash.wellFormed h
  | DirectoryRow _ _ => true
  end.

(** The node a readable row at a valid path is selected as. *)
Definition nodeFor (path : string) (row : Row) : Node :=
  match row with
  | FileRow h sz mime c m =>
      File {| FileNode.path := {| FilePath.value := path |};
              FileNode.contentHash := {| ContentHash.value := h |};
              FileNode.size := sz; FileNode.mimeType := mime;
              FileNode.createdAt := c; FileNode.modifiedAt := m |}
  | DirectoryRow c m =>
      Directory {| DirectoryNode.path := {| FilePath.value := path |};
                   DirectoryNode.createdAt := c; DirectoryNode.modifiedAt := m |}
  end.

(** The invariants of the metadata store that the service relies on: every
    stored path is one [FilePath.create] accepts and every stored hash one
    [ContentHash.fromString] accepts; every file row points at a [blobs] row
    whose count is at least 1 and at a blob in the directory (hash
    integrity); a count can still be incremented. *)
Record StoreInvariant (w : World) : Prop := {
  inv_rows : forall tenant path row,
    fs_nodes w !! (tenant, path) = Some row ->
    validPath path = true /\ rowReadable row = true;
  inv_integrity : forall tenant path h sz m c md,
    fs_nodes w !! (tenant, path) = Some (FileRow h sz m c md) ->
    1 <= refCount w h;
  inv_blob : forall tenant path h sz m c md,
    fs_nodes w !! (tenant, path) = Some (FileRow h sz m c md) ->
    is_Some (blobDir w !! h);
  inv_bound : forall h, refCount w h < PostgresRepository.INT_MAX
}.

(** The part of [StoreInvariant] that speaks of one row of [fs_nodes]. *)
Definition rowOk (w : World) (kr : (string * string) * Row) : bool :=
  validPath kr.1.2 && rowReadable kr.2
  && match kr.2 with
     | FileRow h _ _ _ _ =>
         (1 <=? refCount w h) && bool_decide (is_Some (blobDir w !! h))
     | DirectoryRow _ _ => true
     end.

(** [StoreInvariant], decided over the two tables. *)
Definition storeOk (w : World) : bool :=
  forallb (rowOk w) (map_to_list (fs_nodes w))
  && forallb (fun kb : string * BlobRow =>
                reference_count kb.2 <? PostgresRepository.INT_MAX)
             (map_to_list (blobs w)).

(** The blob directory holds nothing but [content] under the hash of
    [content]: no other stored byte string collides with it. *)
Definition NoCollision (w : World) (content : Buffer) : Prop :=
  forall c', blobDir w !! sha256 content = Some c' -> c' = content.

(** The tenant a request runs under. *)
Definition TenantIs (w : World) (t : string) : Prop :=
  currentTenantId w = Some t /\ t <> EmptyString.






(* ===================================================================== *)
(** ** What the statements and the service steps leave behind *)
(* ===================================================================== *)

(** The [blobs] row left by INCREMENT_BLOB_REF run at instant [now]. *)
Definition incremented (now : Z) (old : option BlobRow) : BlobRow :=
  match old with
  | None => {| reference_count := 1; blob_size := 0;
               blob_created_at := now; last_accessed_at := now |}
  | Some b => {| reference_count := reference_count b + 1;
                 blob_size := blob_size b;
                 blob_created_at := blob_created_at b;
                 last_accessed_at := now |}
  end.

(** The [blobs] row left by DECREMENT_BLOB_REF run at instant [now]. *)
Definition decremented (now : Z) (b : BlobRow) : BlobRow :=
  {| reference_count := reference_count b - 1; blob_size := blob_size b;
     blob_created_at := blob_created_at b; last_accessed_at := now |}.

(** The table INCREMENT_BLOB_REF leaves. *)
Definition tableAfterIncrement (now : Z) (table : gmap string BlobRow) (h : string)
    : gmap string BlobRow :=
  <[h := incremented now (table !! h)]> table.

(** The count DECREMENT_BLOB_REF returns, and the table it leaves. *)
Definition countAfterDecrement (table : gmap string BlobRow) (h : string) : Z :=
  match table !! h with
  | Some b => reference_count b - 1
  | None => 0
  end.

Definition tableAfterDecrement (now : Z) (table : gmap string BlobRow) (h : string)
    : gmap string BlobRow :=
  match table !! h with
  | Some b => <[h := decremented now b]> table
  | None => table
  end.

(** [if (refCount === 0) await this.blobStorage.delete(hash)] on the state. *)
Definition dropIfUnreferenced (count : Z) (h : string) (w : World) : World :=
  if count =? 0 then set_blobDir (delete h (blobDir w)) w else w.

(** An outcome reached after the calls [tr] were made. *)
Definition after {A} (tr : list Call) (o : Outcome A) : Outcome A :=
  {| result := result o; final := final o; calls := tr ++ calls o |}.

(** The state [writeFile] reads the node of [path] in: the blob of
    [content] is in the directory, written now unless already there. *)
Definition withBlob (content : Buffer) (w : World) : World :=
  if bool_decide (is_Some (blobDir w !! sha256 content)) then w
  else set_blobDir (<[sha256 content := content]> (blobDir w)) w.

(** The calls [writeFile] makes on the blob directory before it reads the
    node of its path. *)
Definition blobCallsOfWrite (content : Buffer) (w : World) : list Call :=
  BlobExists (sha256 content)
  :: (if bool_decide (is_Some (blobDir w !! sha256 content)) then []
      else [BlobWrite (sha256 content)]).

(** The rows LIST_CHILDREN selects for a directory path, with the pattern
    and the depth [listChildren] computes. *)
Definition childRows (w : World) (t directoryPath : string) : list (string * Row) :=
  PostgresRepository.selectChildren t
    (if String.eqb directoryPath "/" then "/%" else directoryPath +:+ "/%")
    directoryPath
    (if String.eqb directoryPath "/" then 1 else Js.countChar directoryPath "/" + 1)
    (fs_nodes w).

(** The number of hashes one GET_ORPHAN_BLOBS returns. *)
Definition orphanBatch (w : World) : Z :=
  Z.of_nat (length (PostgresRepository.selectOrphans (blobs w))).

(* ===================================================================== *)
(** ** Sample states *)
(* ===================================================================== *)

(** A lookup that knows no media type. *)
Definition noMime : string -> option string := fun _ => None.

(** A media-type lookup that knows two extensions the way [mime-types]
    does. *)
Definition sampleMime (path : string) : option string :=
  if String.eqb path "/a.txt" then Some "text/plain"
  else if String.eqb path "/b.png" then Some "image/png"
  else None.

(** A tenant whose only node is its root directory, and no blob at all. *)
Definition rootWorld (t : string) : World :=
  {| clock := 0; currentTenantId := Some t;
     fs_nodes := {[ (t, "/") := DirectoryRow 0 0 ]};
     blobs := ∅; blobDir := ∅ |}.

(** The state after the tenant [T1], whose root exists, has written the
    one-byte file [/a]. *)
Definition oneFileWorld : World :=
  final (FileSystemService.writeFile noMime "/a" (Buffer_from "x") (rootWorld "T1")).

(** The state after the tenant [T1] has written [/a] and [/b] with
    different contents and created the directory [/d]. *)
Definition twoFileWorld : World :=
  final (bind (FileSystemService.writeFile noMime "/b" (Buffer_from "y"))
              (fun _ => FileSystemService.createDirectory "/d") oneFileWorld).


(** The state after the tenant [T1] has created the directories [/a_b] and
    [/axb] and written the file [/axb/c]. *)
Definition wildcardWorld : World :=
  final (bind (FileSystemService.createDirectory "/a_b")
              (fun _ => bind (FileSystemService.createDirectory "/axb")
                 (fun _ => FileSystemService.writeFile noMime "/axb/c" (Buffer_from "x")))
              (rootWorld "T1")).

(** A blob table with one row whose count is 0, and nothing else. *)
Definition orphanWorld : World :=
  {| clock := 0; currentTenantId := Some "T1"; fs_nodes := ∅;
     blobs := {[ sha256 (Buffer_from "x")
                 := {| reference_count := 0; blob_size := 0;
                       blob_created_at := 0; last_accessed_at := 0 |} ]};
     blobDir := ∅ |}.

(* ===================================================================== *)
(** ** What the methods keep *)
(* ===================================================================== *)

(** A property of the state that a method keeps, whether it returns or
    throws. *)
Definition Keeps {A} (I : World -> Prop) (m : M A) : Prop :=
  forall w, I w -> I (final (m w)).

(** A method that leaves the state as it found it, whatever it returns. *)
Definition ReadOnly {A} (m : M A) : Prop :=
  forall w, final (m w) = w.

(** A method that leaves the rows of every tenant other than the current
    one, and the current tenant itself, as it found them. *)
Definition OtherTenantsUntouched {A} (m : M A) : Prop :=
  forall w tenant path,
    currentTenantId w <> Some tenant ->
    currentTenantId (final (m w)) = currentTenantId w
    /\ fs_nodes (final (m w)) !! (tenant, path) = fs_nodes w !! (tenant, path).

(** Every stored path is one [FilePath.create] accepts, and every stored
    hash one [ContentHash.fromString] accepts. *)
Definition RowsWellFormed (w : World) : Prop :=
  forall tenant path row,
    fs_nodes w !! (tenant, path) = Some row ->
    validPath path = true /\ rowReadable row = true.

(** A property of the state that survives what the services write: a
    readable row put at a valid path of the current tenant or in the place
    of one of its rows, a row of the current tenant deleted, and any change
    of the [blobs] table or of the blob directory. *)
Record ClosedUnderWrites (I : World -> Prop) : Prop := {
  closed_insert : forall w t p r,
    I w -> currentTenantId w = Some t ->
    validPath p = true -> rowReadable r = true ->
    I (set_fs_nodes (<[(t, p) := r]> (fs_nodes w)) w);
  closed_update : forall w t p r0 r,
    I w -> currentTenantId w = Some t ->
    fs_nodes w !! (t, p) = Some r0 -> rowReadable r = true ->
    I (set_fs_nodes (<[(t, p) := r]> (fs_nodes w)) w);
  closed_delete : forall w t p,
    I w -> currentTenantId w = Some t ->
    I (set_fs_nodes (delete (t, p) (fs_nodes w)) w);
  closed_blobs : forall w table, I w -> I (set_blobs table w);
  closed_blobDir : forall w files, I w -> I (set_blobDir files w)
}.

(* ===================================================================== *)
(** ** Orphans, requests without a tenant, unlinked blobs *)
(* ===================================================================== *)

(** The instant a blob row was last written; no row counts as 0. *)
Definition accessedAt (w : World) (hash : string) : Z :=
  match blobs w !! hash with
  | Some b => last_accessed_at b
  | None => 0
  end.

(** A hash whose row in [blobs] has the count 0. *)
Definition isOrphan (w : World) (hash : string) : Prop :=
  exists b, blobs w !! hash = Some b /\ reference_count b = 0.

(** No tenant was set for the request: [setTenant] was not called, or was
    called with the empty string. *)
Definition TenantUnset (w : World) : Prop :=
  currentTenantId w = None \/ currentTenantId w = Some EmptyString.

(** The blob directory after the files of some hashes were unlinked. *)
Definition unlinkAll (hashes : list string) (files : gmap string Buffer)
    : gmap string Buffer :=
  foldl (fun m h => delete h m) files hashes.

(** What [ensureTenant] throws. *)
Definition tenantNotSet : Error := PlainError "Tenant not set".

(** The rows of count 0, in the order of GET_ORPHAN_BLOBS, before its
    LIMIT. *)
Definition sortedOrphanRows (table : gmap string BlobRow) : list (string * BlobRow) :=
  merge_sort PostgresRepository.OlderFirst
    (filter (fun kb : string * BlobRow => reference_count kb.2 = 0)
            (map_to_list table)).

(* ===================================================================== *)
(** ** Counts against references *)
(* ===================================================================== *)

(** The number of file rows, of any tenant, whose hash is [hash]. *)
Definition hashCount (rows : gmap (string * string) Row) (hash : string) : Z :=
  Z.of_nat (length (filter (fun kr : (string * string) * Row =>
                              Row_hash kr.2 = Some hash)
                           (map_to_list rows))).

Definition fileRefs (w : World) (hash : string) : Z := hashCount (fs_nodes w) hash.

(** The two stores agree: every row can be read back, the count recorded
    for a hash is the number of file rows that carry it, and the blob of
    every file row is in the directory. *)
Record Consistent (w : World) : Prop := {
  consistent_rows : RowsWellFormed w;
  consistent_counts : forall h, refCount w h = fileRefs w h;
  consistent_blobs : forall tenant path h sz m c md,
    fs_nodes w !! (tenant, path) = Some (FileRow h sz m c md) ->
    is_Some (blobDir w !! h)
}.

(** No count is at the limit of its column. *)
Definition CountsBelowMax (w : World) : Prop :=
  forall h, refCount w h < PostgresRepository.INT_MAX.

(** 1 when a row is a file row with the hash [hash], 0 otherwise. *)
Definition carries (hash : string) (row : Row) : Z :=
  if bool_decide (Row_hash row = Some hash) then 1 else 0.

(* ===================================================================== *)
(** ** The HTTP layer: error handler, tenant middleware, one handler *)
(* ===================================================================== *)

Module Api.

(** The classes [errorHandler] tests with [instanceof]: [Error], and the
    classes of [FsErrors.ts]. *)
Inductive ErrorClass : Type :=
| ClassError
| ClassDomainError
| ClassFileNotFoundError
| ClassDirectoryNotFoundError
| ClassFileAlreadyExistsError
| ClassDirectoryNotEmptyError
| ClassInvalidPathError
| ClassInvalidHashError.

#[global] Instance ErrorClass_eq_dec : EqDecision ErrorClass.
Proof. solve_decision. Defined.

(** The class an error was constructed with.  [FilePath.create],
    [ContentHash.fromString] and [ensureTenant] throw [new Error(...)]; the
    errors of the database driver and of the file system extend [Error]
    and none of the classes of [FsErrors.ts]. *)
Definition classOf (e : Error) : ErrorClass :=
  match e with
  | PlainError _ | DatabaseError _ | SystemError _ => ClassError
  | FileNotFoundError _ => ClassFileNotFoundError
  | DirectoryNotFoundError _ => ClassDirectoryNotFoundError
  | FileAlreadyExistsError _ => ClassFileAlreadyExistsError
  | DirectoryNotEmptyError _ => ClassDirectoryNotEmptyError
  end.

(** [x instanceof target] for [x] of class [c]: every class of
    [FsErrors.ts] extends [DomainError], which extends [Error]. *)
Definition instanceOf (c target : ErrorClass) : bool :=
  match target with
  | ClassError => true
  | ClassDomainError => negb (bool_decide (c = ClassError))
  | _ => bool_decide (c = target)
  end.

(** [err.message]; the text of a database or file-system error is not
    modelled, and [errorHandler] does not send it. *)
Definition message (e : Error) : string :=
  match e with
  | PlainError m | FileNotFoundError m | DirectoryNotFoundError m
  | FileAlreadyExistsError m | DirectoryNotEmptyError m => m
  | DatabaseError _ | SystemError _ => EmptyString
  end.

(** The JSON bodies the modelled handlers send. *)
Inductive Body : Type :=
| ErrorBody (error : string)
| MessageBody (message : string)
| MessagePathBody (message path : string).

Record Response : Type := { status : Z; body : Body }.

(** [errorHandler(err, req, res, next)], without its log line. *)
Definition errorHandler (err : Error) : Response :=
  let c := classOf err in
  if instanceOf c ClassFileNotFoundError || instanceOf c ClassDirectoryNotFoundError
  then {| status := 404; body := ErrorBody (message err) |}
  else if instanceOf c ClassFileAlreadyExistsError
  then {| status := 409; body := ErrorBody (message err) |}
  else if instanceOf c ClassDirectoryNotEmptyError
  then {| status := 400; body := ErrorBody (message err) |}
  else if instanceOf c ClassInvalidPathError || instanceOf c ClassInvalidHashError
  then {| status := 400; body := ErrorBody (message err) |}
  else if instanceOf c ClassDomainError
  then {| status := 400; body := ErrorBody (message err) |}
  else {| status := 500; body := ErrorBody "Internal server error" |}.

(** [try { ...; res.json(ok) } catch (error) { next(error) }], the error
    going to [errorHandler], the last middleware of [server.ts]. *)
Definition respond {A} (m : M A) (ok : A -> Response) : M Response :=
  fun w =>
    let o := m w in
    {| result := Ok (match result o with
                     | Ok a => ok a
                     | Throw e => errorHandler e
                     end);
       final := final o; calls := calls o |}.

(** [createTenantMiddleware(repository)] on a request whose [req.user], if
    any, carries the tenant [tenantId]. *)
Definition tenantMiddleware (user : option string) : M unit :=
  match user with
  | Some tenantId => PostgresRepository.setTenant tenantId
  | None => ret tt
  end.

(** [FileSystemController.createDirectory] on a body whose [path] is a
    string or is absent. *)
Definition createDirectory (path : option string) : M Response :=
  match path with
  | None | Some EmptyString =>
      ret {| status := 400; body := ErrorBody "Path required" |}
  | Some path =>
      respond (FileSystemService.createDirectory path)
        (fun _ => {| status := 200;
                     body := MessagePathBody "Directory created successfully" path |})
  end.

End Api.

(* ===================================================================== *)
(** * Properties *)
(* ===================================================================== *)

Import FileSystemService.

(** ** Running methods *)

Lemma bind_calls {A B} (m : M A) (k : A -> M B) (w : World) :
  calls (bind m k w)
  = calls (m w) ++ match result (m w) with
                   | Ok a => calls (k a (final (m w)))
                   | Throw _ => []
                   end.
Proof.
  unfold bind. destruct (result (m w)); simpl; [reflexivity|].
  symmetry. apply app_nil_r.
Qed.

Lemma bind_result {A B} (m : M A) (k : A -> M B) (w : World) :
  result (bind m k w)
  = match result (m w) with
    | Ok a => result (k a (final (m w)))
    | Throw e => Throw e
    end.
Proof. unfold bind. destruct (result (m w)); reflexivity. Qed.

Lemma bind_final {A B} (m : M A) (k : A -> M B) (w : World) :
  final (bind m k w)
  = match result (m w) with
    | Ok a => final (k a (final (m w)))
    | Throw e => final (m w)
    end.
Proof. unfold bind. destruct (result (m w)); reflexivity. Qed.

(** A method whose run on [w] is known: what [bind] does next. *)
Lemma bind_ok {A B} (m : M A) (k : A -> M B) (w w' : World) a tr :
  m w = {| result := Ok a; final := w'; calls := tr |} ->
  bind m k w = {| result := result (k a w'); final := final (k a w');
                  calls := tr ++ calls (k a w') |}.
Proof. intros E. unfold bind. rewrite E. reflexivity. Qed.

(** ** The calls made by each store method *)

Ltac unfold_stores :=
  unfold PostgresRepository.getNodeByPath, PostgresRepository.createNode,
    PostgresRepository.updateNode, PostgresRepository.deleteNode,
    PostgresRepository.incrementBlobRefCount,
    PostgresRepository.decrementBlobRefCount, PostgresRepository.nodeOfRow,
    PostgresRepository.ensureTenant, LocalBlobStorage.read,
    LocalBlobStorage.write, LocalBlobStorage.exists_, LocalBlobStorage.delete,
    bind, lift, gets, modify, enter, throw, ret.

Ltac split_cases :=
  repeat (simpl;
          match goal with
          | |- context [match ?x with _ => _ end] => destruct x
          end);
  simpl; try reflexivity.

Lemma ensureTenant_ok w t :
  currentTenantId w = Some t -> t <> EmptyString ->
  PostgresRepository.ensureTenant w = {| result := Ok t; final := w; calls := [] |}.
Proof.
  intros E Ht. unfold_stores. simpl. rewrite E.
  destruct t; [congruence | reflexivity].
Qed.

Lemma lift_run {A} (r : Result A) w :
  lift r w = {| result := r; final := w; calls := [] |}.
Proof. destruct r; reflexivity. Qed.

Lemma getNodeByPath_calls path w :
  calls (PostgresRepository.getNodeByPath path w) = [GetNodeByPath path].
Proof. unfold_stores. split_cases. Qed.

Lemma createNode_calls node w :
  calls (PostgresRepository.createNode node w)
  = [CreateNode (FilePath.toString (Node_path node))].
Proof. unfold_stores. split_cases. Qed.

Lemma updateNode_calls node w :
  calls (PostgresRepository.updateNode node w)
  = [UpdateNode (FilePath.toString (Node_path node))].
Proof. unfold_stores. split_cases. Qed.

Lemma deleteNode_calls path w :
  calls (PostgresRepository.deleteNode path w) = [DeleteNode path].
Proof. unfold_stores. split_cases. Qed.

Lemma incrementBlobRefCount_calls h w :
  calls (PostgresRepository.incrementBlobRefCount h w) = [IncrementBlobRefCount h].
Proof. unfold_stores. split_cases. Qed.

Lemma decrementBlobRefCount_calls h w :
  calls (PostgresRepository.decrementBlobRefCount h w) = [DecrementBlobRefCount h].
Proof. unfold_stores. split_cases. Qed.

Lemma exists_run h w :
  LocalBlobStorage.exists_ h w
  = {| result := Ok (bool_decide (is_Some (blobDir w !! h))); final := w;
       calls := [BlobExists h] |}.
Proof. reflexivity. Qed.

Lemma write_run h content w :
  LocalBlobStorage.write h content w
  = {| result := Ok tt; final := set_blobDir (<[h := content]> (blobDir w)) w;
       calls := [BlobWrite h] |}.
Proof. reflexivity. Qed.

Lemma delete_run h w :
  LocalBlobStorage.delete h w
  = {| result := Ok tt; final := set_blobDir (delete h (blobDir w)) w;
       calls := [BlobDelete h] |}.
Proof. reflexivity. Qed.

Lemma read_calls h w : calls (LocalBlobStorage.read h w) = [BlobRead h].
Proof. unfold_stores. split_cases. Qed.

(** ** Order of the calls of [writeFile] *)

Lemma writesFirst_sound tr b :
  writesFirst b tr = true ->
  forall i c, tr !! i = Some c -> isBlobWrite c = true ->
    b = false /\
    forall j c', tr !! j = Some c' -> isMetadataWrite c' = true -> (i < j)%nat.
Proof.
  revert b. induction tr as [|x tr IH]; intros b Hw i c Hi Hc; [destruct i; discriminate|].
  simpl in Hw. destruct i as [|i]; simpl in Hi.
  - assert (x = c) as -> by congruence. rewrite Hc in Hw.
    apply andb_prop in Hw as [Hb Hw].
    split; [destruct b; [discriminate | reflexivity]|].
    intros j c' Hj Hm. destruct j as [|j]; simpl in Hj; [|lia].
    assert (c = c') as -> by congruence. destruct c'; discriminate.
  - destruct (isBlobWrite x) eqn:Hx.
    + apply andb_prop in Hw as [Hb Hw].
      destruct (IH _ Hw i c Hi Hc) as [-> Hrest]. split; [reflexivity|].
      intros j c' Hj Hm. destruct j as [|j]; simpl in Hj.
      * assert (x = c') as -> by congruence. destruct c'; discriminate.
      * specialize (Hrest j c' Hj Hm). lia.
    + destruct (IH _ Hw i c Hi Hc) as [Hor Hrest].
      apply orb_false_elim in Hor as [-> Hx']. split; [reflexivity|].
      intros j c' Hj Hm. destruct j as [|j]; simpl in Hj.
      * assert (x = c') as -> by congruence. congruence.
      * specialize (Hrest j c' Hj Hm). lia.
Qed.

Lemma incrementFirst_sound tr b :
  incrementFirst b tr = true ->
  forall j c, tr !! j = Some c -> isDecrement c = true ->
    b = true \/ exists i c', (i < j)%nat /\ tr !! i = Some c' /\ isIncrement c' = true.
Proof.
  revert b. induction tr as [|x tr IH]; intros b Hw j c Hj Hc; [destruct j; discriminate|].
  simpl in Hw. destruct j as [|j]; simpl in Hj.
  - assert (x = c) as -> by congruence. rewrite Hc in Hw.
    apply andb_prop in Hw as [Hb _]. by left.
  - destruct (isDecrement x) eqn:Hx.
    + apply andb_prop in Hw as [Hb _]. by left.
    + destruct (IH _ Hw j c Hj Hc) as [Hor | (i & c' & Hlt & Hi & Hinc)].
      * apply orb_prop in Hor as [-> | Hinc]; [by left|].
        right. exists 0%nat, x. split; [lia|]. split; [reflexivity | exact Hinc].
      * right. exists (S i), c'. split; [lia|]. split; [exact Hi | exact Hinc].
Qed.

Ltac trace_step :=
  match goal with
  | |- context [calls (bind ?m ?k ?w)] => rewrite (bind_calls m k w)
  | |- context [lift ?r ?w] => rewrite (lift_run r w)
  | |- context [calls (PostgresRepository.getNodeByPath ?p ?w)] =>
      rewrite (getNodeByPath_calls p w)
  | |- context [calls (PostgresRepository.createNode ?n ?w)] =>
      rewrite (createNode_calls n w)
  | |- context [calls (PostgresRepository.updateNode ?n ?w)] =>
      rewrite (updateNode_calls n w)
  | |- context [calls (PostgresRepository.deleteNode ?n ?w)] =>
      rewrite (deleteNode_calls n w)
  | |- context [calls (PostgresRepository.incrementBlobRefCount ?h ?w)] =>
      rewrite (incrementBlobRefCount_calls h w)
  | |- context [calls (PostgresRepository.decrementBlobRefCount ?h ?w)] =>
      rewrite (decrementBlobRefCount_calls h w)
  | |- context [calls (LocalBlobStorage.read ?h ?w)] => rewrite (read_calls h w)
  | |- context [LocalBlobStorage.exists_ ?h ?w] => rewrite (exists_run h w)
  | |- context [LocalBlobStorage.write ?h ?c ?w] => rewrite (write_run h c w)
  | |- context [LocalBlobStorage.delete ?h ?w] => rewrite (delete_run h w)
  | |- context [match result ?o with _ => _ end] => destruct (result o)
  | |- context [match ?x with _ => _ end] => destruct x
  | |- context [if ?x then _ else _] => destruct x
  end; cbn [calls result final app gets ret throw].

Lemma writeFile_calls_ordered mime path content w :
  let tr := calls (writeFile mime path content w) in
  writesFirst false tr = true /\ incrementFirst false tr = true
  /\ Forall (callsNameOnly (sha256 content)) tr.
Proof.
  unfold writeFile, sha256. cbv zeta.
  repeat trace_step; simpl; repeat split; repeat constructor.
Qed.

(** ** Exact runs of the store methods *)

Arguments ContentHash.fromContent : simpl never.
Arguments ContentHash.fromString : simpl never.
Arguments FilePath.create : simpl never.
Arguments parentPath : simpl never.
Arguments validPath : simpl never.

Lemma create_valid path :
  validPath path = true -> FilePath.create path = Ok {| FilePath.value := path |}.
Proof.
  unfold validPath, FilePath.create. intros H.
  apply andb_prop in H as [H H3]. apply andb_prop in H as [H1 H2].
  rewrite H1. simpl. apply negb_true_iff in H2, H3. rewrite H2, H3. reflexivity.
Qed.

Lemma create_invalid path :
  validPath path = false ->
  exists m, FilePath.create path = Throw (PlainError m)
            /\ kindOf (PlainError m) = InvalidPath.
Proof.
  unfold validPath, FilePath.create. intros H.
  destruct (Js.startsWith path "/"); simpl in *; [|eexists; split; reflexivity].
  destruct (Js.includes path ".."); simpl in *; [eexists; split; reflexivity|].
  destruct (Js.includes path _); simpl in *; [eexists; split; reflexivity|].
  discriminate.
Qed.

Lemma fromString_wellFormed h :
  ContentHash.wellFormed h = true ->
  ContentHash.fromString h = Ok {| ContentHash.value := h |}.
Proof. unfold ContentHash.fromString. intros ->. reflexivity. Qed.

Section TenantRuns.

Variable w : World.
Variable t : string.
Hypothesis Htenant : currentTenantId w = Some t.
Hypothesis Hnonempty : t <> EmptyString.

Lemma getNodeByPath_none path :
  fs_nodes w !! (t, path) = None ->
  PostgresRepository.getNodeByPath path w
  = {| result := Ok None; final := w; calls := [GetNodeByPath path] |}.
Proof.
  intros E. unfold PostgresRepository.getNodeByPath.
  unfold bind at 1. cbn [enter result final calls].
  rewrite (bind_ok _ _ _ _ _ _ (ensureTenant_ok w t Htenant Hnonempty)).
  unfold bind, gets. cbn [result final calls]. rewrite E. reflexivity.
Qed.

Lemma getNodeByPath_some path row :
  fs_nodes w !! (t, path) = Some row ->
  validPath path = true -> rowReadable row = true ->
  PostgresRepository.getNodeByPath path w
  = {| result := Ok (Some (nodeFor path row)); final := w;
       calls := [GetNodeByPath path] |}.
Proof.
  intros E Hp Hr. unfold PostgresRepository.getNodeByPath.
  unfold bind at 1. cbn [enter result final calls].
  rewrite (bind_ok _ _ _ _ _ _ (ensureTenant_ok w t Htenant Hnonempty)).
  unfold PostgresRepository.nodeOfRow, bind, gets.
  cbn [result final calls]. rewrite E. cbn [result final calls].
  rewrite (create_valid _ Hp). cbn [lift ret result final calls].
  destruct row as [h sz mime c m | c m]; simpl in Hr.
  - rewrite (fromString_wellFormed _ Hr). reflexivity.
  - reflexivity.
Qed.

Lemma createNode_run node :
  fs_nodes w !! (t, FilePath.toString (Node_path node)) = None ->
  PostgresRepository.createNode node w
  = {| result := Ok tt;
       final := set_fs_nodes (<[(t, FilePath.toString (Node_path node))
                                 := PostgresRepository.rowOfNode node]> (fs_nodes w)) w;
       calls := [CreateNode (FilePath.toString (Node_path node))] |}.
Proof.
  intros E. unfold PostgresRepository.createNode.
  unfold bind at 1. cbn [enter result final calls].
  rewrite (bind_ok _ _ _ _ _ _ (ensureTenant_ok w t Htenant Hnonempty)).
  unfold bind, gets, modify. cbn [result final calls]. rewrite E. reflexivity.
Qed.

Lemma updateNode_run node row :
  fs_nodes w !! (t, FilePath.toString (Node_path node)) = Some row ->
  PostgresRepository.updateNode node w
  = {| result := Ok tt;
       final := set_fs_nodes (<[(t, FilePath.toString (Node_path node))
                                 := PostgresRepository.updatedRow node row]> (fs_nodes w)) w;
       calls := [UpdateNode (FilePath.toString (Node_path node))] |}.
Proof.
  intros E. unfold PostgresRepository.updateNode.
  unfold bind at 1. cbn [enter result final calls].
  rewrite (bind_ok _ _ _ _ _ _ (ensureTenant_ok w t Htenant Hnonempty)).
  unfold bind, gets, modify. cbn [result final calls]. rewrite E. reflexivity.
Qed.

Lemma deleteNode_run path :
  PostgresRepository.deleteNode path w
  = {| result := Ok tt;
       final := set_fs_nodes (delete (t, path) (fs_nodes w)) w;
       calls := [DeleteNode path] |}.
Proof.
  unfold PostgresRepository.deleteNode.
  unfold bind at 1. cbn [enter result final calls].
  rewrite (bind_ok _ _ _ _ _ _ (ensureTenant_ok w t Htenant Hnonempty)).
  reflexivity.
Qed.

End TenantRuns.

Lemma incrementBlobRefCount_run w h :
  refCount w h < PostgresRepository.INT_MAX ->
  PostgresRepository.incrementBlobRefCount h w
  = {| result := Ok tt;
       final := set_blobs (<[h := incremented (clock w) (blobs w !! h)]> (blobs w)) w;
       calls := [IncrementBlobRefCount h] |}.
Proof.
  unfold refCount. intros Hlt.
  unfold PostgresRepository.incrementBlobRefCount, bind, gets, enter, modify.
  cbn [result final calls]. destruct (blobs w !! h) as [b|]; [|reflexivity].
  destruct (Z.ltb_spec PostgresRepository.INT_MAX (reference_count b + 1)); [lia|].
  reflexivity.
Qed.

Lemma decrementBlobRefCount_none w h :
  blobs w !! h = None ->
  PostgresRepository.decrementBlobRefCount h w
  = {| result := Ok 0; final := w; calls := [DecrementBlobRefCount h] |}.
Proof.
  intros E. unfold PostgresRepository.decrementBlobRefCount, bind, gets, enter.
  cbn [result final calls]. rewrite E. reflexivity.
Qed.

Lemma decrementBlobRefCount_some w h b :
  blobs w !! h = Some b -> 1 <= reference_count b ->
  PostgresRepository.decrementBlobRefCount h w
  = {| result := Ok (reference_count b - 1);
       final := set_blobs (<[h := decremented (clock w) b]> (blobs w)) w;
       calls := [DecrementBlobRefCount h] |}.
Proof.
  intros E Hge. unfold PostgresRepository.decrementBlobRefCount, bind, gets, enter, modify.
  cbn [result final calls]. rewrite E.
  destruct (Z.ltb_spec (reference_count b - 1) 0); [lia|]. reflexivity.
Qed.

Lemma read_some w h content :
  blobDir w !! h = Some content ->
  LocalBlobStorage.read h w
  = {| result := Ok content; final := w; calls := [BlobRead h] |}.
Proof.
  intros E. unfold LocalBlobStorage.read, bind, gets, enter.
  cbn [result final calls]. rewrite E. reflexivity.
Qed.

(** ** The digest is a well-formed hash *)

Lemma round_length st kw : length (Sha256.round st kw) = length st.
Proof.
  unfold Sha256.round.
  destruct st as [|a [|b [|c [|d [|e [|f [|g [|h [|i st]]]]]]]]]; reflexivity.
Qed.

Lemma rounds_length l st : length (fold_left Sha256.round l st) = length st.
Proof.
  revert st. induction l as [|kw l IH]; intros st; simpl; [reflexivity|].
  rewrite IH. apply round_length.
Qed.

Lemma compress_length h block : length (Sha256.compress h block) = length h.
Proof.
  unfold Sha256.compress. rewrite length_map, length_combine, rounds_length. lia.
Qed.

Lemma digest_length msg : length (Sha256.digest msg) = 8%nat.
Proof.
  unfold Sha256.digest. generalize (Sha256.blocks (length (Sha256.pad msg))
    (Sha256.words (length (Sha256.pad msg)) (Sha256.pad msg))).
  intros bs. change 8%nat with (length Sha256.H0). generalize Sha256.H0.
  induction bs as [|b bs IH]; intros h; simpl; [reflexivity|].
  rewrite IH. apply compress_length.
Qed.

Lemma hexdigit_isHexChar n : ContentHash.isHexChar (Sha256.hexdigit n) = true.
Proof.
  unfold Sha256.hexdigit.
  destruct n as [|p|p]; try reflexivity.
  do 4 (destruct p as [p|p|]; try reflexivity).
Qed.

Lemma hexwords_wellFormed ws :
  length (flat_map Sha256.hexword ws) = (8 * length ws)%nat
  /\ forallb ContentHash.isHexChar (flat_map Sha256.hexword ws) = true.
Proof.
  induction ws as [|x ws [IH1 IH2]]; [split; reflexivity|].
  cbn [flat_map]. rewrite length_app, forallb_app, IH1, IH2. split.
  - unfold Sha256.hexword. rewrite length_map. simpl. lia.
  - unfold Sha256.hexword. cbn [seq rev app map forallb].
    rewrite !hexdigit_isHexChar. reflexivity.
Qed.

Lemma string_of_list_ascii_length l :
  String.length (string_of_list_ascii l) = length l.
Proof. induction l as [|a l IH]; simpl; congruence. Qed.

Lemma sha256_wellFormed content : ContentHash.wellFormed (sha256 content) = true.
Proof.
  unfold sha256, ContentHash.fromContent, ContentHash.toString, ContentHash.wellFormed,
    Sha256.hex. cbn [ContentHash.value].
  rewrite string_of_list_ascii_length, list_ascii_of_string_of_list_ascii.
  destruct (hexwords_wellFormed
              (Sha256.digest (map (fun b => Z.of_N (Byte.to_N b)) content))) as [H1 H2].
  rewrite H1, H2, digest_length. reflexivity.
Qed.

(** ** Exact runs of [writeFile] and [readFile] *)

Lemma bind_run {A B} (m : M A) (k : A -> M B) (w w' : World) a tr :
  m w = {| result := Ok a; final := w'; calls := tr |} ->
  bind m k w = after tr (k a w').
Proof. intros E. unfold bind, after. rewrite E. reflexivity. Qed.

Lemma bind_stop {A B} (m : M A) (k : A -> M B) (w w' : World) e tr :
  m w = {| result := Throw e; final := w'; calls := tr |} ->
  bind m k w = {| result := Throw e; final := w'; calls := tr |}.
Proof. intros E. unfold bind. rewrite E. reflexivity. Qed.

Lemma ret_run {A} (a : A) w : ret a w = {| result := Ok a; final := w; calls := [] |}.
Proof. reflexivity. Qed.

Lemma gets_run {A} (f : World -> A) w :
  gets f w = {| result := Ok (f w); final := w; calls := [] |}.
Proof. reflexivity. Qed.

Ltac run_by H := rewrite (bind_run _ _ _ _ _ _ H); cbv beta.
Ltac run_done := cbn [after result final calls app]; try reflexivity.

Lemma withBlob_tenant content w : currentTenantId (withBlob content w) = currentTenantId w.
Proof. unfold withBlob. destruct (bool_decide _); reflexivity. Qed.

Lemma withBlob_fs_nodes content w : fs_nodes (withBlob content w) = fs_nodes w.
Proof. unfold withBlob. destruct (bool_decide _); reflexivity. Qed.

Lemma withBlob_blobs content w : blobs (withBlob content w) = blobs w.
Proof. unfold withBlob. destruct (bool_decide _); reflexivity. Qed.

Lemma withBlob_clock content w : clock (withBlob content w) = clock w.
Proof. unfold withBlob. destruct (bool_decide _); reflexivity. Qed.

Lemma withBlob_refCount content w h : refCount (withBlob content w) h = refCount w h.
Proof. unfold refCount. rewrite withBlob_blobs. reflexivity. Qed.

Lemma withBlob_blobDir content w :
  blobDir (withBlob content w)
  = if bool_decide (is_Some (blobDir w !! sha256 content)) then blobDir w
    else <[sha256 content := content]> (blobDir w).
Proof. unfold withBlob. destruct (bool_decide _); reflexivity. Qed.

(** The first steps of [writeFile] on a valid path: the blob is checked,
    and written if absent. *)
Lemma writeFile_start mime path content w :
  validPath path = true ->
  writeFile mime path content w
  = after (blobCallsOfWrite content w)
      ((existing <- PostgresRepository.getNodeByPath path ;;
        match existing with
        | Some (File existing) =>
            let oldHash := ContentHash.toString (FileNode.contentHash existing) in
            now <- gets clock ;;
            let existing := FileNode.updateContent existing
                              (ContentHash.fromContent content)
                              (Buffer_length content) now in
            PostgresRepository.updateNode (File existing) ;;
            PostgresRepository.incrementBlobRefCount (sha256 content) ;;
            oldRefCount <- PostgresRepository.decrementBlobRefCount oldHash ;;
            if oldRefCount =? 0 then LocalBlobStorage.delete oldHash else ret tt
        | Some (Directory _) =>
            throw (FileAlreadyExistsError ("Path is a directory: " +:+ path))
        | None =>
            parent <- PostgresRepository.getNodeByPath (parentPath path) ;;
            match parent with
            | None =>
                throw (DirectoryNotFoundError
                         ("Parent directory not found: " +:+ parentPath path))
            | Some _ =>
                let mimeType := default "application/octet-stream" (mime path) in
                now <- gets clock ;;
                PostgresRepository.createNode
                  (File (FileNode.new {| FilePath.value := path |}
                           (ContentHash.fromContent content)
                           (Buffer_length content) mimeType now)) ;;
                PostgresRepository.incrementBlobRefCount (sha256 content)
            end
        end)%method (withBlob content w)).
Proof.
  intros Hp. unfold writeFile. rewrite (create_valid _ Hp).
  run_by (lift_run (Ok {| FilePath.value := path |}) w). cbv zeta.
  fold (sha256 content).
  run_by (exists_run (sha256 content) w). unfold withBlob, blobCallsOfWrite.
  destruct (bool_decide (is_Some (blobDir w !! sha256 content))); cbn [negb].
  - run_by (ret_run tt w). run_done.
  - run_by (write_run (sha256 content) content w). run_done.
Qed.

Lemma set_blobs_same w : set_blobs (blobs w) w = w.
Proof. destruct w; reflexivity. Qed.

Lemma decrementBlobRefCount_run w h :
  (forall b, blobs w !! h = Some b -> 1 <= reference_count b) ->
  PostgresRepository.decrementBlobRefCount h w
  = {| result := Ok (countAfterDecrement (blobs w) h);
       final := set_blobs (tableAfterDecrement (clock w) (blobs w) h) w;
       calls := [DecrementBlobRefCount h] |}.
Proof.
  intros Hge. unfold countAfterDecrement, tableAfterDecrement.
  destruct (blobs w !! h) as [b|] eqn:E.
  - apply decrementBlobRefCount_some; auto.
  - rewrite set_blobs_same. apply decrementBlobRefCount_none; auto.
Qed.

Lemma dropIfUnreferenced_run count h w :
  (if count =? 0 then LocalBlobStorage.delete h else ret tt) w
  = {| result := Ok tt; final := dropIfUnreferenced count h w;
       calls := if count =? 0 then [BlobDelete h] else [] |}.
Proof. unfold dropIfUnreferenced. destruct (count =? 0); reflexivity. Qed.

Section WriteRuns.

Variable mime : string -> option string.
Variable w : World.
Variable t : string.
Variable path : string.
Variable content : Buffer.
Hypothesis Htenant : currentTenantId w = Some t.
Hypothesis Hnonempty : t <> EmptyString.
Hypothesis Hpath : validPath path = true.

Let H := sha256 content.
Let w1 := withBlob content w.

Lemma writeFile_new parentRow :
  fs_nodes w !! (t, path) = None ->
  fs_nodes w !! (t, parentPath path) = Some parentRow ->
  validPath (parentPath path) = true -> rowReadable parentRow = true ->
  refCount w H < PostgresRepository.INT_MAX ->
  writeFile mime path content w
  = {| result := Ok tt;
       final :=
         set_blobs (tableAfterIncrement (clock w) (blobs w) H)
           (set_fs_nodes
              (<[(t, path) := FileRow H (Buffer_length content)
                                (default "application/octet-stream" (mime path))
                                (clock w) (clock w)]> (fs_nodes w)) w1);
       calls := blobCallsOfWrite content w
                ++ [GetNodeByPath path; GetNodeByPath (parentPath path);
                    CreateNode path; IncrementBlobRefCount H] |}.
Proof.
  intros Hnone Hparent Hpp Hpr Hlt.
  assert (Ht1 : currentTenantId w1 = Some t)
    by (unfold w1; rewrite withBlob_tenant; exact Htenant).
  rewrite (writeFile_start mime path content w Hpath). fold w1.
  assert (Hnone1 : fs_nodes w1 !! (t, path) = None)
    by (unfold w1; rewrite withBlob_fs_nodes; exact Hnone).
  assert (Hparent1 : fs_nodes w1 !! (t, parentPath path) = Some parentRow)
    by (unfold w1; rewrite withBlob_fs_nodes; exact Hparent).
  run_by (getNodeByPath_none w1 t Ht1 Hnonempty path Hnone1).
  run_by (getNodeByPath_some w1 t Ht1 Hnonempty _ _ Hparent1 Hpp Hpr).
  cbv zeta. run_by (gets_run clock w1).
  run_by (createNode_run w1 t Ht1 Hnonempty
            (File (FileNode.new {| FilePath.value := path |}
                     (ContentHash.fromContent content) (Buffer_length content)
                     (default "application/octet-stream" (mime path)) (clock w1)))
            Hnone1).
  rewrite incrementBlobRefCount_run
    by (unfold refCount; cbn [blobs set_fs_nodes]; fold (refCount w1 (sha256 content));
        unfold w1; rewrite withBlob_refCount; exact Hlt).
  run_done. unfold tableAfterIncrement.
  cbn [clock blobs set_fs_nodes Node_path FileNode.path FileNode.new FilePath.toString
       FilePath.value PostgresRepository.rowOfNode FileNode.contentHash FileNode.size
       FileNode.mimeType FileNode.createdAt FileNode.modifiedAt].
  unfold w1. rewrite !withBlob_clock, !withBlob_blobs, !withBlob_fs_nodes.
  reflexivity.
Qed.

Lemma writeFile_update oldHash sz mimeType created modified :
  fs_nodes w !! (t, path) = Some (FileRow oldHash sz mimeType created modified) ->
  ContentHash.wellFormed oldHash = true ->
  refCount w H < PostgresRepository.INT_MAX ->
  (forall b, tableAfterIncrement (clock w) (blobs w) H !! oldHash = Some b ->
             1 <= reference_count b) ->
  let table := tableAfterIncrement (clock w) (blobs w) H in
  let count := countAfterDecrement table oldHash in
  writeFile mime path content w
  = {| result := Ok tt;
       final :=
         dropIfUnreferenced count oldHash
           (set_blobs (tableAfterDecrement (clock w) table oldHash)
              (set_fs_nodes
                 (<[(t, path) := FileRow H (Buffer_length content) mimeType
                                   created (clock w)]> (fs_nodes w)) w1));
       calls := blobCallsOfWrite content w
                ++ [GetNodeByPath path; UpdateNode path; IncrementBlobRefCount H;
                    DecrementBlobRefCount oldHash]
                ++ (if count =? 0 then [BlobDelete oldHash] else []) |}.
Proof.
  intros Hrow Hwf Hlt Hge table count.
  assert (Ht1 : currentTenantId w1 = Some t)
    by (unfold w1; rewrite withBlob_tenant; exact Htenant).
  rewrite (writeFile_start mime path content w Hpath). fold w1.
  assert (Hrow1 : fs_nodes w1 !! (t, path)
                  = Some (FileRow oldHash sz mimeType created modified))
    by (unfold w1; rewrite withBlob_fs_nodes; exact Hrow).
  run_by (getNodeByPath_some w1 t Ht1 Hnonempty _ _ Hrow1 Hpath Hwf).
  cbn [nodeFor]. cbv zeta. run_by (gets_run clock w1).
  run_by (updateNode_run w1 t Ht1 Hnonempty
            (File (FileNode.updateContent
                     {| FileNode.path := {| FilePath.value := path |};
                        FileNode.contentHash := {| ContentHash.value := oldHash |};
                        FileNode.size := sz; FileNode.mimeType := mimeType;
                        FileNode.createdAt := created;
                        FileNode.modifiedAt := modified |}
                     (ContentHash.fromContent content) (Buffer_length content)
                     (clock w1)))
            _ Hrow1).
  erewrite bind_run; cycle 1.
  { apply incrementBlobRefCount_run.
    unfold refCount; cbn [blobs set_fs_nodes]; fold (refCount w1 (sha256 content)).
    unfold w1; rewrite withBlob_refCount; exact Hlt. }
  cbv beta.
  erewrite bind_run; cycle 1.
  { apply decrementBlobRefCount_run.
    cbn [blobs set_blobs set_fs_nodes clock].
    unfold w1. rewrite withBlob_clock, withBlob_blobs. exact Hge. }
  cbv beta. rewrite dropIfUnreferenced_run. run_done.
  cbn [clock blobs set_blobs set_fs_nodes Node_path FileNode.path FileNode.updateContent
       FilePath.toString FilePath.value PostgresRepository.updatedRow
       FileNode.contentHash FileNode.size FileNode.mimeType FileNode.createdAt
       FileNode.modifiedAt ContentHash.toString ContentHash.value].
  unfold w1. rewrite !withBlob_clock, !withBlob_blobs, !withBlob_fs_nodes.
  reflexivity.
Qed.

Lemma writeFile_directory created modified :
  fs_nodes w !! (t, path) = Some (DirectoryRow created modified) ->
  writeFile mime path content w
  = {| result := Throw (FileAlreadyExistsError ("Path is a directory: " +:+ path));
       final := w1;
       calls := blobCallsOfWrite content w ++ [GetNodeByPath path] |}.
Proof.
  intros Hrow.
  assert (Ht1 : currentTenantId w1 = Some t)
    by (unfold w1; rewrite withBlob_tenant; exact Htenant).
  rewrite (writeFile_start mime path content w Hpath). fold w1.
  assert (Hrow1 : fs_nodes w1 !! (t, path) = Some (DirectoryRow created modified))
    by (unfold w1; rewrite withBlob_fs_nodes; exact Hrow).
  run_by (getNodeByPath_some w1 t Ht1 Hnonempty _ _ Hrow1 Hpath eq_refl).
  run_done.
Qed.

End WriteRuns.

Section ReadRuns.

Variable w : World.
Variable t : string.
Variable path : string.
Hypothesis Htenant : currentTenantId w = Some t.
Hypothesis Hnonempty : t <> EmptyString.

Lemma readFile_file h sz mimeType created modified content :
  fs_nodes w !! (t, path) = Some (FileRow h sz mimeType created modified) ->
  validPath path = true -> ContentHash.wellFormed h = true ->
  blobDir w !! h = Some content ->
  readFile path w
  = {| result := Ok content; final := w; calls := [GetNodeByPath path; BlobRead h] |}.
Proof.
  intros Hrow Hp Hwf Hblob. unfold readFile.
  run_by (getNodeByPath_some w t Htenant Hnonempty _ _ Hrow Hp Hwf).
  cbn [nodeFor FileNode.contentHash ContentHash.toString ContentHash.value].
  rewrite (read_some w h content Hblob). run_done.
Qed.

End ReadRuns.

Lemma dropIfUnreferenced_tenant n h w :
  currentTenantId (dropIfUnreferenced n h w) = currentTenantId w.
Proof. unfold dropIfUnreferenced. destruct (n =? 0); reflexivity. Qed.

Lemma dropIfUnreferenced_fs_nodes n h w :
  fs_nodes (dropIfUnreferenced n h w) = fs_nodes w.
Proof. unfold dropIfUnreferenced. destruct (n =? 0); reflexivity. Qed.

Lemma dropIfUnreferenced_blobs n h w :
  blobs (dropIfUnreferenced n h w) = blobs w.
Proof. unfold dropIfUnreferenced. destruct (n =? 0); reflexivity. Qed.

Lemma dropIfUnreferenced_blobDir n h w :
  blobDir (dropIfUnreferenced n h w)
  = if n =? 0 then delete h (blobDir w) else blobDir w.
Proof. unfold dropIfUnreferenced. destruct (n =? 0); reflexivity. Qed.

(** After [writeFile] has checked or written the blob, the directory holds
    the content under its hash. *)
Lemma withBlob_holds content w :
  NoCollision w content ->
  blobDir (withBlob content w) !! sha256 content = Some content.
Proof.
  intros Hnc. rewrite withBlob_blobDir.
  destruct (bool_decide_reflect (is_Some (blobDir w !! sha256 content))) as [[c Hc]|Hn].
  - rewrite Hc. f_equal. apply Hnc. exact Hc.
  - apply lookup_insert_eq.
Qed.

(** The count DECREMENT_BLOB_REF finds for the old hash of an updated file
    is at least 1 on a store with hash integrity. *)
Lemma update_decrement_safe w h oldHash :
  1 <= refCount w oldHash ->
  forall b, tableAfterIncrement (clock w) (blobs w) h !! oldHash = Some b ->
            1 <= reference_count b
            /\ (oldHash = h -> 2 <= reference_count b).
Proof.
  unfold refCount, tableAfterIncrement. intros Hge b.
  destruct (decide (h = oldHash)) as [->|Hne].
  - rewrite lookup_insert_eq. intros [= <-].
    destruct (blobs w !! oldHash) as [b0|]; simpl in *; lia.
  - rewrite lookup_insert_ne by exact Hne. intros E. rewrite E in Hge.
    split; [exact Hge | congruence].
Qed.

(** ** C1: writing then reading a file *)

(** C1 (as amended).  On a store that satisfies its invariants and holds no
    colliding blob, for every byte string [content] and every valid [path]
    whose parent exists and which is not a directory, [writeFile] succeeds,
    a following [readFile] returns exactly [content], and the row stored at
    [path] carries the lowercase hexadecimal SHA-256 of [content]. *)
Theorem writeFile_readFile_roundtrip (mime : string -> option string)
    (w : World) (t path : string) (content : Buffer) :
  StoreInvariant w -> TenantIs w t -> NoCollision w content ->
  validPath path = true ->
  is_Some (fs_nodes w !! (t, parentPath path)) ->
  (forall c m, fs_nodes w !! (t, path) <> Some (DirectoryRow c m)) ->
  let o := writeFile mime path content w in
  result o = Ok tt
  /\ result (readFile path (final o)) = Ok content
  /\ exists row, rowAt (final o) path = Some row
                 /\ Row_hash row = Some (sha256 content).
Proof.
  intros Hinv [Ht Hne] Hnc Hp [parentRow Hparent] Hnodir o.
  destruct (fs_nodes w !! (t, path)) as [[oldHash sz mt cr md | cr md]|] eqn:Hrow.
  - (* an existing file is updated *)
    destruct (inv_rows w Hinv _ _ _ Hrow) as [_ Hwf]. simpl in Hwf.
    pose proof (inv_integrity w Hinv _ _ _ _ _ _ _ Hrow) as Hold.
    pose proof (update_decrement_safe w (sha256 content) oldHash Hold) as Hsafe.
    pose proof (writeFile_update mime w t path content Ht Hne Hp oldHash sz mt cr md
                  Hrow Hwf (inv_bound w Hinv _) (fun b Hb => proj1 (Hsafe b Hb))) as Hrun.
    cbv zeta in Hrun. subst o. rewrite Hrun. cbn [result final].
    set (table := tableAfterIncrement (clock w) (blobs w) (sha256 content)) in *.
    set (count := countAfterDecrement table oldHash).
    set (w3 := dropIfUnreferenced count oldHash _).
    assert (Hrow3 : fs_nodes w3 !! (t, path)
                    = Some (FileRow (sha256 content) (Buffer_length content) mt cr (clock w))).
    { unfold w3. rewrite dropIfUnreferenced_fs_nodes. cbn [fs_nodes set_blobs set_fs_nodes].
      apply lookup_insert_eq. }
    assert (Ht3 : currentTenantId w3 = Some t).
    { unfold w3. rewrite dropIfUnreferenced_tenant. cbn [currentTenantId set_blobs set_fs_nodes].
      rewrite withBlob_tenant. exact Ht. }
    assert (Hblob3 : blobDir w3 !! sha256 content = Some content).
    { unfold w3. rewrite dropIfUnreferenced_blobDir. cbn [blobDir set_blobs set_fs_nodes].
      destruct (Z.eqb_spec count 0) as [Hz|_]; [|apply withBlob_holds; exact Hnc].
      destruct (decide (oldHash = sha256 content)) as [Heq|Hneq].
      - exfalso. unfold count, countAfterDecrement in Hz.
        destruct (table !! oldHash) as [b|] eqn:Hb.
        + destruct (Hsafe b eq_refl) as [_ H2]. specialize (H2 Heq). lia.
        + unfold table, tableAfterIncrement in Hb. rewrite Heq in Hb.
          rewrite lookup_insert_eq in Hb. discriminate.
      - rewrite lookup_delete_ne by exact Hneq. apply withBlob_holds; exact Hnc. }
    split; [reflexivity|]. split.
    + rewrite (readFile_file w3 t path Ht3 Hne _ _ _ _ _ _ Hrow3 Hp
                 (sha256_wellFormed content) Hblob3). reflexivity.
    + eexists. unfold rowAt. rewrite Ht3. split; [exact Hrow3 | reflexivity].
  - exfalso. exact (Hnodir cr md eq_refl).
  - (* a new file is created *)
    destruct (inv_rows w Hinv _ _ _ Hparent) as [Hpp Hpr].
    pose proof (writeFile_new mime w t path content Ht Hne Hp parentRow
                  Hrow Hparent Hpp Hpr (inv_bound w Hinv _)) as Hrun.
    subst o. rewrite Hrun. cbn [result final].
    set (w3 := set_blobs _ _).
    assert (Hrow3 : fs_nodes w3 !! (t, path)
                    = Some (FileRow (sha256 content) (Buffer_length content)
                              (default "application/octet-stream" (mime path))
                              (clock w) (clock w))).
    { unfold w3. cbn [fs_nodes set_blobs set_fs_nodes]. apply lookup_insert_eq. }
    assert (Ht3 : currentTenantId w3 = Some t).
    { unfold w3. cbn [currentTenantId set_blobs set_fs_nodes].
      rewrite withBlob_tenant. exact Ht. }
    assert (Hblob3 : blobDir w3 !! sha256 content = Some content).
    { unfold w3. cbn [blobDir set_blobs set_fs_nodes]. apply withBlob_holds; exact Hnc. }
    split; [reflexivity|]. split.
    + rewrite (readFile_file w3 t path Ht3 Hne _ _ _ _ _ _ Hrow3 Hp
                 (sha256_wellFormed content) Hblob3). reflexivity.
    + eexists. unfold rowAt. rewrite Ht3. split; [exact Hrow3 | reflexivity].
Qed.

Lemma rootWorld_invariant t : StoreInvariant (rootWorld t).
Proof.
  split.
  - intros tenant path row H. cbn [fs_nodes rootWorld] in H.
    apply lookup_singleton_Some in H as [[= <- <-] <-]. split; reflexivity.
  - intros tenant path h sz m c md H. cbn [fs_nodes rootWorld] in H.
    apply lookup_singleton_Some in H as [_ [=]].
  - intros tenant path h sz m c md H. cbn [fs_nodes rootWorld] in H.
    apply lookup_singleton_Some in H as [_ [=]].
  - intros h. unfold refCount. cbn [blobs rootWorld]. rewrite lookup_empty. reflexivity.
Defined.

(** The first scenario of the specification: under tenant [T1], whose root
    exists, ["Hello World"] written at [/hello.txt] is read back, and the
    stored hash is the expected digest. *)
Lemma writeFile_readFile_roundtrip_witness :
  let w := rootWorld "T1" in
  let content := Buffer_from "Hello World" in
  let o := writeFile noMime "/hello.txt" content w in
  (StoreInvariant w /\ TenantIs w "T1" /\ NoCollision w content
   /\ validPath "/hello.txt" = true
   /\ is_Some (fs_nodes w !! ("T1", parentPath "/hello.txt"))
   /\ (forall c m, fs_nodes w !! ("T1", "/hello.txt") <> Some (DirectoryRow c m)))
  /\ (result o = Ok tt
      /\ result (readFile "/hello.txt" (final o)) = Ok content
      /\ exists row, rowAt (final o) "/hello.txt" = Some row
                     /\ Row_hash row = Some (sha256 content))
  /\ sha256 content = "a591a6d40bf420404a011733cfb7b190d62c65bf0bcda32b57b277d9ad9f146e".
Proof.
  intros w content o.
  assert (H1 : StoreInvariant w) by apply rootWorld_invariant.
  assert (H2 : TenantIs w "T1") by (split; [reflexivity | discriminate]).
  assert (H3 : NoCollision w content) by (intros c' H; vm_compute in H; discriminate).
  assert (H4 : validPath "/hello.txt" = true) by reflexivity.
  assert (H5 : is_Some (fs_nodes w !! ("T1", parentPath "/hello.txt")))
    by (eexists; vm_compute; reflexivity).
  assert (H6 : forall c m, fs_nodes w !! ("T1", "/hello.txt") <> Some (DirectoryRow c m))
    by (intros c m H; vm_compute in H; discriminate).
  split; [exact (conj H1 (conj H2 (conj H3 (conj H4 (conj H5 H6)))))|]. split.
  - exact (writeFile_readFile_roundtrip noMime w "T1" "/hello.txt" content H1 H2 H3 H4 H5 H6).
  - vm_compute. reflexivity.
Defined.

(** C1 as stated fails when the valid path, whose parent exists, names a
    directory: [writeFile] is refused and [readFile] returns nothing. *)
Lemma writeFile_readFile_roundtrip_counterexample :
  let w := set_fs_nodes (<[("T1", "/d") := DirectoryRow 0 0]> (fs_nodes (rootWorld "T1")))
             (rootWorld "T1") in
  let content := Buffer_from "Hello World" in
  let o := writeFile noMime "/d" content w in
  validPath "/d" = true
  /\ fs_nodes w !! ("T1", parentPath "/d") = Some (DirectoryRow 0 0)
  /\ result o = Throw (FileAlreadyExistsError "Path is a directory: /d")
  /\ result (readFile "/d" (final o)) <> Ok content.
Proof.
  intros w content o. split; [reflexivity|]. split; [vm_compute; reflexivity|].
  split; [vm_compute; reflexivity|]. vm_compute. discriminate.
Qed.

(** ** C8: writing the content a file already has *)

Lemma withBlob_present content w :
  is_Some (blobDir w !! sha256 content) -> withBlob content w = w.
Proof. intros H. unfold withBlob. rewrite bool_decide_eq_true_2 by exact H. reflexivity. Qed.

Lemma blobCallsOfWrite_present content w :
  is_Some (blobDir w !! sha256 content) ->
  blobCallsOfWrite content w = [BlobExists (sha256 content)].
Proof.
  intros H. unfold blobCallsOfWrite. rewrite bool_decide_eq_true_2 by exact H. reflexivity.
Qed.

Lemma withBlob_is_Some content w :
  is_Some (blobDir (withBlob content w) !! sha256 content).
Proof.
  rewrite withBlob_blobDir.
  destruct (bool_decide_reflect (is_Some (blobDir w !! sha256 content))) as [H|H].
  - exact H.
  - rewrite lookup_insert_eq. eexists; reflexivity.
Qed.

(** An increment followed by a decrement of the same hash leaves every
    count as it was. *)
Lemma increment_decrement_refCount now table h h' :
  match tableAfterDecrement now (tableAfterIncrement now table h) h !! h' with
  | Some b => reference_count b
  | None => 0
  end
  = match table !! h' with Some b => reference_count b | None => 0 end.
Proof.
  unfold tableAfterDecrement, tableAfterIncrement.
  rewrite lookup_insert_eq.
  destruct (decide (h = h')) as [<-|Hne].
  - rewrite lookup_insert_eq. destruct (table !! h) as [b|]; simpl; lia.
  - rewrite !lookup_insert_ne by exact Hne. reflexivity.
Qed.

Lemma countAfterDecrement_increment now table h :
  countAfterDecrement (tableAfterIncrement now table h) h
  = match table !! h with Some b => reference_count b | None => 0 end.
Proof.
  unfold countAfterDecrement, tableAfterIncrement. rewrite lookup_insert_eq.
  destruct (table !! h) as [b|]; simpl; lia.
Qed.

(** The exact run of [writeFile] on the content the file already has, the
    blob being in the directory and referenced at least once. *)
Lemma writeFile_same_run mime w t path content sz mimeType created modified :
  currentTenantId w = Some t -> t <> EmptyString -> validPath path = true ->
  fs_nodes w !! (t, path) = Some (FileRow (sha256 content) sz mimeType created modified) ->
  is_Some (blobDir w !! sha256 content) ->
  1 <= refCount w (sha256 content) < PostgresRepository.INT_MAX ->
  writeFile mime path content w
  = {| result := Ok tt;
       final :=
         set_blobs (tableAfterDecrement (clock w)
                      (tableAfterIncrement (clock w) (blobs w) (sha256 content))
                      (sha256 content))
           (set_fs_nodes
              (<[(t, path) := FileRow (sha256 content) (Buffer_length content)
                                mimeType created (clock w)]> (fs_nodes w)) w);
       calls := [BlobExists (sha256 content); GetNodeByPath path; UpdateNode path;
                 IncrementBlobRefCount (sha256 content);
                 DecrementBlobRefCount (sha256 content)] |}.
Proof.
  intros Ht Hne Hp Hrow Hblob [Hge Hlt].
  pose proof (update_decrement_safe w (sha256 content) (sha256 content) Hge) as Hsafe.
  pose proof (writeFile_update mime w t path content Ht Hne Hp _ sz mimeType created modified
                Hrow (sha256_wellFormed content) Hlt (fun b Hb => proj1 (Hsafe b Hb))) as Hrun.
  cbv zeta in Hrun. rewrite Hrun. clear Hrun.
  rewrite countAfterDecrement_increment. fold (refCount w (sha256 content)).
  unfold dropIfUnreferenced.
  destruct (Z.eqb_spec (refCount w (sha256 content)) 0) as [Hz|_]; [lia|].
  rewrite (withBlob_present _ _ Hblob), (blobCallsOfWrite_present _ _ Hblob).
  reflexivity.
Qed.

(** C8 (as amended).  When [writeFile(p, B)] finds at [p] a file whose hash
    is already the SHA-256 of [B], it makes no blob write and no blob delete;
    it rewrites the row with the same hash and a new [modifiedAt], and it
    does call [incrementBlobRefCount] and then [decrementBlobRefCount] on
    that hash, which leaves every reference count as it was.  Consequently
    writing [B] twice at a fresh path leaves one file row there, the count
    of its hash one above what it was (1 for content no file referenced
    before), [modifiedAt] set by the second call, and the blob directory as
    the first call left it. *)
Theorem writeFile_same_content (mime : string -> option string) :
  (forall (w : World) (t path : string) (content : Buffer) sz mimeType created modified,
      StoreInvariant w -> TenantIs w t ->
      fs_nodes w !! (t, path)
        = Some (FileRow (sha256 content) sz mimeType created modified) ->
      let o := writeFile mime path content w in
      result o = Ok tt
      /\ calls o = [BlobExists (sha256 content); GetNodeByPath path; UpdateNode path;
                    IncrementBlobRefCount (sha256 content);
                    DecrementBlobRefCount (sha256 content)]
      /\ fs_nodes (final o)
         = <[(t, path) := FileRow (sha256 content) (Buffer_length content)
                            mimeType created (clock w)]> (fs_nodes w)
      /\ (forall h, refCount (final o) h = refCount w h)
      /\ blobDir (final o) = blobDir w)
  /\ (forall (w : World) (t path : string) (content : Buffer) (later : Z),
      StoreInvariant w -> TenantIs w t -> validPath path = true ->
      is_Some (fs_nodes w !! (t, parentPath path)) ->
      fs_nodes w !! (t, path) = None ->
      refCount w (sha256 content) = 0 ->
      let o1 := writeFile mime path content w in
      let o2 := writeFile mime path content (set_clock later (final o1)) in
      result o1 = Ok tt /\ result o2 = Ok tt
      /\ Forall (fun c => isBlobWrite c = false) (calls o2)
      /\ fs_nodes (final o2)
         = <[(t, path) := FileRow (sha256 content) (Buffer_length content)
                            (default "application/octet-stream" (mime path))
                            (clock w) later]> (fs_nodes w)
      /\ refCount (final o2) (sha256 content) = 1
      /\ blobDir (final o2) = blobDir (final o1)).
Proof.
  split.
  - intros w t path content sz mimeType created modified Hinv [Ht Hne] Hrow o.
    destruct (inv_rows w Hinv _ _ _ Hrow) as [Hp _].
    pose proof (inv_integrity w Hinv _ _ _ _ _ _ _ Hrow) as Hge.
    pose proof (inv_blob w Hinv _ _ _ _ _ _ _ Hrow) as Hblob.
    subst o.
    rewrite (writeFile_same_run mime w t path content sz mimeType created modified
               Ht Hne Hp Hrow Hblob (conj Hge (inv_bound w Hinv _))).
    cbn [result calls final fs_nodes blobs blobDir set_blobs set_fs_nodes].
    repeat split. intros h. unfold refCount. cbn [blobs set_blobs].
    apply increment_decrement_refCount.
  - intros w t path content later Hinv [Ht Hne] Hp [parentRow Hparent] Hnone Hzero o1 o2.
    destruct (inv_rows w Hinv _ _ _ Hparent) as [Hpp Hpr].
    pose proof (writeFile_new mime w t path content Ht Hne Hp parentRow
                  Hnone Hparent Hpp Hpr (inv_bound w Hinv _)) as Hrun1.
    assert (Hcount : refCount (final o1) (sha256 content) = 1).
    { subst o1. rewrite Hrun1. unfold refCount, tableAfterIncrement.
      cbn [final blobs set_blobs]. rewrite lookup_insert_eq.
      unfold refCount in Hzero. destruct (blobs w !! sha256 content); simpl; lia. }
    assert (Hrun2 : o2 = writeFile mime path content (set_clock later (final o1)))
      by reflexivity.
    rewrite (writeFile_same_run mime (set_clock later (final o1)) t path content
               (Buffer_length content)
               (default "application/octet-stream" (mime path)) (clock w) (clock w))
      in Hrun2.
    + rewrite Hrun2. subst o1. rewrite Hrun1.
      cbn [result calls final fs_nodes blobs blobDir clock set_clock set_blobs set_fs_nodes].
      split; [reflexivity|]. split; [reflexivity|]. split; [repeat constructor|].
      split; [apply insert_insert_eq|]. split; [|reflexivity].
      unfold tableAfterDecrement, tableAfterIncrement.
      rewrite !lookup_insert_eq. unfold refCount. cbn [blobs set_blobs].
      rewrite lookup_insert_eq. cbn [decremented reference_count].
      unfold refCount in Hzero. destruct (blobs w !! sha256 content); simpl; lia.
    + subst o1. rewrite Hrun1. cbn [final currentTenantId set_clock set_blobs set_fs_nodes].
      rewrite withBlob_tenant. exact Ht.
    + exact Hne.
    + exact Hp.
    + subst o1. rewrite Hrun1. cbn [final fs_nodes set_clock set_blobs set_fs_nodes].
      apply lookup_insert_eq.
    + subst o1. rewrite Hrun1. cbn [final blobDir set_clock set_blobs set_fs_nodes].
      apply withBlob_is_Some.
    + change (refCount (set_clock later (final o1)) (sha256 content))
        with (refCount (final o1) (sha256 content)).
      rewrite Hcount. split; [lia | reflexivity].
Qed.

Lemma storeOk_sound w : storeOk w = true -> StoreInvariant w.
Proof.
  unfold storeOk. intros H. apply andb_prop in H as [Hrows Hblobs].
  rewrite forallb_forall in Hrows. rewrite forallb_forall in Hblobs.
  assert (Hrow : forall tenant path row,
             fs_nodes w !! (tenant, path) = Some row ->
             rowOk w ((tenant, path), row) = true).
  { intros tenant path row E. apply Hrows. apply list_elem_of_In.
    apply elem_of_map_to_list. exact E. }
  split.
  - intros tenant path row E. specialize (Hrow _ _ _ E). unfold rowOk in Hrow.
    apply andb_prop in Hrow as [Hrow _]. apply andb_prop in Hrow as [H1 H2].
    split; assumption.
  - intros tenant path h sz m c md E. specialize (Hrow _ _ _ E). unfold rowOk in Hrow.
    apply andb_prop in Hrow as [_ Hrow]. cbn in Hrow.
    apply andb_prop in Hrow as [H1 _]. apply Z.leb_le in H1. exact H1.
  - intros tenant path h sz m c md E. specialize (Hrow _ _ _ E). unfold rowOk in Hrow.
    apply andb_prop in Hrow as [_ Hrow]. cbn in Hrow.
    apply andb_prop in Hrow as [_ H2]. apply bool_decide_eq_true in H2. exact H2.
  - intros h. unfold refCount. destruct (blobs w !! h) as [b|] eqn:E; [|reflexivity].
    assert (Hin : In (h, b) (map_to_list (blobs w))).
    { apply list_elem_of_In. apply elem_of_map_to_list. exact E. }
    specialize (Hblobs _ Hin). cbn in Hblobs. apply Z.ltb_lt in Hblobs. exact Hblobs.
Defined.

(** C8 as stated fails: writing again the content a file already has calls
    both [incrementBlobRefCount] and [decrementBlobRefCount]. *)
Lemma writeFile_same_content_counterexample :
  let content := Buffer_from "x" in
  let o := writeFile noMime "/a" content oneFileWorld in
  (exists sz m c md, rowAt oneFileWorld "/a" = Some (FileRow (sha256 content) sz m c md))
  /\ result o = Ok tt
  /\ In (IncrementBlobRefCount (sha256 content)) (calls o)
  /\ In (DecrementBlobRefCount (sha256 content)) (calls o).
Proof.
  intros content o. split.
  - do 4 eexists. vm_compute. reflexivity.
  - split; [vm_compute; reflexivity|].
    assert (E : calls o
                = [BlobExists (sha256 content); GetNodeByPath "/a"; UpdateNode "/a";
                   IncrementBlobRefCount (sha256 content);
                   DecrementBlobRefCount (sha256 content)])
      by (vm_compute; reflexivity).
    rewrite E. split; simpl; tauto.
Qed.

(** The theorem at [/a] in [oneFileWorld], written again with the same
    byte. *)
Lemma writeFile_same_content_witness :
  let content := Buffer_from "x" in
  let o := writeFile noMime "/a" content oneFileWorld in
  (StoreInvariant oneFileWorld /\ TenantIs oneFileWorld "T1"
   /\ fs_nodes oneFileWorld !! ("T1", "/a")
      = Some (FileRow (sha256 content) 1 "application/octet-stream" 0 0))
  /\ result o = Ok tt
  /\ calls o = [BlobExists (sha256 content); GetNodeByPath "/a"; UpdateNode "/a";
                IncrementBlobRefCount (sha256 content);
                DecrementBlobRefCount (sha256 content)]
  /\ fs_nodes (final o)
     = <[("T1", "/a") := FileRow (sha256 content) (Buffer_length content)
                           "application/octet-stream" 0 (clock oneFileWorld)]>
         (fs_nodes oneFileWorld)
  /\ (forall h, refCount (final o) h = refCount oneFileWorld h)
  /\ blobDir (final o) = blobDir oneFileWorld.
Proof.
  intros content o.
  assert (H1 : StoreInvariant oneFileWorld)
    by (apply storeOk_sound; vm_compute; reflexivity).
  assert (H2 : TenantIs oneFileWorld "T1") by (split; [reflexivity | discriminate]).
  assert (H3 : fs_nodes oneFileWorld !! ("T1", "/a")
               = Some (FileRow (sha256 content) 1 "application/octet-stream" 0 0))
    by (vm_compute; reflexivity).
  split; [exact (conj H1 (conj H2 H3))|].
  exact (proj1 (writeFile_same_content noMime) oneFileWorld "T1" "/a" content
           1 "application/octet-stream" 0 0 H1 H2 H3).
Defined.

(** ** C2: what [copyFile] does to the two stores *)

(** C2 (as amended).  For every existing source file whose blob is in the
    directory under its hash, and every valid, absent destination whose
    parent exists, [copyFile] reads the source blob and asks the blob
    directory whether the hash exists, and makes no blob write and no blob
    delete; it creates at the destination a file row with the hash of the
    source, the length of the source's content as size and the media type
    of the destination path, and it increments the reference count of the
    hash by one. *)
Theorem copyFile_effects (mime : string -> option string) (w : World)
    (t source destination h : string) (sz : Z) (mt : string) (cr md : Z)
    (content : Buffer) :
  StoreInvariant w -> TenantIs w t ->
  fs_nodes w !! (t, source) = Some (FileRow h sz mt cr md) ->
  blobDir w !! h = Some content -> sha256 content = h ->
  validPath destination = true ->
  fs_nodes w !! (t, destination) = None ->
  is_Some (fs_nodes w !! (t, parentPath destination)) ->
  let o := copyFile mime source destination w in
  result o = Ok tt
  /\ calls o = [GetNodeByPath source; BlobRead h; BlobExists h;
                GetNodeByPath destination; GetNodeByPath (parentPath destination);
                CreateNode destination; IncrementBlobRefCount h]
  /\ fs_nodes (final o)
     = <[(t, destination) := FileRow h (Buffer_length content)
                               (default "application/octet-stream" (mime destination))
                               (clock w) (clock w)]> (fs_nodes w)
  /\ refCount (final o) h = refCount w h + 1
  /\ blobDir (final o) = blobDir w.
Proof.
  intros Hinv [Ht Hne] Hsrc Hblob Hhash Hp Hnone [parentRow Hparent] o.
  destruct (inv_rows w Hinv _ _ _ Hsrc) as [Hps Hwf]. simpl in Hwf.
  destruct (inv_rows w Hinv _ _ _ Hparent) as [Hpp Hpr].
  assert (Hpresent : is_Some (blobDir w !! sha256 content))
    by (rewrite Hhash, Hblob; eexists; reflexivity).
  subst o. unfold copyFile.
  run_by (readFile_file w t source Ht Hne h sz mt cr md content Hsrc Hps Hwf Hblob).
  rewrite (writeFile_new mime w t destination content Ht Hne Hp parentRow
             Hnone Hparent Hpp Hpr (inv_bound w Hinv _)).
  rewrite (withBlob_present _ _ Hpresent), (blobCallsOfWrite_present _ _ Hpresent).
  rewrite Hhash. run_done.
  cbn [fs_nodes blobs blobDir set_blobs set_fs_nodes].
  repeat split. unfold refCount, tableAfterIncrement. cbn [blobs set_blobs].
  rewrite lookup_insert_eq. destruct (blobs w !! h); simpl; lia.
Qed.

(** The fourth scenario of the specification: after [writeFile("/a", B)],
    [copyFile("/a", "/b")] leaves two rows with the same hash and a count of
    2, and the two runs together wrote one blob. *)
Lemma copyFile_effects_witness :
  let content := Buffer_from "x" in
  let w := oneFileWorld in
  let o := copyFile noMime "/a" "/b" w in
  (StoreInvariant w /\ TenantIs w "T1"
   /\ fs_nodes w !! ("T1", "/a")
      = Some (FileRow (sha256 content) 1 "application/octet-stream" 0 0)
   /\ blobDir w !! sha256 content = Some content
   /\ validPath "/b" = true
   /\ fs_nodes w !! ("T1", "/b") = None
   /\ is_Some (fs_nodes w !! ("T1", parentPath "/b")))
  /\ (result o = Ok tt
      /\ calls o = [GetNodeByPath "/a"; BlobRead (sha256 content);
                    BlobExists (sha256 content); GetNodeByPath "/b";
                    GetNodeByPath (parentPath "/b"); CreateNode "/b";
                    IncrementBlobRefCount (sha256 content)]
      /\ fs_nodes (final o)
         = <[("T1", "/b") := FileRow (sha256 content) (Buffer_length content)
                               (default "application/octet-stream" (noMime "/b"))
                               (clock w) (clock w)]> (fs_nodes w)
      /\ refCount (final o) (sha256 content) = refCount w (sha256 content) + 1
      /\ blobDir (final o) = blobDir w)
  /\ refCount (final o) (sha256 content) = 2
  /\ countCalls isBlobWrite
       (calls (writeFile noMime "/a" content (rootWorld "T1")) ++ calls o) = 1%nat.
Proof.
  intros content w o.
  assert (H1 : StoreInvariant w) by (apply storeOk_sound; vm_compute; reflexivity).
  assert (H2 : TenantIs w "T1") by (split; [reflexivity | discriminate]).
  assert (H3 : fs_nodes w !! ("T1", "/a")
               = Some (FileRow (sha256 content) 1 "application/octet-stream" 0 0))
    by (vm_compute; reflexivity).
  assert (H4 : blobDir w !! sha256 content = Some content) by (vm_compute; reflexivity).
  assert (H5 : validPath "/b" = true) by reflexivity.
  assert (H6 : fs_nodes w !! ("T1", "/b") = None) by (vm_compute; reflexivity).
  assert (H7 : is_Some (fs_nodes w !! ("T1", parentPath "/b")))
    by (eexists; vm_compute; reflexivity).
  split; [exact (conj H1 (conj H2 (conj H3 (conj H4 (conj H5 (conj H6 H7))))))|].
  split.
  - exact (copyFile_effects noMime w "T1" "/a" "/b" (sha256 content) 1
             "application/octet-stream" 0 0 content H1 H2 H3 H4 eq_refl H5 H6 H7).
  - split; vm_compute; reflexivity.
Defined.

(** C2 as stated fails: [copyFile] reads the source blob and probes the
    blob directory; and, for a lookup that knows [.txt] and [.png], the copy
    of a text file under a [.png] name does not keep the media type. *)
Lemma copyFile_effects_counterexample :
  let content := Buffer_from "x" in
  let o := copyFile noMime "/a" "/b" oneFileWorld in
  let w1 := final (writeFile sampleMime "/a.txt" content (rootWorld "T1")) in
  let o1 := copyFile sampleMime "/a.txt" "/b.png" w1 in
  result o = Ok tt
  /\ In (BlobRead (sha256 content)) (calls o)
  /\ In (BlobExists (sha256 content)) (calls o)
  /\ result o1 = Ok tt
  /\ rowAt (final o1) "/a.txt" = Some (FileRow (sha256 content) 1 "text/plain" 0 0)
  /\ rowAt (final o1) "/b.png" = Some (FileRow (sha256 content) 1 "image/png" 0 0).
Proof.
  intros content o w1 o1.
  assert (E : calls o
              = [GetNodeByPath "/a"; BlobRead (sha256 content);
                 BlobExists (sha256 content); GetNodeByPath "/b"; GetNodeByPath "/";
                 CreateNode "/b"; IncrementBlobRefCount (sha256 content)])
    by (vm_compute; reflexivity).
  rewrite E. split; [vm_compute; reflexivity|].
  split; [simpl; tauto|]. split; [simpl; tauto|].
  repeat split; vm_compute; reflexivity.
Qed.

(** ** C3: copying or moving onto an existing node *)

Lemma deleteFile_file w t path h sz mt cr md :
  currentTenantId w = Some t -> t <> EmptyString ->
  fs_nodes w !! (t, path) = Some (FileRow h sz mt cr md) ->
  validPath path = true -> ContentHash.wellFormed h = true ->
  (forall b, blobs w !! h = Some b -> 1 <= reference_count b) ->
  deleteFile path w
  = {| result := Ok tt;
       final := dropIfUnreferenced (countAfterDecrement (blobs w) h) h
                  (set_blobs (tableAfterDecrement (clock w) (blobs w) h)
                     (set_fs_nodes (delete (t, path) (fs_nodes w)) w));
       calls := [GetNodeByPath path; DeleteNode path; DecrementBlobRefCount h]
                ++ (if countAfterDecrement (blobs w) h =? 0 then [BlobDelete h] else []) |}.
Proof.
  intros Ht Hne Hrow Hp Hwf Hge. unfold deleteFile.
  run_by (getNodeByPath_some w t Ht Hne _ _ Hrow Hp Hwf).
  cbn [nodeFor FileNode.contentHash ContentHash.toString ContentHash.value].
  run_by (deleteNode_run w t Ht Hne path). cbv zeta.
  erewrite bind_run; cycle 1.
  { apply decrementBlobRefCount_run. exact Hge. }
  cbv beta. rewrite dropIfUnreferenced_run. run_done.
Qed.

(** C3 (as amended).  When a directory is stored at the destination,
    [copyFile] and [moveFile] fail with a Conflict and leave every node as
    it was.  When a file is stored at the destination, the destination is
    overwritten: both succeed, the destination row takes the hash of the
    source, and [moveFile] then removes the source row. *)
Theorem copy_move_onto_existing (mime : string -> option string) (w : World)
    (t source destination h : string) (sz : Z) (mt : string) (cr md : Z)
    (content : Buffer) :
  StoreInvariant w -> TenantIs w t ->
  fs_nodes w !! (t, source) = Some (FileRow h sz mt cr md) ->
  blobDir w !! h = Some content -> sha256 content = h ->
  source <> destination ->
  let copy := copyFile mime source destination w in
  let move := moveFile mime source destination w in
  (forall c m, fs_nodes w !! (t, destination) = Some (DirectoryRow c m) ->
     (exists e, result copy = Throw e /\ kindOf e = Conflict)
     /\ fs_nodes (final copy) = fs_nodes w
     /\ (exists e, result move = Throw e /\ kindOf e = Conflict)
     /\ fs_nodes (final move) = fs_nodes w)
  /\ (forall h' sz' mt' cr' md',
        fs_nodes w !! (t, destination) = Some (FileRow h' sz' mt' cr' md') ->
        result copy = Ok tt
        /\ fs_nodes (final copy) !! (t, destination)
           = Some (FileRow h (Buffer_length content) mt' cr' (clock w))
        /\ result move = Ok tt
        /\ fs_nodes (final move) !! (t, destination)
           = Some (FileRow h (Buffer_length content) mt' cr' (clock w))
        /\ fs_nodes (final move) !! (t, source) = None).
Proof.
  intros Hinv [Ht Hne] Hsrc Hblob Hhash Hdiff copy move.
  destruct (inv_rows w Hinv _ _ _ Hsrc) as [Hps Hwf]. simpl in Hwf.
  assert (Hpresent : is_Some (blobDir w !! sha256 content))
    by (rewrite Hhash, Hblob; eexists; reflexivity).
  pose proof (readFile_file w t source Ht Hne h sz mt cr md content Hsrc Hps Hwf Hblob)
    as Hread.
  split.
  - intros c m Hdst.
    destruct (inv_rows w Hinv _ _ _ Hdst) as [Hpd _].
    assert (Hcopy : copy
                    = {| result := Throw (FileAlreadyExistsError
                                            ("Path is a directory: " +:+ destination));
                         final := w;
                         calls := [GetNodeByPath source; BlobRead h; BlobExists h;
                                   GetNodeByPath destination] |}).
    { subst copy. unfold copyFile. run_by Hread.
      rewrite (writeFile_directory mime w t destination content Ht Hne Hpd c m Hdst).
      rewrite (withBlob_present _ _ Hpresent), (blobCallsOfWrite_present _ _ Hpresent).
      rewrite Hhash. run_done. }
    assert (Hmove : move = copy).
    { subst move. unfold moveFile. fold copy. rewrite Hcopy.
      apply (bind_stop _ _ w). exact Hcopy. }
    rewrite Hmove, Hcopy. cbn [result final].
    repeat split; eexists; split; reflexivity.
  - intros h' sz' mt' cr' md' Hdst.
    destruct (inv_rows w Hinv _ _ _ Hdst) as [Hpd Hwfd]. simpl in Hwfd.
    pose proof (inv_integrity w Hinv _ _ _ _ _ _ _ Hdst) as Hold.
    pose proof (inv_integrity w Hinv _ _ _ _ _ _ _ Hsrc) as Hsrc1.
    pose proof (update_decrement_safe w (sha256 content) h' Hold) as Hsafe.
    pose proof (writeFile_update mime w t destination content Ht Hne Hpd h' sz' mt' cr' md'
                  Hdst Hwfd (inv_bound w Hinv _) (fun b Hb => proj1 (Hsafe b Hb))) as Hwrite.
    cbv zeta in Hwrite.
    rewrite (withBlob_present _ _ Hpresent), (blobCallsOfWrite_present _ _ Hpresent) in Hwrite.
    rewrite Hhash in Hwrite, Hsafe.
    set (table := tableAfterIncrement (clock w) (blobs w) h) in *.
    set (count := countAfterDecrement table h') in *.
    set (w2 := dropIfUnreferenced count h' _) in Hwrite.
    assert (Hcopy : copy = after [GetNodeByPath source; BlobRead h]
                             (writeFile mime destination content w)).
    { subst copy. unfold copyFile. run_by Hread. reflexivity. }
    rewrite Hwrite in Hcopy.
    assert (Hnodes2 : fs_nodes w2
                      = <[(t, destination) := FileRow h (Buffer_length content) mt' cr'
                                                (clock w)]> (fs_nodes w)).
    { unfold w2. rewrite dropIfUnreferenced_fs_nodes. reflexivity. }
    assert (Ht2 : currentTenantId w2 = Some t).
    { unfold w2. rewrite dropIfUnreferenced_tenant. exact Ht. }
    assert (Hsrc2 : fs_nodes w2 !! (t, source) = Some (FileRow h sz mt cr md)).
    { rewrite Hnodes2, lookup_insert_ne by congruence. exact Hsrc. }
    assert (Hge2 : forall b, blobs w2 !! h = Some b -> 1 <= reference_count b).
    { intros b. unfold w2. rewrite dropIfUnreferenced_blobs. cbn [blobs set_blobs].
      unfold tableAfterDecrement.
      unfold refCount in Hsrc1.
      destruct (table !! h') as [b'|] eqn:Hb'.
      - destruct (decide (h' = h)) as [->|Hneq].
        + rewrite lookup_insert_eq. intros [= <-]. cbn [decremented reference_count].
          destruct (Hsafe b' eq_refl) as [_ H2]. specialize (H2 eq_refl). lia.
        + rewrite lookup_insert_ne by exact Hneq. unfold table, tableAfterIncrement.
          rewrite lookup_insert_eq. intros [= <-].
          destruct (blobs w !! h); simpl in *; lia.
      - unfold table, tableAfterIncrement. rewrite lookup_insert_eq. intros [= <-].
        destruct (blobs w !! h); simpl in *; lia. }
    pose proof (deleteFile_file w2 t source h sz mt cr md Ht2 Hne Hsrc2 Hps Hwf Hge2)
      as Hdelete.
    assert (Hmove : move = after (calls copy) (deleteFile source w2)).
    { subst move. unfold moveFile. unfold after in Hcopy.
      cbn [result final calls] in Hcopy.
      rewrite (bind_run (copyFile mime source destination) _ w _ _ _ Hcopy).
      rewrite Hcopy. reflexivity. }
    rewrite Hmove, Hdelete, Hcopy. cbn [after result final].
    rewrite dropIfUnreferenced_fs_nodes. cbn [fs_nodes set_blobs set_fs_nodes].
    rewrite Hnodes2.
    split; [reflexivity|]. split; [apply lookup_insert_eq|].
    split; [reflexivity|]. split.
    + rewrite lookup_delete_ne by congruence. apply lookup_insert_eq.
    + apply lookup_delete_eq.
Qed.

(** The theorem at [/a] copied or moved onto [/b] in [twoFileWorld]. *)
Lemma copy_move_onto_existing_witness :
  let w := twoFileWorld in
  let content := Buffer_from "x" in
  let copy := copyFile noMime "/a" "/b" w in
  let move := moveFile noMime "/a" "/b" w in
  (StoreInvariant w /\ TenantIs w "T1"
   /\ fs_nodes w !! ("T1", "/a")
      = Some (FileRow (sha256 content) 1 "application/octet-stream" 0 0)
   /\ blobDir w !! sha256 content = Some content
   /\ "/a" <> "/b")
  /\ (forall c m, fs_nodes w !! ("T1", "/b") = Some (DirectoryRow c m) ->
        (exists e, result copy = Throw e /\ kindOf e = Conflict)
        /\ fs_nodes (final copy) = fs_nodes w
        /\ (exists e, result move = Throw e /\ kindOf e = Conflict)
        /\ fs_nodes (final move) = fs_nodes w)
  /\ (forall h' sz' mt' cr' md',
        fs_nodes w !! ("T1", "/b") = Some (FileRow h' sz' mt' cr' md') ->
        result copy = Ok tt
        /\ fs_nodes (final copy) !! ("T1", "/b")
           = Some (FileRow (sha256 content) (Buffer_length content) mt' cr' (clock w))
        /\ result move = Ok tt
        /\ fs_nodes (final move) !! ("T1", "/b")
           = Some (FileRow (sha256 content) (Buffer_length content) mt' cr' (clock w))
        /\ fs_nodes (final move) !! ("T1", "/a") = None).
Proof.
  intros w content copy move.
  assert (H1 : StoreInvariant w) by (apply storeOk_sound; vm_compute; reflexivity).
  assert (H2 : TenantIs w "T1") by (split; [reflexivity | discriminate]).
  assert (H3 : fs_nodes w !! ("T1", "/a")
               = Some (FileRow (sha256 content) 1 "application/octet-stream" 0 0))
    by (vm_compute; reflexivity).
  assert (H4 : blobDir w !! sha256 content = Some content) by (vm_compute; reflexivity).
  assert (H5 : "/a" <> "/b") by discriminate.
  split; [exact (conj H1 (conj H2 (conj H3 (conj H4 H5))))|].
  exact (copy_move_onto_existing noMime w "T1" "/a" "/b" (sha256 content) 1
           "application/octet-stream" 0 0 content H1 H2 H3 H4 eq_refl H5).
Defined.

(** C3 as stated fails: copying or moving [/a] onto the existing file [/b]
    succeeds and replaces the hash stored at [/b]. *)
Lemma copy_move_onto_existing_counterexample :
  let w := twoFileWorld in
  let copy := copyFile noMime "/a" "/b" w in
  let move := moveFile noMime "/a" "/b" w in
  Row_hash <$> rowAt w "/a" = Some (Some (sha256 (Buffer_from "x")))
  /\ Row_hash <$> rowAt w "/b" = Some (Some (sha256 (Buffer_from "y")))
  /\ sha256 (Buffer_from "x") <> sha256 (Buffer_from "y")
  /\ result copy = Ok tt
  /\ Row_hash <$> rowAt (final copy) "/b" = Some (Some (sha256 (Buffer_from "x")))
  /\ result move = Ok tt
  /\ Row_hash <$> rowAt (final move) "/b" = Some (Some (sha256 (Buffer_from "x"))).
Proof.
  intros w copy move.
  split; [vm_compute; reflexivity|]. split; [vm_compute; reflexivity|].
  split; [vm_compute; discriminate|].
  repeat split; vm_compute; reflexivity.
Qed.

(** ** C9: the order of the calls inside [writeFile] *)

Lemma getNodeByPath_file_inv path w f :
  result (PostgresRepository.getNodeByPath path w) = Ok (Some (File f)) ->
  exists sz m c md,
    rowAt w path
    = Some (FileRow (ContentHash.toString (FileNode.contentHash f)) sz m c md).
Proof.
  unfold rowAt. unfold_stores. cbn [result final calls].
  destruct (currentTenantId w) as [[|a t]|]; cbn [result final calls]; try discriminate.
  destruct (fs_nodes w !! (String a t, path)) as [[h sz m c md|c md]|];
    cbn [result final calls]; try discriminate.
  - destruct (FilePath.create path); cbn [result final calls]; try discriminate.
    unfold ContentHash.fromString.
    destruct (negb (ContentHash.wellFormed h)); cbn [result final calls]; try discriminate.
    intros [= <-]. cbn. eauto.
  - destruct (FilePath.create path); cbn [result final calls]; discriminate.
Qed.

Ltac no_such_call H :=
  exfalso; apply list_elem_of_In in H; simpl in H; intuition discriminate.

(** The only decrement [writeFile] makes is of the hash stored at the
    path. *)
Lemma writeFile_decrements_old mime path content w old :
  DecrementBlobRefCount old ∈ calls (writeFile mime path content w) ->
  exists sz m c md, rowAt w path = Some (FileRow old sz m c md).
Proof.
  destruct (validPath path) eqn:Hp.
  - rewrite (writeFile_start mime path content w Hp). cbn [after calls].
    rewrite elem_of_app. intros [Hin|Hin].
    + unfold blobCallsOfWrite in Hin. destruct (bool_decide _) in Hin; no_such_call Hin.
    + rewrite bind_calls, getNodeByPath_calls in Hin.
      destruct (result (PostgresRepository.getNodeByPath path (withBlob content w)))
        as [[[f|d]|]|e] eqn:E.
      * apply getNodeByPath_file_inv in E as (sz & m & c & md & E).
        unfold rowAt in *. rewrite withBlob_tenant, withBlob_fs_nodes in E.
        revert Hin. cbv zeta. repeat trace_step.
        all: intros Hin; apply list_elem_of_In in Hin; simpl in Hin.
        all: try (exfalso; intuition discriminate).
        all: destruct Hin as [Hin|[Hin|[Hin|[Hin|Hin]]]]; try discriminate;
          try contradiction.
        all: try (injection Hin as <-; eauto).
        all: try (destruct Hin; try discriminate; try contradiction).
      * revert Hin. repeat trace_step. all: intros Hin; no_such_call Hin.
      * revert Hin. repeat trace_step. all: intros Hin; no_such_call Hin.
      * no_such_call Hin.
  - destruct (create_invalid path Hp) as (m & Hc & _).
    unfold writeFile. rewrite Hc.
    rewrite (bind_stop _ _ w w (PlainError m) []) by reflexivity.
    intros Hin. no_such_call Hin.
Qed.

(** C9.  In every run of [writeFile], whatever the state and whether or not
    the run ends in an error: a blob write is of the new content and comes
    before every metadata insertion, metadata update and reference-count
    increment; and every [decrementBlobRefCount] call is for the hash the
    file had before, made when that hash is replaced, and comes after the
    [incrementBlobRefCount] call for the hash of the new content. *)
Theorem writeFile_call_order (mime : string -> option string) (path : string)
    (content : Buffer) (w : World) :
  let tr := calls (writeFile mime path content w) in
  (forall i j h c,
      tr !! i = Some (BlobWrite h) -> tr !! j = Some c ->
      isMetadataWrite c = true -> h = sha256 content /\ (i < j)%nat)
  /\ (forall j old,
        tr !! j = Some (DecrementBlobRefCount old) ->
        (exists sz m c md, rowAt w path = Some (FileRow old sz m c md))
        /\ exists i, (i < j)%nat
                     /\ tr !! i = Some (IncrementBlobRefCount (sha256 content))).
Proof.
  intros tr.
  destruct (writeFile_calls_ordered mime path content w) as (Hw & Hi & Hn).
  fold tr in Hw, Hi, Hn. rewrite Forall_forall in Hn. split.
  - intros i j h c Hi' Hj Hc. split.
    + apply (Hn (BlobWrite h)). exact (list_elem_of_lookup_2 _ _ _ Hi').
    + destruct (writesFirst_sound tr false Hw i (BlobWrite h) Hi' eq_refl) as [_ Hlt].
      exact (Hlt j c Hj Hc).
  - intros j old Hj. split.
    { apply (writeFile_decrements_old mime path content w old).
      exact (list_elem_of_lookup_2 _ _ _ Hj). }
    destruct (incrementFirst_sound tr false Hi j _ Hj eq_refl)
      as [Hf | (i & c' & Hlt & Hi' & Hinc)]; [discriminate|].
    exists i. split; [exact Hlt|].
    destruct c'; try discriminate.
    assert (contentHash = sha256 content) as ->; [|exact Hi'].
    apply (Hn (IncrementBlobRefCount contentHash)).
    exact (list_elem_of_lookup_2 _ _ _ Hi').
Qed.

(** A run that replaces a hash does make the calls the order is about:
    [/b] of [twoFileWorld] rewritten with new content. *)
Example writeFile_replace_calls :
  let old := sha256 (Buffer_from "y") in
  let new := sha256 (Buffer_from "z") in
  calls (writeFile noMime "/b" (Buffer_from "z") twoFileWorld)
  = [BlobExists new; BlobWrite new; GetNodeByPath "/b"; UpdateNode "/b";
     IncrementBlobRefCount new; DecrementBlobRefCount old; BlobDelete old].
Proof. vm_compute. reflexivity. Qed.

(** ** C4: which operations validate their path *)

(** [createDirectory] and [writeFile] reject a path [FilePath.create]
    refuses before any store call. *)
Lemma validating_operations_reject mime path content w :
  validPath path = false ->
  (exists e, result (createDirectory path w) = Throw e /\ kindOf e = InvalidPath)
  /\ calls (createDirectory path w) = [] /\ final (createDirectory path w) = w
  /\ (exists e, result (writeFile mime path content w) = Throw e
                /\ kindOf e = InvalidPath)
  /\ calls (writeFile mime path content w) = []
  /\ final (writeFile mime path content w) = w.
Proof.
  intros Hp. destruct (create_invalid path Hp) as (m & Hc & Hk).
  unfold createDirectory, writeFile. rewrite Hc.
  rewrite !(bind_stop _ _ w w (PlainError m) []) by reflexivity.
  cbn [result final calls]. repeat split; eexists; split; try reflexivity; exact Hk.
Qed.

(** The other operations start with a call on the metadata store, whatever
    the path. *)
Lemma unvalidated_operations_call_first mime path other w :
  (exists rest, calls (readFile path w) = GetNodeByPath path :: rest)
  /\ (exists rest, calls (deleteFile path w) = GetNodeByPath path :: rest)
  /\ (exists rest, calls (deleteDirectory path w) = GetNodeByPath path :: rest)
  /\ (exists rest, calls (listDirectory path w) = GetNodeByPath path :: rest)
  /\ (exists rest, calls (getInfo path w) = GetNodeByPath path :: rest)
  /\ (exists rest, calls (copyFile mime path other w) = GetNodeByPath path :: rest)
  /\ (exists rest, calls (moveFile mime path other w) = GetNodeByPath path :: rest).
Proof.
  unfold moveFile, copyFile, readFile, deleteFile, deleteDirectory, listDirectory, getInfo.
  repeat split; rewrite ?bind_calls, getNodeByPath_calls; eexists; reflexivity.
Qed.

(** C4, at the failing input: [readFile], [deleteFile], [deleteDirectory],
    [listDirectory] and [getInfo] given the relative path
    [documents/file.txt], and [copyFile] and [moveFile] given it as source,
    do not fail with InvalidPath: each queries the metadata store with the
    path and reports NotFound. *)
Theorem unvalidated_path_reaches_store :
  let path := "documents/file.txt" in
  let w := rootWorld "T1" in
  validPath path = false
  /\ (exists e, FilePath.create path = Throw e /\ kindOf e = InvalidPath)
  /\ (result (readFile path w) = Throw (FileNotFoundError ("File not found: " +:+ path))
      /\ calls (readFile path w) = [GetNodeByPath path])
  /\ (result (deleteFile path w) = Throw (FileNotFoundError ("File not found: " +:+ path))
      /\ calls (deleteFile path w) = [GetNodeByPath path])
  /\ (result (deleteDirectory path w)
      = Throw (DirectoryNotFoundError ("Directory not found: " +:+ path))
      /\ calls (deleteDirectory path w) = [GetNodeByPath path])
  /\ (result (listDirectory path w)
      = Throw (DirectoryNotFoundError ("Directory not found: " +:+ path))
      /\ calls (listDirectory path w) = [GetNodeByPath path])
  /\ (result (getInfo path w) = Throw (FileNotFoundError ("Path not found: " +:+ path))
      /\ calls (getInfo path w) = [GetNodeByPath path])
  /\ (result (copyFile noMime path "/copy.txt" w)
      = Throw (FileNotFoundError ("File not found: " +:+ path))
      /\ calls (copyFile noMime path "/copy.txt" w) = [GetNodeByPath path])
  /\ (result (moveFile noMime path "/moved.txt" w)
      = Throw (FileNotFoundError ("File not found: " +:+ path))
      /\ calls (moveFile noMime path "/moved.txt" w) = [GetNodeByPath path])
  /\ kindOf (FileNotFoundError ("File not found: " +:+ path)) = NotFound
  /\ kindOf (DirectoryNotFoundError ("Directory not found: " +:+ path)) = NotFound.
Proof.
  intros path w. split; [reflexivity|].
  split; [eexists; split; reflexivity|].
  repeat split; vm_compute; reflexivity.
Qed.

(** ** C5: the parent of a new node *)

(** C5, at the failing input: once the file [/a] exists, [writeFile] creates
    [/a/b] and [createDirectory] creates [/a/c], although the node at their
    parent path [/a] is a file. *)
Theorem node_created_under_file :
  let w := oneFileWorld in
  let o1 := writeFile noMime "/a/b" (Buffer_from "y") w in
  let o2 := createDirectory "/a/c" w in
  isFileRow <$> rowAt w "/a" = Some true
  /\ parentPath "/a/b" = "/a" /\ parentPath "/a/c" = "/a"
  /\ result o1 = Ok tt
  /\ isFileRow <$> rowAt (final o1) "/a/b" = Some true
  /\ isFileRow <$> rowAt (final o1) (parentPath "/a/b") = Some true
  /\ result o2 = Ok tt
  /\ isDirectoryRow <$> rowAt (final o2) "/a/c" = Some true
  /\ isFileRow <$> rowAt (final o2) (parentPath "/a/c") = Some true.
Proof. intros w o1 o2. repeat split; vm_compute; reflexivity. Qed.

(** ** C10: the loop of [cleanupInBatches] *)

Lemma deleteEach_run hashes w :
  result (forEachM LocalBlobStorage.delete hashes w) = Ok tt
  /\ blobs (final (forEachM LocalBlobStorage.delete hashes w)) = blobs w.
Proof.
  unfold forEachM. rewrite bind_result, bind_final.
  assert (H : exists l, result (mapM LocalBlobStorage.delete hashes w) = Ok l
                        /\ blobs (final (mapM LocalBlobStorage.delete hashes w)) = blobs w).
  { revert w. induction hashes as [|h hashes IH]; intros w.
    - exists []. split; reflexivity.
    - cbn [mapM]. rewrite bind_result, bind_final, delete_run. cbn [result final].
      rewrite bind_result, bind_final.
      destruct (IH (set_blobDir (delete h (blobDir w)) w)) as (l & Hr & Hb).
      rewrite Hr. cbn [ret result final]. exists (tt :: l). split; [reflexivity|].
      rewrite Hb. reflexivity. }
  destruct H as (l & Hr & Hb). rewrite Hr. cbn [ret result final]. split; [reflexivity|exact Hb].
Qed.

(** One pass reports as many deletions as GET_ORPHAN_BLOBS returned hashes,
    and leaves the [blobs] table, hence the next answer of
    GET_ORPHAN_BLOBS, as it was. *)
Lemma deleteMany_run hashes w :
  result (LocalBlobStorage.deleteMany hashes w) = Ok tt
  /\ blobs (final (LocalBlobStorage.deleteMany hashes w)) = blobs w.
Proof.
  unfold LocalBlobStorage.deleteMany. rewrite bind_result, bind_final.
  cbn [enter result final]. apply deleteEach_run.
Qed.

Lemma getOrphanBlobs_run w :
  PostgresRepository.getOrphanBlobs w
  = {| result := Ok (PostgresRepository.selectOrphans (blobs w)); final := w;
       calls := [GetOrphanBlobs] |}.
Proof. reflexivity. Qed.

Lemma cleanup_run w :
  result (OrphanCleanupService.cleanup w) = Ok (orphanBatch w)
  /\ blobs (final (OrphanCleanupService.cleanup w)) = blobs w.
Proof.
  unfold OrphanCleanupService.cleanup, orphanBatch.
  run_by (getOrphanBlobs_run w). cbn [after result final].
  set (hs := PostgresRepository.selectOrphans (blobs w)).
  destruct (Z.eqb_spec (Z.of_nat (length hs)) 0) as [Hz|Hnz].
  - cbn [ret result final]. rewrite Hz. split; reflexivity.
  - rewrite bind_result, bind_final.
    destruct (deleteMany_run hs w) as [Hr Hb]. rewrite Hr. cbn [ret result final].
    split; [reflexivity | exact Hb].
Qed.

Lemma cleanupLoop_stuck fuel batchSize total w :
  batchSize <= orphanBatch w ->
  result (OrphanCleanupService.cleanupLoop fuel batchSize total w) = Ok None.
Proof.
  revert total w. induction fuel as [|fuel IH]; intros total w Hle; [reflexivity|].
  cbn [OrphanCleanupService.cleanupLoop]. rewrite bind_result.
  destruct (cleanup_run w) as [Hr Hb]. rewrite Hr.
  destruct (Z.ltb_spec (orphanBatch w) batchSize) as [Hlt|_]; [lia|].
  apply IH. unfold orphanBatch in *. rewrite Hb. exact Hle.
Qed.

(** When fewer hashes than the batch size are orphans, the loop stops after
    its first pass. *)
Lemma cleanupInBatches_stops fuel batchSize w :
  orphanBatch w < batchSize ->
  result (OrphanCleanupService.cleanupInBatches (S fuel) batchSize w)
  = Ok (Some (orphanBatch w)).
Proof.
  intros Hlt. unfold OrphanCleanupService.cleanupInBatches.
  cbn [OrphanCleanupService.cleanupLoop]. rewrite bind_result.
  destruct (cleanup_run w) as [Hr _]. rewrite Hr.
  destruct (Z.ltb_spec (orphanBatch w) batchSize) as [_|Hge]; [reflexivity | lia].
Qed.

(** C10, on the code: a pass deletes blobs from the directory but never
    removes or changes a row of [blobs], so GET_ORPHAN_BLOBS keeps returning
    the same hashes; as soon as it returns at least [batchSize] of them,
    [cleanupInBatches] never reaches its [break], however many passes it is
    given. *)
Theorem cleanupInBatches_never_stops (w : World) (batchSize : Z) (fuel : nat) :
  batchSize <= orphanBatch w ->
  result (OrphanCleanupService.cleanupInBatches fuel batchSize w) = Ok None.
Proof. intros Hle. apply cleanupLoop_stuck. exact Hle. Qed.

(** One orphan row and a batch size of 1: a thousand passes do not end the
    loop. *)
Lemma cleanupInBatches_never_stops_witness :
  1 <= orphanBatch orphanWorld
  /\ result (OrphanCleanupService.cleanupInBatches 1000 1 orphanWorld) = Ok None.
Proof.
  assert (H : 1 <= orphanBatch orphanWorld) by (vm_compute; discriminate).
  split; [exact H|].
  exact (cleanupInBatches_never_stops orphanWorld 1 1000 H).
Defined.

(** ** The rows [listChildren] selects *)

Lemma selectChildren_elem t pattern d depth rows path row :
  (path, row) ∈ PostgresRepository.selectChildren t pattern d depth rows
  <-> rows !! (t, path) = Some row
      /\ PostgresRepository.like pattern path = true
      /\ path <> d
      /\ PostgresRepository.slashes path = depth.
Proof.
  unfold PostgresRepository.selectChildren.
  rewrite merge_sort_Permutation, list_elem_of_omap. split.
  - intros ([[tenant p] r] & Hin & Hsel). apply elem_of_map_to_list in Hin.
    cbn in Hsel.
    destruct (String.eqb_spec tenant t) as [->|]; cbn in Hsel; [|discriminate].
    destruct (PostgresRepository.like pattern p) eqn:Hlike; cbn in Hsel; [|discriminate].
    destruct (String.eqb_spec p d) as [|Hne]; cbn in Hsel; [discriminate|].
    destruct (Z.eqb_spec (PostgresRepository.slashes p) depth) as [Hd|];
      cbn in Hsel; [|discriminate].
    injection Hsel as <- <-. repeat split; assumption.
  - intros (Hrow & Hlike & Hne & Hd). exists ((t, path), row). split.
    + apply elem_of_map_to_list. exact Hrow.
    + cbn. rewrite String.eqb_refl, Hlike. cbn.
      destruct (String.eqb_spec path d); [contradiction|]. cbn.
      rewrite (proj2 (Z.eqb_eq _ _) Hd). reflexivity.
Qed.

Lemma nodeOfRow_run w path row :
  validPath path = true -> rowReadable row = true ->
  PostgresRepository.nodeOfRow path row w
  = {| result := Ok (nodeFor path row); final := w; calls := [] |}.
Proof.
  intros Hp Hr. unfold PostgresRepository.nodeOfRow.
  rewrite (create_valid _ Hp). unfold bind, gets, lift, ret. cbn [result final calls].
  destruct row as [h sz mime c m | c m]; simpl in Hr.
  - rewrite (fromString_wellFormed _ Hr). reflexivity.
  - reflexivity.
Qed.

Lemma nodesOfRows_run w (prs : list (string * Row)) :
  (forall pr, pr ∈ prs -> validPath pr.1 = true /\ rowReadable pr.2 = true) ->
  mapM (fun pr : string * Row => PostgresRepository.nodeOfRow pr.1 pr.2) prs w
  = {| result := Ok (map (fun pr => nodeFor pr.1 pr.2) prs); final := w; calls := [] |}.
Proof.
  induction prs as [|pr prs IH]; intros Hall; [reflexivity|].
  cbn [mapM map].
  destruct (Hall pr) as [Hp Hr]; [left|].
  run_by (nodeOfRow_run w pr.1 pr.2 Hp Hr).
  rewrite (bind_run _ _ _ _ _ _ (IH (fun pr' H => Hall pr' (list_elem_of_further _ _ _ H)))).
  reflexivity.
Qed.


(** ** C7: deleting a directory *)




(** ** Strings: prefixes, slashes and parents *)

Lemma append_nil (b : string) : EmptyString +:+ b = b.
Proof. reflexivity. Qed.

Lemma append_cons (x : ascii) (a b : string) : String x a +:+ b = String x (a +:+ b).
Proof. reflexivity. Qed.

Lemma append_assoc (a b c : string) : (a +:+ b) +:+ c = a +:+ (b +:+ c).
Proof.
  induction a as [|x a IH]; rewrite ?append_nil, ?append_cons; [reflexivity|].
  f_equal. exact IH.
Qed.

Lemma append_length (a b : string) :
  String.length (a +:+ b) = (String.length a + String.length b)%nat.
Proof.
  induction a as [|x a IH]; rewrite ?append_nil, ?append_cons; [reflexivity|].
  cbn [String.length]. rewrite IH. reflexivity.
Qed.

Lemma prefix_append (p s : string) :
  String.prefix p s = true <-> exists rest, s = p +:+ rest.
Proof.
  revert s. induction p as [|c p IH]; intros s.
  - split; [intros _; exists s; reflexivity | intros _; destruct s; reflexivity].
  - destruct s as [|a s]; cbn [String.prefix].
    + split; [discriminate | intros [rest H]; rewrite append_cons in H; discriminate].
    + destruct (ascii_dec c a) as [->|Hne].
      * rewrite IH. split; intros [rest H]; exists rest.
        -- rewrite append_cons. f_equal. exact H.
        -- rewrite append_cons in H. congruence.
      * split; [discriminate | intros [rest H]; rewrite append_cons in H; congruence].
Qed.





Lemma countChar_nonneg s c : 0 <= Js.countChar s c.
Proof. induction s as [|x s IH]; cbn [Js.countChar]; [lia | destruct (Ascii.eqb x c); lia]. Qed.

Lemma lastIndexOf_lower s c : -1 <= Js.lastIndexOf s c.
Proof.
  induction s as [|x s IH]; cbn [Js.lastIndexOf]; [lia|].
  destruct (Z.leb_spec 0 (Js.lastIndexOf s c)); [lia|].
  destruct (Ascii.eqb x c); lia.
Qed.

Lemma lastIndexOf_absent s c : Js.countChar s c = 0 -> Js.lastIndexOf s c = -1.
Proof.
  induction s as [|x s IH]; cbn [Js.lastIndexOf Js.countChar]; [reflexivity|].
  pose proof (countChar_nonneg s c). intros H0.
  destruct (Ascii.eqb x c); [lia|]. rewrite IH by lia. reflexivity.
Qed.

(** The last occurrence splits a string in two, the second part free of the
    character. *)
Lemma lastIndexOf_split s c :
  0 <= Js.lastIndexOf s c ->
  exists a rest,
    s = a +:+ String c rest /\ Js.countChar rest c = 0
    /\ Js.lastIndexOf s c = Z.of_nat (String.length a).
Proof.
  induction s as [|x s IH]; cbn [Js.lastIndexOf]; [lia|].
  destruct (Z.leb_spec 0 (Js.lastIndexOf s c)) as [Hge|Hlt].
  - intros _. destruct (IH Hge) as (a & rest & -> & Hrest & Hidx).
    exists (String x a), rest. split; [reflexivity|]. split; [exact Hrest|].
    rewrite Hidx. cbn [String.length]. lia.
  - destruct (Ascii.eqb_spec x c) as [->|Hne]; [|lia]. intros _.
    exists EmptyString, s. split; [reflexivity|]. split; [|reflexivity].
    assert (Hcases : Js.countChar s c = 0 \/ 0 < Js.countChar s c)
      by (pose proof (countChar_nonneg s c); lia).
    destruct Hcases as [H0|Hpos]; [exact H0|]. exfalso.
    clear IH. revert Hlt Hpos. induction s as [|y s IHs]; cbn [Js.lastIndexOf Js.countChar]; [lia|].
    destruct (Z.leb_spec 0 (Js.lastIndexOf s c)); [lia|].
    destruct (Ascii.eqb y c); [lia|]. intros _ Hpos. apply IHs; lia.
Qed.

Lemma lastIndexOf_append a rest c :
  Js.countChar rest c = 0 ->
  Js.lastIndexOf (a +:+ String c rest) c = Z.of_nat (String.length a).
Proof.
  intros Hrest. induction a as [|x a IH].
  - rewrite append_nil. cbn [Js.lastIndexOf String.length].
    rewrite (lastIndexOf_absent _ _ Hrest). cbn. rewrite Ascii.eqb_refl. reflexivity.
  - rewrite append_cons. cbn [Js.lastIndexOf String.length]. rewrite IH.
    destruct (Z.leb_spec 0 (Z.of_nat (String.length a))); lia.
Qed.

Lemma substring_prefix a b :
  String.substring 0 (String.length a) (a +:+ b) = a.
Proof.
  induction a as [|x a IH]; rewrite ?append_nil, ?append_cons;
    cbn [String.length String.substring].
  - destruct b; reflexivity.
  - rewrite IH. reflexivity.
Qed.

Lemma js_substring_prefix a b :
  Js.substring (a +:+ b) 0 (Z.of_nat (String.length a)) = a.
Proof.
  unfold Js.substring. rewrite append_length.
  replace (Z.max 0 (Z.min 0 _)) with 0 by lia.
  replace (Z.max 0 (Z.min (Z.of_nat (String.length a)) _))
    with (Z.of_nat (String.length a)) by lia.
  replace (Z.min 0 (Z.of_nat (String.length a))) with 0 by lia.
  replace (Z.max 0 (Z.of_nat (String.length a)) - 0)
    with (Z.of_nat (String.length a)) by lia.
  change (Z.to_nat 0) with 0%nat. rewrite Nat2Z.id. apply substring_prefix.
Qed.

(** The parent of [a/rest], [rest] free of slashes, is [a], or the root when
    [a] is empty. *)
Lemma parentPath_append a rest :
  Js.countChar rest "/" = 0 ->
  parentPath (a +:+ String "/" rest) = Js.orElse a "/".
Proof.
  intros Hrest. unfold parentPath.
  rewrite (lastIndexOf_append a rest "/" Hrest), js_substring_prefix. reflexivity.
Qed.

(** A path that has a slash is its parent, a slash, and a last component. *)
Lemma parentPath_split path :
  Js.startsWith path "/" = true ->
  exists a rest,
    path = a +:+ String "/" rest /\ Js.countChar rest "/" = 0
    /\ parentPath path = Js.orElse a "/".
Proof.
  intros Hs.
  assert (Hidx : 0 <= Js.lastIndexOf path "/").
  { destruct path as [|x path]; [discriminate|].
    unfold Js.startsWith in Hs. cbn [String.prefix] in Hs.
    destruct (ascii_dec "/" x) as [<-|]; [|discriminate].
    cbn [Js.lastIndexOf]. pose proof (lastIndexOf_lower path "/").
    destruct (Z.leb_spec 0 (Js.lastIndexOf path "/")); [lia|].
    rewrite Ascii.eqb_refl. lia. }
  destruct (lastIndexOf_split path "/" Hidx) as (a & rest & Hp & Hrest & _).
  exists a, rest. split; [exact Hp|]. split; [exact Hrest|].
  rewrite Hp. apply parentPath_append. exact Hrest.
Qed.

Lemma validPath_startsWith path : validPath path = true -> Js.startsWith path "/" = true.
Proof.
  unfold validPath. intros H. apply andb_prop in H as [H _].
  apply andb_prop in H as [H _]. exact H.
Qed.



(** ** The order of LIST_CHILDREN *)

Lemma compare_Eq a b : String.compare a b = Eq <-> a = b.
Proof. exact (OrderedTypeEx.String_as_OT.cmp_eq a b). Qed.

Lemma compare_Lt a b : String.compare a b = Lt <-> OrderedTypeEx.String_as_OT.lt a b.
Proof. exact (OrderedTypeEx.String_as_OT.cmp_lt a b). Qed.

Lemma leb_trans a b c :
  String.leb a b = true -> String.leb b c = true -> String.leb a c = true.
Proof.
  unfold String.leb. intros Hab Hbc.
  destruct (String.compare a b) eqn:Eab; [| |discriminate].
  - apply compare_Eq in Eab as ->. exact Hbc.
  - destruct (String.compare b c) eqn:Ebc; [| |discriminate].
    + apply compare_Eq in Ebc as <-. rewrite Eab. reflexivity.
    + apply compare_Lt in Eab, Ebc.
      pose proof (OrderedTypeEx.String_as_OT.lt_trans _ _ _ Eab Ebc) as Hac.
      apply compare_Lt in Hac. rewrite Hac. reflexivity.
Qed.

Lemma orderBefore_cases p1 r1 p2 r2 :
  PostgresRepository.orderBefore (p1, r1) (p2, r2)
  = match r1, r2 with
    | FileRow _ _ _ _ _, DirectoryRow _ _ => true
    | DirectoryRow _ _, FileRow _ _ _ _ _ => false
    | _, _ => String.leb p1 p2
    end.
Proof. destruct r1, r2; reflexivity. Qed.

#[local] Instance OrderBefore_total : Total PostgresRepository.OrderBefore.
Proof.
  intros [p1 r1] [p2 r2]. unfold PostgresRepository.OrderBefore.
  rewrite !orderBefore_cases.
  destruct r1, r2; auto using String.leb_total.
Qed.

#[local] Instance OrderBefore_transitive : Transitive PostgresRepository.OrderBefore.
Proof.
  intros [p1 r1] [p2 r2] [p3 r3]. unfold PostgresRepository.OrderBefore.
  rewrite !orderBefore_cases.
  destruct r1, r2, r3; try discriminate; eauto using leb_trans.
Qed.






(** ** C6: what [listChildren] returns *)




(** The pattern is not escaped: [listChildren("/a_b")] returns the file
    [/axb/c], whose parent is [/axb]. *)
Example listChildren_wildcard :
  exists f,
    result (PostgresRepository.listChildren "/a_b" wildcardWorld) = Ok [File f]
    /\ FilePath.toString (FileNode.path f) = "/axb/c"
    /\ parentPath "/axb/c" = "/axb".
Proof. eexists. split; [vm_compute; reflexivity|]. split; reflexivity. Qed.

(* ===================================================================== *)
(** * Further properties of the code *)
(* ===================================================================== *)

(** ** Sample states *)

Lemma tenantIs_T1_root : TenantIs (rootWorld "T1") "T1".
Proof. split; [reflexivity | discriminate]. Defined.

Lemma tenantIs_T1_oneFile : TenantIs oneFileWorld "T1".
Proof. split; [vm_compute; reflexivity | discriminate]. Defined.

Lemma oneFileWorld_invariant : StoreInvariant oneFileWorld.
Proof. apply storeOk_sound. vm_compute. reflexivity. Defined.

(** ** Properties kept by every method *)

Lemma keeps_ret {A} (I : World -> Prop) (a : A) : Keeps I (ret a).
Proof. intros w H. exact H. Qed.

Lemma keeps_throw {A} (I : World -> Prop) (e : Error) : Keeps I (@throw A e).
Proof. intros w H. exact H. Qed.

Lemma keeps_gets {A} (I : World -> Prop) (f : World -> A) : Keeps I (gets f).
Proof. intros w H. exact H. Qed.

Lemma keeps_lift {A} (I : World -> Prop) (r : Result A) : Keeps I (lift r).
Proof. intros w H. destruct r; exact H. Qed.

Lemma keeps_enter (I : World -> Prop) (c : Call) : Keeps I (enter c).
Proof. intros w H. exact H. Qed.

Lemma keeps_bind {A B} (I : World -> Prop) (m : M A) (k : A -> M B) :
  Keeps I m -> (forall a, Keeps I (k a)) -> Keeps I (bind m k).
Proof.
  intros Hm Hk w H. rewrite bind_final.
  destruct (result (m w)); [apply Hk|]; apply Hm, H.
Qed.

Lemma keeps_bind_lift {A B} (I : World -> Prop) (r : Result A) (k : A -> M B) :
  (forall a, r = Ok a -> Keeps I (k a)) -> Keeps I (bind (lift r) k).
Proof.
  intros Hk w H. rewrite bind_final, lift_run. cbn [result final].
  destruct r as [a|e]; [apply (Hk a eq_refl)|]; exact H.
Qed.

Lemma keeps_mapM {A B} (I : World -> Prop) (f : A -> M B) (xs : list A) :
  (forall x, Keeps I (f x)) -> Keeps I (mapM f xs).
Proof.
  intros Hf. induction xs as [|x xs IH]; cbn [mapM].
  - apply keeps_ret.
  - apply keeps_bind; [apply Hf|]. intros y.
    apply keeps_bind; [apply IH|]. intros ys. apply keeps_ret.
Qed.

Lemma keeps_forEachM {A} (I : World -> Prop) (f : A -> M unit) (xs : list A) :
  (forall x, Keeps I (f x)) -> Keeps I (forEachM f xs).
Proof.
  intros Hf. unfold forEachM. apply keeps_bind; [apply keeps_mapM, Hf|].
  intros _. apply keeps_ret.
Qed.

Lemma keeps_modify (I : World -> Prop) (f : World -> World) :
  (forall w, I w -> I (f w)) -> Keeps I (modify f).
Proof. intros Hf w H. apply Hf, H. Qed.

(** One step of a proof that a method keeps a property: the method is
    taken apart along its [bind]s and its case distinctions. *)
Ltac keeps_step :=
  lazymatch goal with
  | |- Keeps _ (bind (lift _) _) => apply keeps_bind_lift; intros ? ?
  | |- Keeps _ (bind _ _) => apply keeps_bind; [|intros ?]
  | |- Keeps _ (ret _) => apply keeps_ret
  | |- Keeps _ (throw _) => apply keeps_throw
  | |- Keeps _ (gets _) => apply keeps_gets
  | |- Keeps _ (lift _) => apply keeps_lift
  | |- Keeps _ (enter _) => apply keeps_enter
  | |- Keeps _ (mapM _ _) => apply keeps_mapM; intros ?
  | |- Keeps _ (forEachM _ _) => apply keeps_forEachM; intros ?
  | |- Keeps _ (match ?x with _ => _ end) => destruct x
  end.

Ltac keeps_auto :=
  repeat (cbv zeta;
          first [ assumption
                | match goal with H : _ |- _ => solve [apply H] end
                | keeps_step ]).

Lemma keeps_ensureTenant (I : World -> Prop) :
  Keeps I PostgresRepository.ensureTenant.
Proof. unfold PostgresRepository.ensureTenant. keeps_auto. Qed.

Lemma keeps_nodeOfRow (I : World -> Prop) path row :
  Keeps I (PostgresRepository.nodeOfRow path row).
Proof. unfold PostgresRepository.nodeOfRow. keeps_auto. Qed.

Lemma keeps_getNodeByPath (I : World -> Prop) path :
  Keeps I (PostgresRepository.getNodeByPath path).
Proof.
  unfold PostgresRepository.getNodeByPath.
  pose proof (keeps_ensureTenant I). pose proof (keeps_nodeOfRow I).
  keeps_auto.
Qed.

Lemma keeps_listChildren (I : World -> Prop) d :
  Keeps I (PostgresRepository.listChildren d).
Proof.
  unfold PostgresRepository.listChildren.
  pose proof (keeps_ensureTenant I). pose proof (keeps_nodeOfRow I).
  keeps_auto.
Qed.

Lemma keeps_exists (I : World -> Prop) h : Keeps I (LocalBlobStorage.exists_ h).
Proof. unfold LocalBlobStorage.exists_. keeps_auto. Qed.

Lemma keeps_read (I : World -> Prop) h : Keeps I (LocalBlobStorage.read h).
Proof. unfold LocalBlobStorage.read. keeps_auto. Qed.

Lemma keeps_getOrphanBlobs (I : World -> Prop) :
  Keeps I PostgresRepository.getOrphanBlobs.
Proof. unfold PostgresRepository.getOrphanBlobs. keeps_auto. Qed.

Lemma keeps_readFile (I : World -> Prop) path : Keeps I (readFile path).
Proof.
  unfold readFile.
  pose proof (keeps_getNodeByPath I path). pose proof (keeps_read I).
  keeps_auto.
Qed.

Lemma keeps_getInfo (I : World -> Prop) path : Keeps I (getInfo path).
Proof.
  unfold getInfo. pose proof (keeps_getNodeByPath I path). keeps_auto.
Qed.

Lemma keeps_listDirectory (I : World -> Prop) path : Keeps I (listDirectory path).
Proof.
  unfold listDirectory.
  pose proof (keeps_getNodeByPath I path). pose proof (keeps_listChildren I path).
  keeps_auto.
Qed.

(** X1: the three reading operations, [readFile], [getInfo] and
    [listDirectory], leave the two stores, the tenant and the clock as they
    found them, whatever they return or throw. *)
Theorem reading_operations_change_nothing (path : string) :
  ReadOnly (readFile path) /\ ReadOnly (getInfo path)
  /\ ReadOnly (listDirectory path).
Proof.
  repeat split; intros w.
  - exact (keeps_readFile (fun w' => w' = w) path w eq_refl).
  - exact (keeps_getInfo (fun w' => w' = w) path w eq_refl).
  - exact (keeps_listDirectory (fun w' => w' = w) path w eq_refl).
Qed.

(** *** Properties closed under the writes the service makes *)

Lemma create_ok path filePath :
  FilePath.create path = Ok filePath ->
  validPath path = true /\ filePath = {| FilePath.value := path |}.
Proof.
  intros H. destruct (validPath path) eqn:Hv.
  - rewrite (create_valid _ Hv) in H. split; congruence.
  - destruct (create_invalid _ Hv) as (m & Hm & _). congruence.
Qed.

Lemma ensureTenant_tenant w t :
  result (PostgresRepository.ensureTenant w) = Ok t -> currentTenantId w = Some t.
Proof.
  unfold PostgresRepository.ensureTenant, bind, gets. cbn.
  destruct (currentTenantId w) as [[|c s]|]; cbn; congruence.
Qed.

Section KeptByTheService.

Variable mime : string -> option string.

Variable I : World -> Prop.
Hypothesis I_closed : ClosedUnderWrites I.

Lemma kept_createNode node :
  validPath (FilePath.toString (Node_path node)) = true ->
  rowReadable (PostgresRepository.rowOfNode node) = true ->
  Keeps I (PostgresRepository.createNode node).
Proof.
  intros Hp Hr w Hw. unfold PostgresRepository.createNode.
  rewrite bind_final. cbn [enter result final].
  rewrite bind_final.
  destruct (result (PostgresRepository.ensureTenant w)) as [t|e] eqn:Et;
    rewrite (keeps_ensureTenant (fun w' => w' = w) w eq_refl); [|exact Hw].
  apply ensureTenant_tenant in Et.
  cbn. destruct (fs_nodes w !! _); cbn; [exact Hw|].
  apply (closed_insert I I_closed); assumption.
Qed.

Lemma kept_updateNode node :
  (forall row, rowReadable (PostgresRepository.updatedRow node row) = true) ->
  Keeps I (PostgresRepository.updateNode node).
Proof.
  intros Hr w Hw. unfold PostgresRepository.updateNode.
  rewrite bind_final. cbn [enter result final].
  rewrite bind_final.
  destruct (result (PostgresRepository.ensureTenant w)) as [t|e] eqn:Et;
    rewrite (keeps_ensureTenant (fun w' => w' = w) w eq_refl); [|exact Hw].
  apply ensureTenant_tenant in Et.
  cbn. destruct (fs_nodes w !! _) as [row|] eqn:Erow; cbn; [|exact Hw].
  apply (closed_update I I_closed w t _ row); auto.
Qed.

Lemma kept_deleteNode path : Keeps I (PostgresRepository.deleteNode path).
Proof.
  intros w Hw. unfold PostgresRepository.deleteNode.
  rewrite bind_final. cbn [enter result final].
  rewrite bind_final.
  destruct (result (PostgresRepository.ensureTenant w)) as [t|e] eqn:Et;
    rewrite (keeps_ensureTenant (fun w' => w' = w) w eq_refl); [|exact Hw].
  apply ensureTenant_tenant in Et.
  cbn. apply (closed_delete I I_closed); assumption.
Qed.

Lemma kept_incrementBlobRefCount h :
  Keeps I (PostgresRepository.incrementBlobRefCount h).
Proof.
  intros w Hw. unfold PostgresRepository.incrementBlobRefCount, bind, enter, gets.
  cbn. destruct (blobs w !! h) as [b|]; cbn.
  - destruct (_ <? _); cbn; [exact Hw|]. apply (closed_blobs I I_closed), Hw.
  - apply (closed_blobs I I_closed), Hw.
Qed.

Lemma kept_decrementBlobRefCount h :
  Keeps I (PostgresRepository.decrementBlobRefCount h).
Proof.
  intros w Hw. unfold PostgresRepository.decrementBlobRefCount, bind, enter, gets.
  cbn. destruct (blobs w !! h) as [b|]; cbn; [|exact Hw].
  destruct (_ <? _); cbn; [exact Hw|]. apply (closed_blobs I I_closed), Hw.
Qed.

Lemma kept_write h content : Keeps I (LocalBlobStorage.write h content).
Proof. intros w Hw. rewrite write_run. apply (closed_blobDir I I_closed), Hw. Qed.

Lemma kept_delete h : Keeps I (LocalBlobStorage.delete h).
Proof. intros w Hw. rewrite delete_run. apply (closed_blobDir I I_closed), Hw. Qed.

Lemma kept_deleteMany hashes : Keeps I (LocalBlobStorage.deleteMany hashes).
Proof.
  unfold LocalBlobStorage.deleteMany. pose proof kept_delete. keeps_auto.
Qed.

Ltac kept_auto :=
  pose proof kept_deleteNode; pose proof kept_incrementBlobRefCount;
  pose proof kept_decrementBlobRefCount; pose proof kept_write;
  pose proof kept_delete; pose proof kept_deleteMany;
  pose proof (keeps_getNodeByPath I); pose proof (keeps_listChildren I);
  pose proof (keeps_exists I); pose proof (keeps_read I);
  pose proof (keeps_getOrphanBlobs I);
  keeps_auto.

Lemma kept_createDirectory path : Keeps I (createDirectory path).
Proof.
  unfold createDirectory. kept_auto.
  all: match goal with H : FilePath.create _ = Ok _ |- _ =>
         apply create_ok in H; destruct H as [Hv ->] end.
  all: apply kept_createNode; [exact Hv | reflexivity].
Qed.

Lemma kept_writeFile path content : Keeps I (writeFile mime path content).
Proof.
  unfold writeFile. kept_auto.
  all: match goal with H : FilePath.create _ = Ok _ |- _ =>
         apply create_ok in H; destruct H as [Hv ->] end.
  all: try (apply kept_createNode; [exact Hv | apply sha256_wellFormed]).
  all: apply kept_updateNode; intros [h s m c md|c md]; cbn;
       [apply sha256_wellFormed | reflexivity].
Qed.

Lemma kept_deleteFile path : Keeps I (deleteFile path).
Proof. unfold deleteFile. kept_auto. Qed.

Lemma kept_deleteDirectory path : Keeps I (deleteDirectory path).
Proof. unfold deleteDirectory. kept_auto. Qed.

Lemma kept_copyFile source destination :
  Keeps I (copyFile mime source destination).
Proof.
  unfold copyFile. pose proof (keeps_readFile I). pose proof kept_writeFile.
  keeps_auto.
Qed.

Lemma kept_moveFile source destination :
  Keeps I (moveFile mime source destination).
Proof.
  unfold moveFile. pose proof kept_copyFile. pose proof kept_deleteFile.
  keeps_auto.
Qed.

Lemma kept_cleanup : Keeps I OrphanCleanupService.cleanup.
Proof. unfold OrphanCleanupService.cleanup. kept_auto. Qed.

Lemma kept_cleanupInBatches fuel batchSize :
  Keeps I (OrphanCleanupService.cleanupInBatches fuel batchSize).
Proof.
  unfold OrphanCleanupService.cleanupInBatches. generalize 0.
  induction fuel as [|fuel IH]; intros total; cbn [OrphanCleanupService.cleanupLoop].
  - apply keeps_ret.
  - pose proof kept_cleanup. keeps_auto.
Qed.

End KeptByTheService.

(** *** Two properties the services keep *)

Lemma otherTenants_closed (w0 : World) (tenant path : string) :
  currentTenantId w0 <> Some tenant ->
  ClosedUnderWrites (fun w =>
    currentTenantId w = currentTenantId w0
    /\ fs_nodes w !! (tenant, path) = fs_nodes w0 !! (tenant, path)).
Proof.
  intros Hne.
  assert (Hkey : forall w t p, currentTenantId w = currentTenantId w0 ->
            currentTenantId w = Some t -> (t, p) <> (tenant, path)).
  { intros w t p E Et Hk. apply Hne. rewrite <- E, Et. congruence. }
  split.
  - intros w t p r [E H] Et _ _. split; [exact E|]. cbn.
    rewrite lookup_insert_ne; [exact H | exact (Hkey w t p E Et)].
  - intros w t p r0 r [E H] Et _ _. split; [exact E|]. cbn.
    rewrite lookup_insert_ne; [exact H | exact (Hkey w t p E Et)].
  - intros w t p [E H] Et. split; [exact E|]. cbn.
    rewrite lookup_delete_ne; [exact H | exact (Hkey w t p E Et)].
  - intros w table H. exact H.
  - intros w files H. exact H.
Qed.

Lemma otherTenants_kept {A} (m : M A) :
  (forall I, ClosedUnderWrites I -> Keeps I m) -> OtherTenantsUntouched m.
Proof.
  intros Hm w tenant path Hne.
  exact (Hm _ (otherTenants_closed w tenant path Hne) w (conj eq_refl eq_refl)).
Qed.

Lemma rowsWellFormed_closed : ClosedUnderWrites RowsWellFormed.
Proof.
  split.
  - intros w t p r H _ Hp Hr tenant path row. cbn.
    destruct (decide ((t, p) = (tenant, path))) as [E|E].
    + rewrite E, lookup_insert_eq. intros [= <-]. inversion E; subst. auto.
    + rewrite lookup_insert_ne by exact E. apply H.
  - intros w t p r0 r H _ H0 Hr tenant path row. cbn.
    destruct (decide ((t, p) = (tenant, path))) as [E|E].
    + rewrite E, lookup_insert_eq. intros [= <-]. inversion E; subst.
      split; [exact (proj1 (H _ _ _ H0)) | exact Hr].
    + rewrite lookup_insert_ne by exact E. apply H.
  - intros w t p H _ tenant path row. cbn.
    destruct (decide ((t, p) = (tenant, path))) as [E|E].
    + rewrite E, lookup_delete_eq. discriminate.
    + rewrite lookup_delete_ne by exact E. apply H.
  - intros w table H. exact H.
  - intros w files H. exact H.
Qed.

(** X2: no operation of the service touches the rows of another
    tenant: after [createDirectory], [writeFile], [deleteFile],
    [deleteDirectory], [copyFile] or [moveFile], returned or thrown, the
    current tenant is the one it was and every row of every other tenant is
    as before. *)
Theorem operations_leave_other_tenants (mime : string -> option string)
    (path source destination : string) (content : Buffer) :
  OtherTenantsUntouched (createDirectory path)
  /\ OtherTenantsUntouched (writeFile mime path content)
  /\ OtherTenantsUntouched (deleteFile path)
  /\ OtherTenantsUntouched (deleteDirectory path)
  /\ OtherTenantsUntouched (copyFile mime source destination)
  /\ OtherTenantsUntouched (moveFile mime source destination).
Proof.
  repeat apply conj; apply otherTenants_kept; intros I HI.
  - apply kept_createDirectory, HI.
  - apply kept_writeFile, HI.
  - apply kept_deleteFile, HI.
  - apply kept_deleteDirectory, HI.
  - apply kept_copyFile, HI.
  - apply kept_moveFile, HI.
Qed.

(** X3: no operation of the service stores a path that
    [FilePath.create] rejects or a hash that [ContentHash.fromString]
    rejects: if every row can be read back before, every row can be read
    back after, whether the operation returns or throws. *)
Theorem operations_keep_rows_well_formed (mime : string -> option string)
    (path source destination : string) (content : Buffer) (w : World) :
  RowsWellFormed w ->
  RowsWellFormed (final (createDirectory path w))
  /\ RowsWellFormed (final (writeFile mime path content w))
  /\ RowsWellFormed (final (deleteFile path w))
  /\ RowsWellFormed (final (deleteDirectory path w))
  /\ RowsWellFormed (final (copyFile mime source destination w))
  /\ RowsWellFormed (final (moveFile mime source destination w)).
Proof.
  intros H. pose proof rowsWellFormed_closed as HI. repeat apply conj.
  - exact (kept_createDirectory _ HI path w H).
  - exact (kept_writeFile mime _ HI path content w H).
  - exact (kept_deleteFile _ HI path w H).
  - exact (kept_deleteDirectory _ HI path w H).
  - exact (kept_copyFile mime _ HI source destination w H).
  - exact (kept_moveFile mime _ HI source destination w H).
Qed.

(** Writing a file and creating a directory under a root. *)
Lemma operations_keep_rows_well_formed_witness :
  let w := rootWorld "T1" in
  RowsWellFormed w
  /\ RowsWellFormed (final (writeFile noMime "/a" (Buffer_from "x") w))
  /\ RowsWellFormed (final (createDirectory "/d" w)).
Proof.
  intros w.
  assert (H : RowsWellFormed w) by exact (inv_rows w (rootWorld_invariant "T1")).
  destruct (operations_keep_rows_well_formed noMime "/a" "/a" "/b"
              (Buffer_from "x") w H) as (_ & Hw & _).
  destruct (operations_keep_rows_well_formed noMime "/d" "/a" "/b"
              (Buffer_from "x") w H) as (Hc & _).
  exact (conj H (conj Hw Hc)).
Defined.

(** ** The metadata store: rows written and read back *)

Lemma nodeFor_rowOfNode (node : Node) :
  nodeFor (FilePath.toString (Node_path node)) (PostgresRepository.rowOfNode node)
  = node.
Proof. destruct node as [[[p] [h] sz m c md]|[[p] c md]]; reflexivity. Qed.

(** X4: a node created is the node read back: after [createNode]
    of a node with an accepted path and a well-formed hash, at a path with
    no row, [getNodeByPath] of that path returns that very node, times
    included. *)
Theorem createNode_getNodeByPath (w : World) (t : string) (node : Node) :
  TenantIs w t ->
  validPath (FilePath.toString (Node_path node)) = true ->
  rowReadable (PostgresRepository.rowOfNode node) = true ->
  fs_nodes w !! (t, FilePath.toString (Node_path node)) = None ->
  result ((PostgresRepository.createNode node ;;
           PostgresRepository.getNodeByPath
             (FilePath.toString (Node_path node))) w)
  = Ok (Some node).
Proof.
  intros [Ht Hne] Hp Hr Hnone.
  rewrite (bind_run _ _ _ _ _ _ (createNode_run w t Ht Hne node Hnone)).
  cbv beta. cbn [after result].
  erewrite getNodeByPath_some; [| exact Ht | exact Hne | | exact Hp | exact Hr].
  - cbn [result]. now rewrite nodeFor_rowOfNode.
  - cbn. apply lookup_insert_eq.
Qed.

(** A directory node with times of its own, created under a root. *)
Lemma createNode_getNodeByPath_witness :
  let w := rootWorld "T1" in
  let node := Directory (DirectoryNode.new {| FilePath.value := "/d" |} 7) in
  TenantIs w "T1"
  /\ validPath (FilePath.toString (Node_path node)) = true
  /\ rowReadable (PostgresRepository.rowOfNode node) = true
  /\ fs_nodes w !! ("T1", FilePath.toString (Node_path node)) = None
  /\ result ((PostgresRepository.createNode node ;;
              PostgresRepository.getNodeByPath "/d") w) = Ok (Some node).
Proof.
  intros w node.
  assert (H1 : TenantIs w "T1") by exact tenantIs_T1_root.
  assert (H2 : validPath (FilePath.toString (Node_path node)) = true) by reflexivity.
  assert (H3 : rowReadable (PostgresRepository.rowOfNode node) = true) by reflexivity.
  assert (H4 : fs_nodes w !! ("T1", FilePath.toString (Node_path node)) = None)
    by (vm_compute; reflexivity).
  exact (conj H1 (conj H2 (conj H3 (conj H4
           (createNode_getNodeByPath w "T1" node H1 H2 H3 H4))))).
Defined.



(** X6: [updateNode] never inserts and never changes the creation
    time: with no row at the path of the node it returns and leaves the
    state alone; on a file row it writes the hash, the size, the media type
    and the modification time of the node, and the node read back carries
    the creation time of the row, not the one of the node. *)
Theorem updateNode_keeps_created_at (w : World) (t : string) (f : FileNode.t) :
  TenantIs w t ->
  let path := FilePath.toString (FileNode.path f) in
  validPath path = true ->
  ContentHash.wellFormed (ContentHash.toString (FileNode.contentHash f)) = true ->
  (fs_nodes w !! (t, path) = None ->
   PostgresRepository.updateNode (File f) w
   = {| result := Ok tt; final := w; calls := [UpdateNode path] |})
  /\ (forall h sz m created modified,
       fs_nodes w !! (t, path) = Some (FileRow h sz m created modified) ->
       result ((PostgresRepository.updateNode (File f) ;;
                PostgresRepository.getNodeByPath path) w)
       = Ok (Some (File (FileNode.withTimes f created (FileNode.modifiedAt f))))).
Proof.
  intros [Ht Hne] path Hp Hh. split.
  - intros Erow. unfold PostgresRepository.updateNode.
    unfold bind, enter, gets, PostgresRepository.ensureTenant.
    cbn. rewrite Ht. destruct t; [contradiction|]. cbn.
    unfold path in Erow. cbn in Erow. rewrite Erow. reflexivity.
  - intros h sz m c md Erow.
    pose proof (updateNode_run w t Ht Hne (File f) _ Erow) as Hrun.
    rewrite (bind_run _ _ _ _ _ _ Hrun); cbv beta; cbn [after result].
    erewrite getNodeByPath_some;
      [| exact Ht | exact Hne | apply lookup_insert_eq | exact Hp | exact Hh].
    cbn [result]. destruct f as [[p] [h'] sz' m' c' md']. reflexivity.
Qed.

(** A node stamped 5 written over a row created at 0. *)
Lemma updateNode_keeps_created_at_witness :
  let w := set_clock 5 oneFileWorld in
  let f := FileNode.new {| FilePath.value := "/a" |}
             (ContentHash.fromContent (Buffer_from "y")) 1 "text/plain" 5 in
  TenantIs w "T1"
  /\ validPath (FilePath.toString (FileNode.path f)) = true
  /\ ContentHash.wellFormed (ContentHash.toString (FileNode.contentHash f)) = true
  /\ result ((PostgresRepository.updateNode (File f) ;;
              PostgresRepository.getNodeByPath (FilePath.toString (FileNode.path f))) w)
     = Ok (Some (File (FileNode.withTimes f 0 (FileNode.modifiedAt f)))).
Proof.
  intros w f.
  assert (H1 : TenantIs w "T1") by (split; [vm_compute; reflexivity | discriminate]).
  assert (H2 : validPath (FilePath.toString (FileNode.path f)) = true) by reflexivity.
  assert (H3 : ContentHash.wellFormed (ContentHash.toString (FileNode.contentHash f)) = true)
    by (vm_compute; reflexivity).
  assert (H4 : fs_nodes w !! ("T1", FilePath.toString (FileNode.path f))
               = Some (FileRow (sha256 (Buffer_from "x")) 1
                         "application/octet-stream" 0 0))
    by (vm_compute; reflexivity).
  pose proof (updateNode_keeps_created_at w "T1" f H1 H2 H3) as [_ T].
  exact (conj H1 (conj H2 (conj H3 (T _ _ _ _ _ H4)))).
Defined.

(** ** The reference counts *)

(** X7: [decrementBlobRefCount] never leaves a negative count.  When
    it returns, the value is the count now recorded, it is at least 0, it
    is the old count less one if the hash had a row, and nothing changed if
    it had none; when it throws, the error is the violated CHECK, the old
    count was 0 or less, and nothing changed.  The rows of the other hashes
    are untouched in both cases. *)
Theorem decrementBlobRefCount_never_negative (w : World) (h : string) :
  match result (PostgresRepository.decrementBlobRefCount h w) with
  | Ok n =>
      0 <= n
      /\ n = refCount (final (PostgresRepository.decrementBlobRefCount h w)) h
      /\ (is_Some (blobs w !! h) -> n = refCount w h - 1)
      /\ (blobs w !! h = None ->
          final (PostgresRepository.decrementBlobRefCount h w) = w)
  | Throw e =>
      e = DatabaseError "23514"
      /\ refCount w h <= 0
      /\ final (PostgresRepository.decrementBlobRefCount h w) = w
  end
  /\ forall h', h' <> h ->
       blobs (final (PostgresRepository.decrementBlobRefCount h w)) !! h'
       = blobs w !! h'.
Proof.
  unfold PostgresRepository.decrementBlobRefCount, bind, enter, gets, refCount.
  cbn. destruct (blobs w !! h) as [b|] eqn:Eb; cbn.
  - destruct (reference_count b - 1 <? 0) eqn:Elt; cbn.
    + apply Z.ltb_lt in Elt. try rewrite Eb. repeat split; auto; lia.
    + apply Z.ltb_ge in Elt. rewrite lookup_insert_eq. cbn.
      repeat split; auto; try lia.
      * discriminate.
      * intros h' Hh'. now rewrite lookup_insert_ne by congruence.
  - try rewrite Eb. repeat split; auto; try lia.
    intros [? ?]; discriminate.
Qed.

(** X8: an increment followed by a decrement of the same hash
    returns the count the hash had and leaves every count as it was; the
    hash has a row afterwards, even if it had none before. *)
Theorem increment_then_decrement (w : World) (h : string) :
  0 <= refCount w h < PostgresRepository.INT_MAX ->
  let o := (PostgresRepository.incrementBlobRefCount h ;;
            PostgresRepository.decrementBlobRefCount h) w in
  result o = Ok (refCount w h)
  /\ (forall h', refCount (final o) h' = refCount w h')
  /\ is_Some (blobs (final o) !! h).
Proof.
  intros [H0 Hmax] o. subst o.
  rewrite (bind_run _ _ _ _ _ _ (incrementBlobRefCount_run w h Hmax)).
  cbv beta.
  rewrite decrementBlobRefCount_run.
  - cbn [after result final]. repeat apply conj.
    + f_equal. cbn. fold (tableAfterIncrement (clock w) (blobs w) h).
      rewrite countAfterDecrement_increment. reflexivity.
    + intros h'. unfold refCount. cbn.
      fold (tableAfterIncrement (clock w) (blobs w) h).
      apply increment_decrement_refCount.
    + cbn. unfold tableAfterDecrement. rewrite lookup_insert_eq.
      rewrite lookup_insert_eq. eauto.
  - cbn. intros b. rewrite lookup_insert_eq. intros [= <-].
    unfold refCount in H0. destruct (blobs w !! h); cbn; lia.
Qed.

(** The hash of the one file of a tenant, whose count is 1. *)
Lemma increment_then_decrement_witness :
  let w := oneFileWorld in
  let h := sha256 (Buffer_from "x") in
  0 <= refCount w h < PostgresRepository.INT_MAX
  /\ result ((PostgresRepository.incrementBlobRefCount h ;;
              PostgresRepository.decrementBlobRefCount h) w) = Ok 1.
Proof.
  intros w h.
  assert (H : 0 <= refCount w h < PostgresRepository.INT_MAX)
    by (vm_compute; split; [discriminate | reflexivity]).
  split; [exact H|].
  exact (proj1 (increment_then_decrement w h H)).
Defined.

(** ** The rows GET_ORPHAN_BLOBS selects *)

#[local] Instance OlderFirst_total : Total PostgresRepository.OlderFirst.
Proof. intros a b. unfold PostgresRepository.OlderFirst. lia. Qed.

#[local] Instance OlderFirst_transitive : Transitive PostgresRepository.OlderFirst.
Proof. intros a b c. unfold PostgresRepository.OlderFirst. lia. Qed.

Lemma StronglySorted_fmap_elem {A B} (f : A -> B) (R1 : relation A)
    (R2 : relation B) (l : list A) :
  (forall x y, x ∈ l -> y ∈ l -> R1 x y -> R2 (f x) (f y)) ->
  StronglySorted R1 l -> StronglySorted R2 (f <$> l).
Proof.
  intros H HS. induction HS as [|x l HS IH Hx]; csimpl; constructor.
  - apply IH. intros a b Ha Hb. apply H; now apply elem_of_cons; right.
  - rewrite Forall_fmap. rewrite Forall_forall in Hx |- *.
    intros y Hy. cbn. apply H.
    + apply elem_of_cons; now left.
    + apply elem_of_cons; now right.
    + apply Hx, Hy.
Qed.

Lemma sortedOrphanRows_elem table h b :
  (h, b) ∈ sortedOrphanRows table
  <-> table !! h = Some b /\ reference_count b = 0.
Proof.
  unfold sortedOrphanRows. rewrite merge_sort_Permutation.
  rewrite list_elem_of_filter, elem_of_map_to_list. cbn. tauto.
Qed.

Lemma sortedOrphanRows_sorted table :
  StronglySorted PostgresRepository.OlderFirst (sortedOrphanRows table).
Proof. apply StronglySorted_merge_sort; apply _. Qed.

Lemma sortedOrphanRows_NoDup table : NoDup (sortedOrphanRows table).
Proof.
  unfold sortedOrphanRows. rewrite merge_sort_Permutation.
  apply NoDup_filter, NoDup_map_to_list.
Qed.

Lemma selectOrphans_rows table :
  PostgresRepository.selectOrphans table = (take 1000 (sortedOrphanRows table)).*1.
Proof. reflexivity. Qed.

Lemma take_elem {A} (n : nat) (l : list A) (x : A) : x ∈ take n l -> x ∈ l.
Proof.
  intros H. apply elem_of_take in H as (i & Hi & _).
  exact (list_elem_of_lookup_2 _ _ _ Hi).
Qed.

Lemma selectOrphans_elem table h :
  h ∈ PostgresRepository.selectOrphans table ->
  exists b, (h, b) ∈ take 1000 (sortedOrphanRows table)
            /\ table !! h = Some b /\ reference_count b = 0.
Proof.
  rewrite selectOrphans_rows, list_elem_of_fmap.
  intros ([h' b] & -> & Hin). exists b. split; [exact Hin|].
  apply sortedOrphanRows_elem, (take_elem _ _ _ Hin).
Qed.

(** X9: [getOrphanBlobs] changes nothing and returns at most 1000
    hashes, without repetition, each with a row of count 0, the least
    recently accessed first; an orphan is left out only when 1000 are
    returned, and then none of those returned was accessed after it. *)
Theorem getOrphanBlobs_selects_orphans (w : World) :
  exists hashes,
    PostgresRepository.getOrphanBlobs w
    = {| result := Ok hashes; final := w; calls := [GetOrphanBlobs] |}
    /\ (length hashes <= 1000)%nat
    /\ NoDup hashes
    /\ (forall h, h ∈ hashes -> isOrphan w h)
    /\ StronglySorted (fun h1 h2 => accessedAt w h1 <= accessedAt w h2) hashes
    /\ (forall h, isOrphan w h -> h ∉ hashes ->
          length hashes = 1000%nat
          /\ forall h', h' ∈ hashes -> accessedAt w h' <= accessedAt w h).
Proof.
  exists (PostgresRepository.selectOrphans (blobs w)).
  split; [apply getOrphanBlobs_run|].
  set (S := sortedOrphanRows (blobs w)).
  assert (HS : StronglySorted PostgresRepository.OlderFirst
                 (take 1000 S ++ drop 1000 S)).
  { rewrite take_drop. apply sortedOrphanRows_sorted. }
  assert (Hacc : forall h b, (h, b) ∈ S -> accessedAt w h = last_accessed_at b).
  { intros h b Hin. apply sortedOrphanRows_elem in Hin as [Hb _].
    unfold accessedAt. now rewrite Hb. }
  repeat apply conj.
  - rewrite selectOrphans_rows, length_fmap, length_take. lia.
  - rewrite selectOrphans_rows. apply NoDup_fmap_fst.
    + intros h b1 b2 H1 H2.
      apply take_elem, sortedOrphanRows_elem in H1 as [H1 _].
      apply take_elem, sortedOrphanRows_elem in H2 as [H2 _]. congruence.
    + eapply sublist_NoDup; [apply sortedOrphanRows_NoDup | apply sublist_take].
  - intros h Hin. apply selectOrphans_elem in Hin as (b & _ & Hb & H0).
    exists b. auto.
  - rewrite selectOrphans_rows.
    apply (StronglySorted_fmap_elem fst PostgresRepository.OlderFirst).
    + intros [h1 b1] [h2 b2] H1 H2 HR. cbn.
      rewrite (Hacc h1 b1 (take_elem _ _ _ H1)), (Hacc h2 b2 (take_elem _ _ _ H2)).
      exact HR.
    + exact (StronglySorted_app_1_l _ _ _ HS).
  - intros h (b & Hb & H0) Hnot.
    assert (Hin : (h, b) ∈ S) by (apply sortedOrphanRows_elem; auto).
    rewrite <- (take_drop 1000 S), elem_of_app in Hin.
    destruct Hin as [Hin|Hin].
    { exfalso. apply Hnot. rewrite selectOrphans_rows.
      apply list_elem_of_fmap. exists (h, b). auto. }
    split.
    + rewrite selectOrphans_rows, length_fmap, length_take. fold S.
      destruct (decide (1000 <= length S)%nat) as [Hl|Hl]; [lia|].
      rewrite drop_ge in Hin by lia. inversion Hin.
    + intros h' Hin'. apply selectOrphans_elem in Hin' as (b' & Hin' & _).
      rewrite (Hacc h' b' (take_elem _ _ _ Hin')).
      assert (Hd : (h, b) ∈ S).
      { rewrite <- (take_drop 1000 S). apply elem_of_app. now right. }
      rewrite (Hacc h b Hd).
      exact (StronglySorted_app_1_elem_of _ _ _ _ _ HS Hin' Hin).
Qed.

(** ** The blob directory *)



Lemma set_blobDir_same w : set_blobDir (blobDir w) w = w.
Proof. now destruct w. Qed.

Lemma deleteEach_final (hashes : list string) (w : World) :
  exists ys,
    mapM LocalBlobStorage.delete hashes w
    = {| result := Ok ys;
         final := set_blobDir (unlinkAll hashes (blobDir w)) w;
         calls := map BlobDelete hashes |}.
Proof.
  revert w. induction hashes as [|h hashes IH]; intros w; cbn [mapM].
  - exists []. rewrite ret_run. cbn. now rewrite set_blobDir_same.
  - rewrite (bind_run _ _ _ _ _ _ (delete_run h w)). cbv beta.
    destruct (IH (set_blobDir (delete h (blobDir w)) w)) as [ys Hys].
    rewrite (bind_run _ _ _ _ _ _ Hys). cbv beta. rewrite ret_run.
    exists (tt :: ys). unfold after. cbn [result final calls].
    rewrite app_nil_r. reflexivity.
Qed.

Lemma unlinkAll_lookup (hashes : list string) (files : gmap string Buffer) h :
  unlinkAll hashes files !! h
  = if bool_decide (h ∈ hashes) then None else files !! h.
Proof.
  revert files. induction hashes as [|h0 hashes IH]; intros files.
  - cbn. rewrite bool_decide_eq_false_2; [reflexivity|]. apply not_elem_of_nil.
  - cbn [unlinkAll foldl]. fold (unlinkAll hashes (delete h0 files)).
    rewrite IH. destruct (decide (h ∈ hashes)) as [Hin|Hin].
    + rewrite !bool_decide_eq_true_2; auto. apply elem_of_cons; now right.
    + rewrite (bool_decide_eq_false_2 _ Hin).
      destruct (decide (h = h0)) as [->|Hne].
      * rewrite lookup_delete_eq, bool_decide_eq_true_2; auto.
        apply elem_of_cons; now left.
      * rewrite lookup_delete_ne by congruence.
        rewrite bool_decide_eq_false_2; auto.
        rewrite elem_of_cons. tauto.
Qed.

(** What [deleteMany] leaves behind. *)
Lemma deleteMany_state (w : World) (hashes : list string) :
  let o := LocalBlobStorage.deleteMany hashes w in
  result o = Ok tt
  /\ (forall h, blobDir (final o) !! h
                = if bool_decide (h ∈ hashes) then None else blobDir w !! h)
  /\ fs_nodes (final o) = fs_nodes w
  /\ blobs (final o) = blobs w
  /\ calls o = BlobDeleteMany hashes :: map BlobDelete hashes.
Proof.
  cbv zeta. unfold LocalBlobStorage.deleteMany, forEachM.
  destruct (deleteEach_final hashes w) as [ys Hys].
  assert (Hinner : (mapM LocalBlobStorage.delete hashes ;; ret tt) w
                   = {| result := Ok tt;
                        final := set_blobDir (unlinkAll hashes (blobDir w)) w;
                        calls := map BlobDelete hashes |}).
  { rewrite (bind_run _ _ _ _ _ _ Hys). cbv beta. rewrite ret_run.
    unfold after. cbn [result final calls]. now rewrite app_nil_r. }
  rewrite (bind_run (enter _) _ w w tt [BlobDeleteMany hashes] eq_refl).
  cbv beta. rewrite Hinner. cbn.
  repeat apply conj; try reflexivity.
  intros h. apply unlinkAll_lookup.
Qed.



(** ** Requests with no tenant *)

Lemma getNodeByPath_unset (w : World) (path : string) :
  TenantUnset w ->
  PostgresRepository.getNodeByPath path w
  = {| result := Throw (PlainError "Tenant not set"); final := w;
       calls := [GetNodeByPath path] |}.
Proof.
  intros Hun. unfold PostgresRepository.getNodeByPath, bind, enter, gets,
    PostgresRepository.ensureTenant, throw. cbn.
  destruct Hun as [-> | ->]; reflexivity.
Qed.

(** X13: with no tenant set (or the empty one) every operation throws
    [Tenant not set] at its first call on the metadata store and no row is
    read or written; [writeFile] has by then stored the blob. *)
Theorem operations_need_a_tenant (mime : string -> option string) (w : World)
    (path destination : string) (content : Buffer) :
  TenantUnset w ->
  (validPath path = true ->
   result (createDirectory path w) = Throw tenantNotSet
   /\ final (createDirectory path w) = w
   /\ result (writeFile mime path content w) = Throw tenantNotSet
   /\ final (writeFile mime path content w) = withBlob content w)
  /\ result (readFile path w) = Throw tenantNotSet
  /\ result (getInfo path w) = Throw tenantNotSet
  /\ result (listDirectory path w) = Throw tenantNotSet
  /\ (result (deleteFile path w) = Throw tenantNotSet /\ final (deleteFile path w) = w)
  /\ (result (deleteDirectory path w) = Throw tenantNotSet
      /\ final (deleteDirectory path w) = w)
  /\ (result (copyFile mime path destination w) = Throw tenantNotSet
      /\ final (copyFile mime path destination w) = w)
  /\ (result (moveFile mime path destination w) = Throw tenantNotSet
      /\ final (moveFile mime path destination w) = w).
Proof.
  intros Hun. unfold tenantNotSet.
  pose proof (getNodeByPath_unset w path Hun) as Hget.
  assert (Hread : readFile path w
                  = {| result := Throw (PlainError "Tenant not set");
                       final := w; calls := [GetNodeByPath path] |}).
  { unfold readFile. now rewrite (bind_stop _ _ _ _ _ _ Hget). }
  assert (Hcopy : copyFile mime path destination w
                  = {| result := Throw (PlainError "Tenant not set");
                       final := w; calls := [GetNodeByPath path] |}).
  { unfold copyFile. now rewrite (bind_stop _ _ _ _ _ _ Hread). }
  repeat apply conj.
  - intros Hv.
    assert (Hunb : TenantUnset (withBlob content w)).
    { unfold withBlob. destruct (bool_decide _); exact Hun. }
    rewrite (writeFile_start mime path content w Hv).
    rewrite (bind_stop _ _ _ _ _ _ (getNodeByPath_unset _ path Hunb)).
    unfold createDirectory. rewrite (create_valid _ Hv).
    rewrite (bind_run _ _ _ _ _ _ (lift_run _ w)). cbv beta.
    rewrite (bind_stop _ _ _ _ _ _ Hget). cbn. auto.
  - now rewrite Hread.
  - unfold getInfo. now rewrite (bind_stop _ _ _ _ _ _ Hget).
  - unfold listDirectory. now rewrite (bind_stop _ _ _ _ _ _ Hget).
  - unfold deleteFile. now rewrite (bind_stop _ _ _ _ _ _ Hget).
  - unfold deleteFile. now rewrite (bind_stop _ _ _ _ _ _ Hget).
  - unfold deleteDirectory. now rewrite (bind_stop _ _ _ _ _ _ Hget).
  - unfold deleteDirectory. now rewrite (bind_stop _ _ _ _ _ _ Hget).
  - now rewrite Hcopy.
  - now rewrite Hcopy.
  - unfold moveFile. now rewrite (bind_stop _ _ _ _ _ _ Hcopy).
  - unfold moveFile. now rewrite (bind_stop _ _ _ _ _ _ Hcopy).
Qed.

(** A store whose tenant was never set. *)
Lemma operations_need_a_tenant_witness :
  let w := set_tenant None (rootWorld "T1") in
  TenantUnset w
  /\ result (readFile "/" w) = Throw tenantNotSet
  /\ result (deleteDirectory "/" w) = Throw tenantNotSet.
Proof.
  intros w.
  assert (H : TenantUnset w) by (left; reflexivity).
  destruct (operations_need_a_tenant noMime w "/" "/b" (Buffer_from "x") H)
    as (_ & Hread & _ & _ & _ & [Hdel _] & _).
  exact (conj H (conj Hread Hdel)).
Defined.

(** ** The operations of the service, case by case *)

Lemma getNodeByPath_rows (w : World) (t path : string) :
  TenantIs w t -> RowsWellFormed w ->
  PostgresRepository.getNodeByPath path w
  = {| result := Ok (nodeFor path <$> fs_nodes w !! (t, path)); final := w;
       calls := [GetNodeByPath path] |}.
Proof.
  intros [Ht Hne] Hrows. destruct (fs_nodes w !! (t, path)) as [row|] eqn:Erow.
  - destruct (Hrows _ _ _ Erow) as [Hp Hr].
    exact (getNodeByPath_some w t Ht Hne path row Erow Hp Hr).
  - exact (getNodeByPath_none w t Ht Hne path Erow).
Qed.

(** The run of [createDirectory] on a valid path. *)
Lemma createDirectory_run (w : World) (t path : string) :
  TenantIs w t -> RowsWellFormed w -> validPath path = true ->
  let created :=
    set_fs_nodes (<[(t, path) := DirectoryRow (clock w) (clock w)]> (fs_nodes w)) w in
  createDirectory path w
  = match fs_nodes w !! (t, path) with
    | Some _ =>
        {| result := Throw (FileAlreadyExistsError ("Path already exists: " +:+ path));
           final := w; calls := [GetNodeByPath path] |}
    | None =>
        if String.eqb path "/" then
          {| result := Ok tt; final := created;
             calls := [GetNodeByPath path; CreateNode path] |}
        else
          match fs_nodes w !! (t, parentPath path) with
          | None =>
              {| result := Throw (DirectoryNotFoundError
                                    ("Parent directory not found: "
                                     +:+ parentPath path));
                 final := w;
                 calls := [GetNodeByPath path; GetNodeByPath (parentPath path)] |}
          | Some _ =>
              {| result := Ok tt; final := created;
                 calls := [GetNodeByPath path; GetNodeByPath (parentPath path);
                           CreateNode path] |}
          end
    end.
Proof.
  intros HT Hrows Hv created. pose proof HT as [Ht Hne].
  unfold createDirectory. rewrite (create_valid _ Hv).
  run_by (lift_run (Ok {| FilePath.value := path |}) w).
  run_by (getNodeByPath_rows w t path HT Hrows).
  destruct (fs_nodes w !! (t, path)) as [row|] eqn:Erow; cbn [fmap option_fmap option_map].
  - run_done.
  - assert (Hcreate :
      PostgresRepository.createNode
        (Directory (DirectoryNode.new {| FilePath.value := path |} (clock w))) w
      = {| result := Ok tt; final := created; calls := [CreateNode path] |}).
    { exact (createNode_run w t Ht Hne
               (Directory (DirectoryNode.new {| FilePath.value := path |} (clock w)))
               Erow). }
    destruct (String.eqb path "/") eqn:Eroot; cbn [negb].
    + run_by (ret_run tt w). run_by (gets_run clock w). rewrite Hcreate.
      run_done.
    + pose proof (getNodeByPath_rows w t (parentPath path) HT Hrows) as Hparent.
      destruct (fs_nodes w !! (t, parentPath path)) as [prow|];
        cbn [fmap option_fmap option_map] in Hparent.
      * rewrite (bind_run _ _ w w tt [GetNodeByPath (parentPath path)]).
        -- cbv beta. run_by (gets_run clock w). rewrite Hcreate. run_done.
        -- run_by Hparent. run_done.
      * rewrite (bind_stop _ _ w w
                   (DirectoryNotFoundError
                      ("Parent directory not found: " +:+ parentPath path))
                   [GetNodeByPath (parentPath path)]).
        -- run_done.
        -- run_by Hparent. run_done.
Qed.

(** X14: the outcomes of [createDirectory] on an accepted path, in a
    store whose rows can be read back: a node at the path, file or
    directory, gives [FileAlreadyExistsError] before the parent is looked
    at; otherwise, for a path other than [/] with no node at its parent,
    [DirectoryNotFoundError]; otherwise one directory row is inserted,
    created and modified at the clock.  A failure leaves the state as it
    was. *)
Theorem createDirectory_cases (w : World) (t path : string) :
  TenantIs w t -> RowsWellFormed w -> validPath path = true ->
  let created :=
    set_fs_nodes (<[(t, path) := DirectoryRow (clock w) (clock w)]> (fs_nodes w)) w in
  createDirectory path w
  = match fs_nodes w !! (t, path) with
    | Some _ =>
        {| result := Throw (FileAlreadyExistsError ("Path already exists: " +:+ path));
           final := w; calls := [GetNodeByPath path] |}
    | None =>
        if String.eqb path "/" then
          {| result := Ok tt; final := created;
             calls := [GetNodeByPath path; CreateNode path] |}
        else
          match fs_nodes w !! (t, parentPath path) with
          | None =>
              {| result := Throw (DirectoryNotFoundError
                                    ("Parent directory not found: "
                                     +:+ parentPath path));
                 final := w;
                 calls := [GetNodeByPath path; GetNodeByPath (parentPath path)] |}
          | Some _ =>
              {| result := Ok tt; final := created;
                 calls := [GetNodeByPath path; GetNodeByPath (parentPath path);
                           CreateNode path] |}
          end
    end.
Proof. exact (createDirectory_run w t path). Qed.

(** A directory created under the root. *)
Lemma createDirectory_cases_witness :
  let w := rootWorld "T1" in
  TenantIs w "T1" /\ RowsWellFormed w /\ validPath "/d" = true
  /\ result (createDirectory "/d" w) = Ok tt
  /\ fs_nodes (final (createDirectory "/d" w)) !! ("T1", "/d")
     = Some (DirectoryRow 0 0).
Proof.
  intros w.
  assert (H1 : TenantIs w "T1") by exact tenantIs_T1_root.
  assert (H2 : RowsWellFormed w) by exact (inv_rows w (rootWorld_invariant "T1")).
  assert (H3 : validPath "/d" = true) by reflexivity.
  split; [exact H1|]. split; [exact H2|]. split; [exact H3|].
  rewrite (createDirectory_cases w "T1" "/d" H1 H2 H3).
  split; vm_compute; reflexivity.
Defined.

Lemma listChildren_rows (w : World) (t d : string) :
  TenantIs w t -> RowsWellFormed w ->
  PostgresRepository.listChildren d w
  = {| result := Ok (map (fun pr : string * Row => nodeFor pr.1 pr.2)
                         (childRows w t d));
       final := w; calls := [ListChildren d] |}.
Proof.
  intros [Ht Hne] Hrows. unfold PostgresRepository.listChildren.
  rewrite (bind_run (enter _) _ w w tt [ListChildren d] eq_refl). cbv beta.
  run_by (ensureTenant_ok w t Ht Hne). run_by (gets_run fs_nodes w).
  fold (childRows w t d).
  rewrite (nodesOfRows_run w (childRows w t d)).
  - unfold after. cbn. reflexivity.
  - intros [p row] Hin. apply selectChildren_elem in Hin as (Hrow & _).
    exact (Hrows _ _ _ Hrow).
Qed.



Lemma refCount_set_blobs w table h :
  refCount (set_blobs table w) h
  = match table !! h with Some b => reference_count b | None => 0 end.
Proof. reflexivity. Qed.

Lemma refCount_tableAfterDecrement now table h h' :
  match tableAfterDecrement now table h !! h' with
  | Some b => reference_count b
  | None => 0
  end
  = match table !! h' with
    | Some b => if String.eqb h' h then reference_count b - 1 else reference_count b
    | None => 0
    end.
Proof.
  unfold tableAfterDecrement. destruct (String.eqb_spec h' h) as [->|Hne].
  - destruct (table !! h) as [b|] eqn:Eb.
    + now rewrite lookup_insert_eq.
    + now rewrite Eb.
  - destruct (table !! h) as [b|] eqn:Eb.
    + now rewrite lookup_insert_ne by congruence.
    + reflexivity.
Qed.

Lemma refCount_tableAfterIncrement now table h h' :
  match tableAfterIncrement now table h !! h' with
  | Some b => reference_count b
  | None => 0
  end
  = match table !! h' with
    | Some b => reference_count b
    | None => 0
    end + (if String.eqb h' h then 1 else 0).
Proof.
  unfold tableAfterIncrement. destruct (String.eqb_spec h' h) as [->|Hne].
  - rewrite lookup_insert_eq. destruct (table !! h); cbn; lia.
  - rewrite lookup_insert_ne by congruence. destruct (table !! h'); lia.
Qed.

(** What [deleteFile] leaves behind when the path holds a file. *)
Lemma deleteFile_state (w : World) (t path h : string) (sz : Z) (mt : string)
    (created modified : Z) :
  TenantIs w t -> validPath path = true -> ContentHash.wellFormed h = true ->
  fs_nodes w !! (t, path) = Some (FileRow h sz mt created modified) ->
  1 <= refCount w h ->
  let o := deleteFile path w in
  result o = Ok tt
  /\ fs_nodes (final o) = delete (t, path) (fs_nodes w)
  /\ (forall h', refCount (final o) h'
                 = if String.eqb h' h then refCount w h - 1 else refCount w h')
  /\ blobDir (final o)
     = (if refCount w h =? 1 then delete h (blobDir w) else blobDir w)
  /\ currentTenantId (final o) = currentTenantId w
  /\ clock (final o) = clock w
  /\ (forall h', is_Some (blobs w !! h') -> is_Some (blobs (final o) !! h')).
Proof.
  intros [Ht Hne] Hp Hr Erow Hcount o. subst o.
  assert (Hdec : forall b, blobs w !! h = Some b -> 1 <= reference_count b).
  { intros b Hb. unfold refCount in Hcount. now rewrite Hb in Hcount. }
  rewrite (deleteFile_file w t path h sz mt created modified Ht Hne Erow Hp Hr Hdec).
  cbn [result final].
  assert (Hc : (countAfterDecrement (blobs w) h =? 0) = (refCount w h =? 1)).
  { unfold countAfterDecrement, refCount in *.
    destruct (blobs w !! h) as [b|]; [|lia].
    destruct (Z.eqb_spec (reference_count b - 1) 0),
             (Z.eqb_spec (reference_count b) 1); first [lia | reflexivity]. }
  unfold dropIfUnreferenced. rewrite Hc.
  repeat apply conj; try reflexivity.
  - destruct (refCount w h =? 1); reflexivity.
  - intros h'. transitivity
      (refCount (set_blobs (tableAfterDecrement (clock w) (blobs w) h) w) h').
    { destruct (refCount w h =? 1); reflexivity. }
    rewrite refCount_set_blobs, refCount_tableAfterDecrement.
    unfold refCount. destruct (String.eqb_spec h' h) as [->|]; [|reflexivity].
    unfold refCount in Hcount. destruct (blobs w !! h); [reflexivity|lia].
  - destruct (refCount w h =? 1); reflexivity.
  - destruct (refCount w h =? 1); reflexivity.
  - destruct (refCount w h =? 1); reflexivity.
  - intros h' Hsome.
    assert (Hrow : is_Some (tableAfterDecrement (clock w) (blobs w) h !! h')).
    { unfold tableAfterDecrement. destruct (blobs w !! h) as [b|]; [|exact Hsome].
      destruct (decide (h' = h)) as [->|Hn].
      - rewrite lookup_insert_eq. eauto.
      - now rewrite lookup_insert_ne by congruence. }
    destruct (refCount w h =? 1); exact Hrow.
Qed.



Lemma withBlob_tenantIs content w t : TenantIs w t -> TenantIs (withBlob content w) t.
Proof. unfold withBlob. destruct (bool_decide _); auto. Qed.

Lemma withBlob_rows content w : RowsWellFormed w -> RowsWellFormed (withBlob content w).
Proof. unfold RowsWellFormed. now rewrite withBlob_fs_nodes. Qed.

Lemma withBlob_stored content w :
  blobDir (withBlob content w)
  = match blobDir w !! sha256 content with
    | Some _ => blobDir w
    | None => <[sha256 content := content]> (blobDir w)
    end.
Proof.
  unfold withBlob. destruct (blobDir w !! sha256 content) eqn:E.
  - rewrite bool_decide_eq_true_2; eauto.
  - rewrite bool_decide_eq_false_2; [reflexivity|]. intros [? ?]; discriminate.
Qed.

(** The run of [writeFile] when neither the path nor its parent holds a
    node. *)
Lemma writeFile_no_parent_run (mime : string -> option string) (w : World)
    (t path : string) (content : Buffer) :
  TenantIs w t -> RowsWellFormed w -> validPath path = true ->
  fs_nodes w !! (t, path) = None ->
  fs_nodes w !! (t, parentPath path) = None ->
  writeFile mime path content w
  = after (blobCallsOfWrite content w)
      {| result := Throw (DirectoryNotFoundError
                            ("Parent directory not found: " +:+ parentPath path));
         final := withBlob content w;
         calls := [GetNodeByPath path; GetNodeByPath (parentPath path)] |}.
Proof.
  intros HT Hrows Hv Erow Eparent.
  rewrite (writeFile_start mime path content w Hv). f_equal.
  pose proof (withBlob_tenantIs content w t HT) as HT'.
  pose proof (withBlob_rows content w Hrows) as Hrows'.
  run_by (getNodeByPath_rows _ t path HT' Hrows').
  rewrite withBlob_fs_nodes, Erow. cbn [fmap option_fmap option_map].
  run_by (getNodeByPath_rows _ t (parentPath path) HT' Hrows').
  rewrite withBlob_fs_nodes, Eparent. run_done.
Qed.

(** X17: a rejected [writeFile] has stored the blob already: onto
    a directory it throws [FileAlreadyExistsError], and at a free path whose
    parent has no node [DirectoryNotFoundError]; in both cases no row of
    [fs_nodes] or [blobs] has changed, but the content is in the blob
    directory, written if it was not there. *)
Theorem writeFile_rejected_keeps_blob (mime : string -> option string)
    (w : World) (t path : string) (content : Buffer) :
  TenantIs w t -> RowsWellFormed w -> validPath path = true ->
  let o := writeFile mime path content w in
  let blobStoredOnly :=
    fs_nodes (final o) = fs_nodes w
    /\ blobs (final o) = blobs w
    /\ blobDir (final o)
       = match blobDir w !! sha256 content with
         | Some _ => blobDir w
         | None => <[sha256 content := content]> (blobDir w)
         end in
  (forall created modified,
     fs_nodes w !! (t, path) = Some (DirectoryRow created modified) ->
     result o = Throw (FileAlreadyExistsError ("Path is a directory: " +:+ path))
     /\ blobStoredOnly)
  /\ (fs_nodes w !! (t, path) = None ->
      fs_nodes w !! (t, parentPath path) = None ->
      result o = Throw (DirectoryNotFoundError
                          ("Parent directory not found: " +:+ parentPath path))
      /\ blobStoredOnly).
Proof.
  intros HT Hrows Hv o blobStoredOnly. pose proof HT as [Ht Hne].
  assert (Hfinal : final o = withBlob content w -> blobStoredOnly).
  { intros E. unfold blobStoredOnly. rewrite E.
    rewrite withBlob_fs_nodes, withBlob_blobs, withBlob_stored. auto. }
  split.
  - intros c md Erow. subst o.
    rewrite (writeFile_directory mime w t path content Ht Hne Hv c md Erow) in *.
    split; [reflexivity | apply Hfinal; reflexivity].
  - intros Erow Eparent. subst o.
    rewrite (writeFile_no_parent_run mime w t path content HT Hrows Hv Erow
               Eparent) in *.
    split; [reflexivity | apply Hfinal; reflexivity].
Qed.

(** Writing under a directory that does not exist. *)
Lemma writeFile_rejected_keeps_blob_witness :
  let w := rootWorld "T1" in
  let content := Buffer_from "x" in
  let o := writeFile noMime "/d/a" content w in
  TenantIs w "T1" /\ RowsWellFormed w /\ validPath "/d/a" = true
  /\ fs_nodes w !! ("T1", "/d/a") = None
  /\ fs_nodes w !! ("T1", parentPath "/d/a") = None
  /\ result o = Throw (DirectoryNotFoundError
                         ("Parent directory not found: " +:+ parentPath "/d/a"))
  /\ fs_nodes (final o) = fs_nodes w
  /\ blobDir (final o) !! sha256 content = Some content.
Proof.
  intros w content o.
  assert (H1 : TenantIs w "T1") by exact tenantIs_T1_root.
  assert (H2 : RowsWellFormed w) by exact (inv_rows w (rootWorld_invariant "T1")).
  assert (H3 : validPath "/d/a" = true) by reflexivity.
  assert (H4 : fs_nodes w !! ("T1", "/d/a") = None) by (vm_compute; reflexivity).
  assert (H5 : fs_nodes w !! ("T1", parentPath "/d/a") = None)
    by (vm_compute; reflexivity).
  destruct (proj2 (writeFile_rejected_keeps_blob noMime w "T1" "/d/a" content
                     H1 H2 H3) H4 H5) as (T1 & T2 & _ & T3).
  split; [exact H1|]. split; [exact H2|]. split; [exact H3|].
  split; [exact H4|]. split; [exact H5|]. split; [exact T1|]. split; [exact T2|].
  unfold o. rewrite T3. vm_compute. reflexivity.
Defined.

Lemma dropIfUnreferenced_refCount count h w h' :
  refCount (dropIfUnreferenced count h w) h' = refCount w h'.
Proof. unfold dropIfUnreferenced. destruct (count =? 0); reflexivity. Qed.

Lemma countAfterDecrement_refCount table h :
  is_Some (table !! h) ->
  countAfterDecrement table h
  = match table !! h with Some b => reference_count b | None => 0 end - 1.
Proof. unfold countAfterDecrement. intros [b ->]. reflexivity. Qed.

(** What [writeFile] leaves behind when the path holds a file. *)
Lemma writeFile_existing_state (mime : string -> option string) (w : World)
    (t path : string) (content : Buffer) (old : string) (sz : Z) (mt : string)
    (created modified : Z) :
  TenantIs w t -> StoreInvariant w -> validPath path = true ->
  fs_nodes w !! (t, path) = Some (FileRow old sz mt created modified) ->
  let o := writeFile mime path content w in
  let new := sha256 content in
  let stored := match blobDir w !! new with
                | Some _ => blobDir w
                | None => <[new := content]> (blobDir w)
                end in
  result o = Ok tt
  /\ fs_nodes (final o)
     = <[(t, path) := FileRow new (Buffer_length content) mt created (clock w)]>
         (fs_nodes w)
  /\ (forall h, refCount (final o) h
                = refCount w h + (if String.eqb h new then 1 else 0)
                  - (if String.eqb h old then 1 else 0))
  /\ blobDir (final o)
     = (if negb (String.eqb old new) && (refCount w old =? 1)
       then delete old stored else stored)
  /\ currentTenantId (final o) = currentTenantId w
  /\ clock (final o) = clock w.
Proof.
  intros HT Hinv Hv Erow o new stored. subst o stored new.
  pose proof HT as [Ht Hne].
  destruct (inv_rows w Hinv _ _ _ Erow) as [_ Hold]. cbn in Hold.
  pose proof (inv_integrity w Hinv _ _ _ _ _ _ _ Erow) as Hcount.
  pose proof (inv_bound w Hinv (sha256 content)) as Hbound.
  assert (Hsafe : forall b,
            tableAfterIncrement (clock w) (blobs w) (sha256 content) !! old = Some b ->
            1 <= reference_count b).
  { intros b Hb. exact (proj1 (update_decrement_safe w (sha256 content) old Hcount b Hb)). }
  rewrite (writeFile_update mime w t path content Ht Hne Hv old sz mt created
             modified Erow Hold Hbound Hsafe).
  cbv zeta. cbn [result final].
  set (table := tableAfterIncrement (clock w) (blobs w) (sha256 content)).
  assert (Hsome : is_Some (table !! old)).
  { unfold table, tableAfterIncrement.
    destruct (decide (old = (sha256 content))) as [->|Hn].
    - rewrite lookup_insert_eq. eauto.
    - rewrite lookup_insert_ne by congruence.
      unfold refCount in Hcount. destruct (blobs w !! old); [eauto | lia]. }
  assert (Hc : countAfterDecrement table old
               = refCount w old + (if String.eqb old (sha256 content) then 1 else 0) - 1).
  { rewrite (countAfterDecrement_refCount _ _ Hsome). unfold table.
    rewrite refCount_tableAfterIncrement. reflexivity. }
  assert (Hz : (countAfterDecrement table old =? 0)
               = negb (String.eqb old (sha256 content)) && (refCount w old =? 1)).
  { rewrite Hc. destruct (String.eqb old (sha256 content)); cbn [negb andb].
    - apply Z.eqb_neq. lia.
    - destruct (Z.eqb_spec (refCount w old) 1) as [E|E].
      + apply Z.eqb_eq. lia.
      + apply Z.eqb_neq. lia. }
  repeat apply conj.
  - reflexivity.
  - unfold dropIfUnreferenced. destruct (_ =? 0); reflexivity.
  - intros h. rewrite dropIfUnreferenced_refCount, refCount_set_blobs.
    rewrite refCount_tableAfterDecrement. unfold table. 
    pose proof (refCount_tableAfterIncrement (clock w) (blobs w) (sha256 content) h) as Hi.
    fold (refCount w h) in Hi.
    destruct (tableAfterIncrement (clock w) (blobs w) (sha256 content) !! h) as [b|] eqn:Eb.
    + rewrite Hi. destruct (String.eqb h old); lia.
    + destruct (String.eqb_spec h old) as [->|]; [|lia].
      destruct Hsome as [b Hb]. unfold table in Hb. congruence.
  - unfold dropIfUnreferenced. rewrite Hz.
    destruct (negb (String.eqb old (sha256 content)) && (refCount w old =? 1)); cbn;
      now rewrite withBlob_stored.
  - unfold dropIfUnreferenced. destruct (_ =? 0); cbn;
      unfold withBlob; destruct (bool_decide _); reflexivity.
  - unfold dropIfUnreferenced. destruct (_ =? 0); cbn; apply withBlob_clock.
Qed.

(** X18: overwriting a file keeps its creation time and its media
    type.  In a store that satisfies [StoreInvariant], [writeFile] on a path
    that holds a file returns; the row gets the hash and the length of the
    new content and the clock as modification time; the count of the new
    hash goes up by one and the count of the old hash down by one; the new
    blob is stored if it was not; and the old blob is deleted exactly when
    the hashes differ and the old count was 1. *)
Theorem writeFile_overwrite (mime : string -> option string) (w : World)
    (t path : string) (content : Buffer) (old : string) (sz : Z) (mt : string)
    (created modified : Z) :
  TenantIs w t -> StoreInvariant w -> validPath path = true ->
  fs_nodes w !! (t, path) = Some (FileRow old sz mt created modified) ->
  let o := writeFile mime path content w in
  let new := sha256 content in
  let stored := match blobDir w !! new with
                | Some _ => blobDir w
                | None => <[new := content]> (blobDir w)
                end in
  result o = Ok tt
  /\ fs_nodes (final o)
     = <[(t, path) := FileRow new (Buffer_length content) mt created (clock w)]>
         (fs_nodes w)
  /\ (forall h, refCount (final o) h
                = refCount w h + (if String.eqb h new then 1 else 0)
                  - (if String.eqb h old then 1 else 0))
  /\ blobDir (final o)
     = if negb (String.eqb old new) && (refCount w old =? 1)
       then delete old stored else stored.
Proof.
  intros HT Hinv Hv Erow.
  destruct (writeFile_existing_state mime w t path content old sz mt created
              modified HT Hinv Hv Erow) as (H1 & H2 & H3 & H4 & _).
  cbv zeta. auto.
Qed.

(** New content over the one file of a tenant: the old blob goes. *)
Lemma writeFile_overwrite_witness :
  let w := set_clock 9 oneFileWorld in
  let old := sha256 (Buffer_from "x") in
  let content := Buffer_from "y" in
  let o := writeFile sampleMime "/a" content w in
  TenantIs w "T1" /\ StoreInvariant w /\ validPath "/a" = true
  /\ fs_nodes w !! ("T1", "/a")
     = Some (FileRow old 1 "application/octet-stream" 0 0)
  /\ result o = Ok tt
  /\ fs_nodes (final o)
     = <[("T1", "/a") := FileRow (sha256 content) (Buffer_length content)
                           "application/octet-stream" 0 (clock w)]> (fs_nodes w)
  /\ refCount (final o) old = 0
  /\ blobDir (final o) !! old = None.
Proof.
  intros w old content o.
  assert (H1 : TenantIs w "T1") by (split; [vm_compute; reflexivity | discriminate]).
  assert (H2 : StoreInvariant w) by (apply storeOk_sound; vm_compute; reflexivity).
  assert (H3 : validPath "/a" = true) by reflexivity.
  assert (H4 : fs_nodes w !! ("T1", "/a")
               = Some (FileRow old 1 "application/octet-stream" 0 0))
    by (vm_compute; reflexivity).
  destruct (writeFile_overwrite sampleMime w "T1" "/a" content old 1
              "application/octet-stream" 0 0 H1 H2 H3 H4) as (T1 & T2 & T3 & T4).
  split; [exact H1|]. split; [exact H2|]. split; [exact H3|].
  split; [exact H4|]. split; [exact T1|]. split; [exact T2|]. split.
  - unfold o. rewrite T3. vm_compute. reflexivity.
  - unfold o. rewrite T4. vm_compute. reflexivity.
Defined.

(** What [writeFile] leaves behind when the path is free and its parent
    is there. *)
Lemma writeFile_fresh_state (mime : string -> option string) (w : World)
    (t path : string) (content : Buffer) :
  TenantIs w t -> RowsWellFormed w -> validPath path = true ->
  fs_nodes w !! (t, path) = None ->
  is_Some (fs_nodes w !! (t, parentPath path)) ->
  refCount w (sha256 content) < PostgresRepository.INT_MAX ->
  let o := writeFile mime path content w in
  result o = Ok tt
  /\ fs_nodes (final o)
     = <[(t, path) := FileRow (sha256 content) (Buffer_length content)
                        (default "application/octet-stream" (mime path))
                        (clock w) (clock w)]> (fs_nodes w)
  /\ (forall h, refCount (final o) h
                = refCount w h + (if String.eqb h (sha256 content) then 1 else 0))
  /\ blobDir (final o)
     = match blobDir w !! sha256 content with
       | Some _ => blobDir w
       | None => <[sha256 content := content]> (blobDir w)
       end
  /\ currentTenantId (final o) = currentTenantId w
  /\ clock (final o) = clock w
  /\ is_Some (blobs (final o) !! sha256 content).
Proof.
  intros [Ht Hne] Hrows Hv Erow [prow Eparent] Hbound o. subst o.
  destruct (Hrows _ _ _ Eparent) as [Hpp Hpr].
  rewrite (writeFile_new mime w t path content Ht Hne Hv prow Erow Eparent
             Hpp Hpr Hbound).
  cbn [result final]. repeat apply conj.
  - reflexivity.
  - reflexivity.
  - intros h. rewrite refCount_set_blobs, refCount_tableAfterIncrement.
    reflexivity.
  - cbn. apply withBlob_stored.
  - cbn. unfold withBlob. destruct (bool_decide _); reflexivity.
  - cbn. apply withBlob_clock.
  - cbn. unfold tableAfterIncrement. rewrite lookup_insert_eq. eauto.
Qed.

(** ** Operations one after the other *)

(** X19: a file written at a free path and deleted again leaves
    [fs_nodes] and every count as they were, and a row of [blobs] for the
    hash of the content; the blob is deleted when the count of that hash
    was 0, and otherwise it is in the directory, as after the write. *)
Theorem writeFile_then_deleteFile (mime : string -> option string) (w : World)
    (t path : string) (content : Buffer) :
  TenantIs w t -> RowsWellFormed w -> validPath path = true ->
  fs_nodes w !! (t, path) = None ->
  is_Some (fs_nodes w !! (t, parentPath path)) ->
  0 <= refCount w (sha256 content) < PostgresRepository.INT_MAX ->
  let o := (writeFile mime path content ;; deleteFile path) w in
  result o = Ok tt
  /\ fs_nodes (final o) = fs_nodes w
  /\ (forall h, refCount (final o) h = refCount w h)
  /\ is_Some (blobs (final o) !! sha256 content)
  /\ blobDir (final o)
     = if refCount w (sha256 content) =? 0
       then delete (sha256 content) (blobDir w)
       else match blobDir w !! sha256 content with
            | Some _ => blobDir w
            | None => <[sha256 content := content]> (blobDir w)
            end.
Proof.
  intros HT Hrows Hv Erow Hparent [H0 Hmax] o. subst o.
  destruct (writeFile_fresh_state mime w t path content HT Hrows Hv Erow
              Hparent Hmax) as (W1 & W2 & W3 & W4 & W5 & W6 & W7).
  cbv zeta in *. set (w1 := final (writeFile mime path content w)) in *.
  assert (HT1 : TenantIs w1 t).
  { destruct HT as [Ht Hne]. split; [congruence | exact Hne]. }
  assert (Erow1 : fs_nodes w1 !! (t, path)
                  = Some (FileRow (sha256 content) (Buffer_length content)
                            (default "application/octet-stream" (mime path))
                            (clock w) (clock w))).
  { rewrite W2. apply lookup_insert_eq. }
  assert (Hc1 : refCount w1 (sha256 content) = refCount w (sha256 content) + 1).
  { rewrite W3, String.eqb_refl. reflexivity. }
  destruct (deleteFile_state w1 t path _ _ _ _ _ HT1 Hv
              (sha256_wellFormed content) Erow1 ltac:(lia))
    as (D1 & D2 & D3 & D4 & D5 & D6 & D7).
  cbv zeta in *.
  rewrite bind_result, bind_final. fold w1. rewrite W1.
  repeat apply conj.
  - exact D1.
  - rewrite D2, W2. now apply delete_insert_id.
  - intros h. rewrite D3, Hc1, W3.
    destruct (String.eqb h (sha256 content)) eqn:E; [|lia].
    apply String.eqb_eq in E. subst h. lia.
  - apply D7, W7.
  - rewrite D4, Hc1, W4.
    replace (refCount w (sha256 content) + 1 =? 1)
      with (refCount w (sha256 content) =? 0)
      by (destruct (Z.eqb_spec (refCount w (sha256 content)) 0),
            (Z.eqb_spec (refCount w (sha256 content) + 1) 1);
          first [lia | reflexivity]).
    destruct (refCount w (sha256 content) =? 0); [|reflexivity].
    destruct (blobDir w !! sha256 content) eqn:Eb; [reflexivity|].
    apply delete_insert_eq.
Qed.

(** A file written under the root and deleted: its blob is gone, its blobs row stays. *)
Lemma writeFile_then_deleteFile_witness :
  let w := rootWorld "T1" in
  let content := Buffer_from "x" in
  let o := (writeFile noMime "/a" content ;; deleteFile "/a") w in
  TenantIs w "T1" /\ RowsWellFormed w /\ validPath "/a" = true
  /\ fs_nodes w !! ("T1", "/a") = None
  /\ is_Some (fs_nodes w !! ("T1", parentPath "/a"))
  /\ 0 <= refCount w (sha256 content) < PostgresRepository.INT_MAX
  /\ result o = Ok tt
  /\ fs_nodes (final o) = fs_nodes w
  /\ is_Some (blobs (final o) !! sha256 content)
  /\ blobDir (final o) !! sha256 content = None.
Proof.
  intros w content o.
  assert (H1 : TenantIs w "T1") by exact tenantIs_T1_root.
  assert (H2 : RowsWellFormed w) by exact (inv_rows w (rootWorld_invariant "T1")).
  assert (H3 : validPath "/a" = true) by reflexivity.
  assert (H4 : fs_nodes w !! ("T1", "/a") = None) by (vm_compute; reflexivity).
  assert (H5 : is_Some (fs_nodes w !! ("T1", parentPath "/a")))
    by (eexists; vm_compute; reflexivity).
  assert (H6 : 0 <= refCount w (sha256 content) < PostgresRepository.INT_MAX)
    by (vm_compute; split; [discriminate | reflexivity]).
  destruct (writeFile_then_deleteFile noMime w "T1" "/a" content H1 H2 H3 H4 H5 H6)
    as (T1 & T2 & _ & T3 & T4).
  split; [exact H1|]. split; [exact H2|]. split; [exact H3|].
  split; [exact H4|]. split; [exact H5|]. split; [exact H6|].
  split; [exact T1|]. split; [exact T2|]. split; [exact T3|].
  unfold o. rewrite T4. vm_compute. reflexivity.
Defined.

Lemma childRows_insert_self (w : World) (t path : string) (row : Row) :
  childRows w t path = [] ->
  childRows (set_fs_nodes (<[(t, path) := row]> (fs_nodes w)) w) t path = [].
Proof.
  intros Hnone. apply elem_of_nil_inv. intros [p r] Hin.
  apply selectChildren_elem in Hin as (Hrow & Hlike & Hne & Hdepth).
  cbn in Hrow. rewrite lookup_insert_ne in Hrow by congruence.
  assert (Hin : (p, r) ∈ childRows w t path).
  { apply selectChildren_elem. auto. }
  rewrite Hnone in Hin. inversion Hin.
Qed.

(** X20: a directory created at a free path and
    deleted again leaves the state exactly as it was, provided no row was
    already there that LIST_CHILDREN selects for the path. *)
Theorem createDirectory_then_deleteDirectory (w : World) (t path : string) :
  TenantIs w t -> RowsWellFormed w -> validPath path = true ->
  fs_nodes w !! (t, path) = None ->
  path = "/" \/ is_Some (fs_nodes w !! (t, parentPath path)) ->
  childRows w t path = [] ->
  let o := (createDirectory path ;; deleteDirectory path) w in
  result o = Ok tt /\ final o = w.
Proof.
  intros HT Hrows Hv Erow Hparent Hchildren o. subst o.
  pose proof HT as [Ht Hne].
  pose proof (createDirectory_run w t path HT Hrows Hv) as Hrun.
  cbv zeta in Hrun. rewrite Erow in Hrun.
  set (w1 := set_fs_nodes
               (<[(t, path) := DirectoryRow (clock w) (clock w)]> (fs_nodes w)) w)
    in *.
  assert (Hcreate : exists tr,
            createDirectory path w = {| result := Ok tt; final := w1; calls := tr |}).
  { destruct Hparent as [-> | [prow Eparent]].
    - cbn in Hrun. eauto.
    - destruct (String.eqb path "/"); [eauto|]. rewrite Eparent in Hrun. eauto. }
  destruct Hcreate as [tr Hcreate].
  rewrite (bind_run _ _ _ _ _ _ Hcreate). cbv beta. cbn [after result final].
  assert (HT1 : TenantIs w1 t) by exact HT.
  assert (Hrows1 : RowsWellFormed w1).
  { apply (closed_insert _ rowsWellFormed_closed); auto. }
  unfold deleteDirectory.
  run_by (getNodeByPath_rows w1 t path HT1 Hrows1).
  replace (fs_nodes w1 !! (t, path)) with (Some (DirectoryRow (clock w) (clock w)))
    by (symmetry; apply lookup_insert_eq).
  cbn [fmap option_fmap option_map nodeFor].
  run_by (listChildren_rows w1 t path HT1 Hrows1).
  assert (Hchildren1 : childRows w1 t path = [])
    by exact (childRows_insert_self w t path _ Hchildren).
  rewrite Hchildren1.
  cbn [map length]. change (0 <? Z.of_nat 0) with false. cbv iota.
  unfold after at 2.
  rewrite (deleteNode_run w1 t Ht Hne path).
  cbn [after result final]. split; [reflexivity|].
  unfold w1, set_fs_nodes. cbn.
  rewrite (delete_insert_id _ _ _ Erow). now destruct w.
Qed.

(** A directory created beside a file and deleted. *)
Lemma createDirectory_then_deleteDirectory_witness :
  let w := oneFileWorld in
  let o := (createDirectory "/d" ;; deleteDirectory "/d") w in
  TenantIs w "T1" /\ RowsWellFormed w /\ validPath "/d" = true
  /\ fs_nodes w !! ("T1", "/d") = None
  /\ is_Some (fs_nodes w !! ("T1", parentPath "/d"))
  /\ childRows w "T1" "/d" = []
  /\ result o = Ok tt /\ final o = w.
Proof.
  intros w o.
  assert (H1 : TenantIs w "T1") by exact tenantIs_T1_oneFile.
  assert (H2 : RowsWellFormed w) by exact (inv_rows w oneFileWorld_invariant).
  assert (H3 : validPath "/d" = true) by reflexivity.
  assert (H4 : fs_nodes w !! ("T1", "/d") = None) by (vm_compute; reflexivity).
  assert (H5 : is_Some (fs_nodes w !! ("T1", parentPath "/d")))
    by (eexists; vm_compute; reflexivity).
  assert (H6 : childRows w "T1" "/d" = []) by (vm_compute; reflexivity).
  exact (conj H1 (conj H2 (conj H3 (conj H4 (conj H5 (conj H6
           (createDirectory_then_deleteDirectory w "T1" "/d" H1 H2 H3 H4
              (or_intror H5) H6))))))).
Defined.

(** The run of [copyFile] is the run of [writeFile] on the bytes read. *)
Lemma copyFile_reads_then_writes (mime : string -> option string) (w : World)
    (t source destination h : string) (sz : Z) (mt : string)
    (created modified : Z) (content : Buffer) :
  TenantIs w t -> RowsWellFormed w ->
  fs_nodes w !! (t, source) = Some (FileRow h sz mt created modified) ->
  blobDir w !! h = Some content ->
  result (copyFile mime source destination w)
  = result (writeFile mime destination content w)
  /\ final (copyFile mime source destination w)
     = final (writeFile mime destination content w).
Proof.
  intros [Ht Hne] Hrows Erow Hblob.
  destruct (Hrows _ _ _ Erow) as [Hp Hr]. cbn in Hr.
  unfold copyFile.
  rewrite (bind_run _ _ _ _ _ _
             (readFile_file w t source Ht Hne h sz mt created modified content
                Erow Hp Hr Hblob)).
  cbv beta. split; reflexivity.
Qed.

(** X21: moving a file to a free path whose parent has a node: the
    row of the source is deleted; the destination gets a row with the hash
    of the source, the length of the blob, the media type of the
    destination path and the clock as both times; no count and no blob
    changes. *)
Theorem moveFile_to_fresh_path (mime : string -> option string) (w : World)
    (t source destination h : string) (sz : Z) (mt : string)
    (created modified : Z) (content : Buffer) :
  TenantIs w t -> StoreInvariant w ->
  fs_nodes w !! (t, source) = Some (FileRow h sz mt created modified) ->
  blobDir w !! h = Some content -> sha256 content = h ->
  validPath destination = true ->
  fs_nodes w !! (t, destination) = None ->
  is_Some (fs_nodes w !! (t, parentPath destination)) ->
  let o := moveFile mime source destination w in
  result o = Ok tt
  /\ fs_nodes (final o)
     = delete (t, source)
         (<[(t, destination) :=
              FileRow h (Buffer_length content)
                (default "application/octet-stream" (mime destination))
                (clock w) (clock w)]> (fs_nodes w))
  /\ (forall h', refCount (final o) h' = refCount w h')
  /\ blobDir (final o) = blobDir w.
Proof.
  intros HT Hinv Erow Hblob Hhash Hv Edst Hparent o. subst o.
  pose proof (inv_rows w Hinv) as Hrows.
  destruct (Hrows _ _ _ Erow) as [Hp Hr]. cbn in Hr.
  pose proof (inv_integrity w Hinv _ _ _ _ _ _ _ Erow) as Hcount.
  pose proof (inv_bound w Hinv (sha256 content)) as Hbound.
  destruct (copyFile_reads_then_writes mime w t source destination h sz mt
              created modified content HT Hrows Erow Hblob) as [Cr Cf].
  destruct (writeFile_fresh_state mime w t destination content HT Hrows Hv Edst
              Hparent Hbound) as (W1 & W2 & W3 & W4 & W5 & W6 & _).
  cbv zeta in *. rewrite Hhash in *.
  set (w2 := final (writeFile mime destination content w)) in *.
  assert (HT2 : TenantIs w2 t).
  { destruct HT as [Ht Hne]. split; [congruence | exact Hne]. }
  assert (Hne : (t, destination) <> (t, source)).
  { intros E. rewrite E in Edst. congruence. }
  assert (Erow2 : fs_nodes w2 !! (t, source)
                  = Some (FileRow h sz mt created modified)).
  { rewrite W2, lookup_insert_ne by exact Hne. exact Erow. }
  assert (Hc2 : refCount w2 h = refCount w h + 1).
  { rewrite W3, String.eqb_refl. reflexivity. }
  destruct (deleteFile_state w2 t source h sz mt created modified HT2 Hp Hr
              Erow2 ltac:(lia)) as (D1 & D2 & D3 & D4 & _).
  cbv zeta in *.
  unfold moveFile. rewrite bind_result, bind_final, Cr, Cf. fold w2. rewrite W1.
  repeat apply conj.
  - exact D1.
  - rewrite D2, W2. reflexivity.
  - intros h'. rewrite D3, Hc2, W3.
    destruct (String.eqb h' h) eqn:E; [|lia].
    apply String.eqb_eq in E. subst h'. lia.
  - rewrite D4, Hc2, W4, Hblob.
    destruct (Z.eqb_spec (refCount w h + 1) 1); [lia | reflexivity].
Qed.

(** The one file of a tenant moved to a free path. *)
Lemma moveFile_to_fresh_path_witness :
  let w := oneFileWorld in
  let content := Buffer_from "x" in
  let h := sha256 content in
  let o := moveFile noMime "/a" "/b" w in
  TenantIs w "T1" /\ StoreInvariant w
  /\ fs_nodes w !! ("T1", "/a") = Some (FileRow h 1 "application/octet-stream" 0 0)
  /\ blobDir w !! h = Some content
  /\ validPath "/b" = true
  /\ fs_nodes w !! ("T1", "/b") = None
  /\ is_Some (fs_nodes w !! ("T1", parentPath "/b"))
  /\ result o = Ok tt
  /\ refCount (final o) h = refCount w h
  /\ blobDir (final o) = blobDir w.
Proof.
  intros w content h o.
  assert (H1 : TenantIs w "T1") by exact tenantIs_T1_oneFile.
  assert (H2 : StoreInvariant w) by exact oneFileWorld_invariant.
  assert (H3 : fs_nodes w !! ("T1", "/a")
               = Some (FileRow h 1 "application/octet-stream" 0 0))
    by (vm_compute; reflexivity).
  assert (H4 : blobDir w !! h = Some content) by (vm_compute; reflexivity).
  assert (H5 : validPath "/b" = true) by reflexivity.
  assert (H6 : fs_nodes w !! ("T1", "/b") = None) by (vm_compute; reflexivity).
  assert (H7 : is_Some (fs_nodes w !! ("T1", parentPath "/b")))
    by (eexists; vm_compute; reflexivity).
  destruct (moveFile_to_fresh_path noMime w "T1" "/a" "/b" h 1
              "application/octet-stream" 0 0 content H1 H2 H3 H4 eq_refl H5 H6 H7)
    as (T1 & _ & T2 & T3).
  exact (conj H1 (conj H2 (conj H3 (conj H4 (conj H5 (conj H6 (conj H7
           (conj T1 (conj (T2 h) T3))))))))).
Defined.

(** X22: moving a file onto itself deletes it: [moveFile p p] returns,
    the row of [p] is gone, the count of its hash is one less, and the blob
    is deleted when that count was 1. *)
Theorem moveFile_onto_itself (mime : string -> option string) (w : World)
    (t path h : string) (sz : Z) (mt : string) (created modified : Z)
    (content : Buffer) :
  TenantIs w t -> StoreInvariant w ->
  fs_nodes w !! (t, path) = Some (FileRow h sz mt created modified) ->
  blobDir w !! h = Some content -> sha256 content = h ->
  let o := moveFile mime path path w in
  result o = Ok tt
  /\ fs_nodes (final o) = delete (t, path) (fs_nodes w)
  /\ (forall h', refCount (final o) h'
                 = if String.eqb h' h then refCount w h - 1 else refCount w h')
  /\ blobDir (final o)
     = if refCount w h =? 1 then delete h (blobDir w) else blobDir w.
Proof.
  intros HT Hinv Erow Hblob Hhash o. subst o.
  pose proof (inv_rows w Hinv) as Hrows.
  destruct (Hrows _ _ _ Erow) as [Hp Hr]. cbn in Hr.
  pose proof (inv_integrity w Hinv _ _ _ _ _ _ _ Erow) as Hcount.
  destruct (copyFile_reads_then_writes mime w t path path h sz mt
              created modified content HT Hrows Erow Hblob) as [Cr Cf].
  destruct (writeFile_existing_state mime w t path content h sz mt created
              modified HT Hinv Hp Erow) as (W1 & W2 & W3 & W4 & W5 & W6).
  cbv zeta in *. rewrite Hhash in *.
  set (w2 := final (writeFile mime path content w)) in *.
  assert (HT2 : TenantIs w2 t).
  { destruct HT as [Ht Hne]. split; [congruence | exact Hne]. }
  assert (Erow2 : fs_nodes w2 !! (t, path)
                  = Some (FileRow h (Buffer_length content) mt created (clock w))).
  { rewrite W2. apply lookup_insert_eq. }
  assert (Hc2 : forall h', refCount w2 h' = refCount w h').
  { intros h'. rewrite W3. destruct (String.eqb h' h); lia. }
  destruct (deleteFile_state w2 t path h _ mt created _ HT2 Hp Hr
              Erow2 ltac:(rewrite Hc2; lia)) as (D1 & D2 & D3 & D4 & _).
  cbv zeta in *.
  unfold moveFile. rewrite bind_result, bind_final, Cr, Cf. fold w2. rewrite W1.
  repeat apply conj.
  - exact D1.
  - rewrite D2, W2. apply delete_insert_eq.
  - intros h'. rewrite D3, !Hc2. reflexivity.
  - rewrite D4, Hc2, W4, Hblob, String.eqb_refl. reflexivity.
Qed.

(** The one file of a tenant moved onto itself: reading it fails afterwards. *)
Lemma moveFile_onto_itself_witness :
  let w := oneFileWorld in
  let content := Buffer_from "x" in
  let h := sha256 content in
  let o := moveFile noMime "/a" "/a" w in
  TenantIs w "T1" /\ StoreInvariant w
  /\ fs_nodes w !! ("T1", "/a") = Some (FileRow h 1 "application/octet-stream" 0 0)
  /\ blobDir w !! h = Some content
  /\ result o = Ok tt
  /\ fs_nodes (final o) = delete ("T1", "/a") (fs_nodes w)
  /\ result (readFile "/a" (final o)) = Throw (FileNotFoundError "File not found: /a").
Proof.
  intros w content h o.
  assert (H1 : TenantIs w "T1") by exact tenantIs_T1_oneFile.
  assert (H2 : StoreInvariant w) by exact oneFileWorld_invariant.
  assert (H3 : fs_nodes w !! ("T1", "/a")
               = Some (FileRow h 1 "application/octet-stream" 0 0))
    by (vm_compute; reflexivity).
  assert (H4 : blobDir w !! h = Some content) by (vm_compute; reflexivity).
  destruct (moveFile_onto_itself noMime w "T1" "/a" h 1
              "application/octet-stream" 0 0 content H1 H2 H3 H4 eq_refl)
    as (T1 & T2 & _).
  split; [exact H1|]. split; [exact H2|]. split; [exact H3|]. split; [exact H4|].
  split; [exact T1|]. split; [exact T2|].
  vm_compute. reflexivity.
Defined.

(** ** The counts are the numbers of references *)

Lemma hashCount_fresh rows k row h :
  rows !! k = None ->
  hashCount (<[k := row]> rows) h = hashCount rows h + carries h row.
Proof.
  intros Hnone. unfold hashCount, carries.
  rewrite (map_to_list_insert rows k row Hnone). rewrite filter_cons. cbn [snd].
  destruct (decide (Row_hash row = Some h)) as [E|E].
  - rewrite bool_decide_eq_true_2 by exact E. cbn [length]. lia.
  - rewrite bool_decide_eq_false_2 by exact E. lia.
Qed.

Lemma hashCount_delete rows k row h :
  rows !! k = Some row ->
  hashCount rows h = hashCount (delete k rows) h + carries h row.
Proof.
  intros Hrow. rewrite <- (insert_id rows k row Hrow) at 1.
  rewrite <- insert_delete_eq. apply hashCount_fresh, lookup_delete_eq.
Qed.

Lemma hashCount_insert rows k row h :
  hashCount (<[k := row]> rows) h = hashCount (delete k rows) h + carries h row.
Proof.
  rewrite <- insert_delete_eq. apply hashCount_fresh, lookup_delete_eq.
Qed.

Lemma hashCount_nonneg rows h : 0 <= hashCount rows h.
Proof. unfold hashCount. lia. Qed.

Lemma carries_file h h' sz m c md :
  carries h (FileRow h' sz m c md) = if String.eqb h h' then 1 else 0.
Proof.
  unfold carries. cbn. destruct (String.eqb_spec h h') as [->|Hne].
  - now rewrite bool_decide_eq_true_2.
  - rewrite bool_decide_eq_false_2; [reflexivity | congruence].
Qed.

Lemma carries_directory h c md : carries h (DirectoryRow c md) = 0.
Proof. reflexivity. Qed.

(** A hash carried by a row is counted; carried by two rows, twice. *)
Lemma hashCount_one rows k h sz m c md :
  rows !! k = Some (FileRow h sz m c md) -> 1 <= hashCount rows h.
Proof.
  intros Hrow. rewrite (hashCount_delete rows k _ h Hrow), carries_file.
  rewrite String.eqb_refl. pose proof (hashCount_nonneg (delete k rows) h). lia.
Qed.

Lemma hashCount_two rows k k' h sz m c md sz' m' c' md' :
  k <> k' ->
  rows !! k = Some (FileRow h sz m c md) ->
  rows !! k' = Some (FileRow h sz' m' c' md') ->
  2 <= hashCount rows h.
Proof.
  intros Hne Hrow Hrow'.
  rewrite (hashCount_delete rows k _ h Hrow), carries_file, String.eqb_refl.
  assert (H' : delete k rows !! k' = Some (FileRow h sz' m' c' md')).
  { now rewrite lookup_delete_ne. }
  pose proof (hashCount_one _ _ _ _ _ _ _ H'). lia.
Qed.

Lemma consistent_store_invariant (w : World) :
  Consistent w -> CountsBelowMax w -> StoreInvariant w.
Proof.
  intros [Hrows Hcounts Hblobs] Hmax. split.
  - exact Hrows.
  - intros tenant path h sz m c md Hrow. rewrite Hcounts.
    exact (hashCount_one _ _ _ _ _ _ _ Hrow).
  - exact Hblobs.
  - exact Hmax.
Qed.

Lemma withBlob_consistent content w : Consistent w -> Consistent (withBlob content w).
Proof.
  intros [Hrows Hcounts Hblobs]. split.
  - now apply withBlob_rows.
  - intros h. unfold refCount, fileRefs.
    rewrite withBlob_blobs, withBlob_fs_nodes. apply Hcounts.
  - intros tenant path h sz m c md. rewrite withBlob_fs_nodes, withBlob_stored.
    intros Hrow. pose proof (Hblobs _ _ _ _ _ _ _ Hrow) as Hsome.
    destruct (blobDir w !! sha256 content); [exact Hsome|].
    destruct (decide (h = sha256 content)) as [->|Hne].
    + rewrite lookup_insert_eq. eauto.
    + now rewrite lookup_insert_ne by congruence.
Qed.

Lemma writeFile_invalid_path mime path content w :
  validPath path = false -> final (writeFile mime path content w) = w.
Proof.
  intros Hv. destruct (create_invalid _ Hv) as (m & Hm & _).
  unfold writeFile. rewrite Hm.
  now rewrite (bind_stop _ _ _ _ _ _ (lift_run (Throw (PlainError m)) w)).
Qed.

Lemma writeFile_consistent_tenant (mime : string -> option string) (w : World)
    (t path : string) (content : Buffer) :
  TenantIs w t -> Consistent w -> CountsBelowMax w ->
  Consistent (final (writeFile mime path content w)).
Proof.
  intros HT Hcons Hmax. pose proof HT as [Ht Hne].
  destruct (validPath path) eqn:Hv;
    [|now rewrite (writeFile_invalid_path mime path content w Hv)].
  pose proof (consistent_rows w Hcons) as Hrows.
  pose proof (consistent_counts w Hcons) as Hcounts.
  pose proof (consistent_blobs w Hcons) as Hblobs.
  destruct (fs_nodes w !! (t, path)) as [[old sz mt cr md|cr md]|] eqn:Erow.
  - (* the path holds a file *)
    pose proof (consistent_store_invariant w Hcons Hmax) as Hinv.
    destruct (writeFile_existing_state mime w t path content old sz mt cr md
                HT Hinv Hv Erow) as (W1 & W2 & W3 & W4 & _).
    cbv zeta in *. set (w1 := final (writeFile mime path content w)) in *.
    split.
    + intros tenant p row. rewrite W2.
      destruct (decide ((t, path) = (tenant, p))) as [E|E].
      * rewrite E, lookup_insert_eq. intros [= <-]. inversion E; subst.
        split; [exact Hv | apply sha256_wellFormed].
      * rewrite lookup_insert_ne by exact E. apply Hrows.
    + intros h. rewrite W3. unfold fileRefs. rewrite W2, hashCount_insert.
      rewrite Hcounts. unfold fileRefs.
      rewrite (hashCount_delete _ _ _ h Erow), !carries_file. lia.
    + intros tenant p h sz' m' c' md'. rewrite W2, W4.
      intros Hrow.
      assert (Hstored : is_Some (match blobDir w !! sha256 content with
                                 | Some _ => blobDir w
                                 | None => <[sha256 content := content]> (blobDir w)
                                 end !! h)).
      { destruct (decide ((t, path) = (tenant, p))) as [E|E].
        - rewrite E, lookup_insert_eq in Hrow. inversion Hrow; subst.
          destruct (blobDir w !! sha256 content) eqn:Eb; [rewrite Eb; eauto|].
          rewrite lookup_insert_eq. eauto.
        - rewrite lookup_insert_ne in Hrow by exact E.
          pose proof (Hblobs _ _ _ _ _ _ _ Hrow) as Hsome.
          destruct (blobDir w !! sha256 content); [exact Hsome|].
          destruct (decide (h = sha256 content)) as [->|Hn].
          + rewrite lookup_insert_eq. eauto.
          + now rewrite lookup_insert_ne by congruence. }
      destruct (negb (String.eqb old (sha256 content)) && (refCount w old =? 1))
        eqn:Edrop; [|exact Hstored].
      apply andb_prop in Edrop as [Hdiff Hone].
      apply negb_true_iff, String.eqb_neq in Hdiff. apply Z.eqb_eq in Hone.
      rewrite lookup_delete_ne; [exact Hstored|].
      intros <-. destruct (decide ((t, path) = (tenant, p))) as [E|E].
      * rewrite E, lookup_insert_eq in Hrow. inversion Hrow. congruence.
      * rewrite lookup_insert_ne in Hrow by exact E.
        pose proof (hashCount_two _ _ _ _ _ _ _ _ _ _ _ _ E Erow Hrow) as Htwo.
        rewrite Hcounts in Hone. unfold fileRefs in Hone. lia.
  - (* the path holds a directory *)
    rewrite (writeFile_directory mime w t path content Ht Hne Hv cr md Erow).
    cbn [final]. now apply withBlob_consistent.
  - destruct (fs_nodes w !! (t, parentPath path)) as [prow|] eqn:Eparent.
    + (* a new file *)
      destruct (writeFile_fresh_state mime w t path content HT Hrows Hv Erow
                  ltac:(eauto) (Hmax _)) as (W1 & W2 & W3 & W4 & _).
      cbv zeta in *. set (w1 := final (writeFile mime path content w)) in *.
      split.
      * intros tenant p row. rewrite W2.
        destruct (decide ((t, path) = (tenant, p))) as [E|E].
        -- rewrite E, lookup_insert_eq. intros [= <-]. inversion E; subst.
           split; [exact Hv | apply sha256_wellFormed].
        -- rewrite lookup_insert_ne by exact E. apply Hrows.
      * intros h. rewrite W3. unfold fileRefs.
        rewrite W2, (hashCount_fresh _ _ _ _ Erow), carries_file.
        rewrite Hcounts. reflexivity.
      * intros tenant p h sz' m' c' md'. rewrite W2, W4. intros Hrow.
        destruct (decide ((t, path) = (tenant, p))) as [E|E].
        -- rewrite E, lookup_insert_eq in Hrow. inversion Hrow; subst.
           destruct (blobDir w !! sha256 content) eqn:Eb; [rewrite Eb; eauto|].
           rewrite lookup_insert_eq. eauto.
        -- rewrite lookup_insert_ne in Hrow by exact E.
           pose proof (Hblobs _ _ _ _ _ _ _ Hrow) as Hsome.
           destruct (blobDir w !! sha256 content); [exact Hsome|].
           destruct (decide (h = sha256 content)) as [->|Hn].
           ++ rewrite lookup_insert_eq. eauto.
           ++ now rewrite lookup_insert_ne by congruence.
    + (* no parent *)
      rewrite (writeFile_no_parent_run mime w t path content HT Hrows Hv Erow
                 Eparent).
      cbn [after final]. now apply withBlob_consistent.
Qed.

Lemma tenant_cases (w : World) : TenantUnset w \/ exists t, TenantIs w t.
Proof.
  unfold TenantUnset, TenantIs. destruct (currentTenantId w) as [[|c s]|]; auto.
  right. exists (String c s). split; [reflexivity | discriminate].
Qed.

Lemma writeFile_unset_final mime path content w :
  TenantUnset w ->
  final (writeFile mime path content w)
  = if validPath path then withBlob content w else w.
Proof.
  intros Hun. destruct (validPath path) eqn:Hv.
  - assert (Hunb : TenantUnset (withBlob content w)).
    { unfold withBlob. destruct (bool_decide _); exact Hun. }
    rewrite (writeFile_start mime path content w Hv).
    now rewrite (bind_stop _ _ _ _ _ _ (getNodeByPath_unset _ path Hunb)).
  - apply writeFile_invalid_path, Hv.
Qed.

Lemma writeFile_consistent (mime : string -> option string) (w : World)
    (path : string) (content : Buffer) :
  Consistent w -> CountsBelowMax w ->
  Consistent (final (writeFile mime path content w)).
Proof.
  intros Hcons Hmax. destruct (tenant_cases w) as [Hun|[t HT]].
  - rewrite (writeFile_unset_final mime path content w Hun).
    destruct (validPath path); [now apply withBlob_consistent | exact Hcons].
  - exact (writeFile_consistent_tenant mime w t path content HT Hcons Hmax).
Qed.

Lemma deleteFile_consistent (w : World) (path : string) :
  Consistent w -> Consistent (final (deleteFile path w)).
Proof.
  intros Hcons. destruct (tenant_cases w) as [Hun|[t HT]].
  { unfold deleteFile.
    now rewrite (bind_stop _ _ _ _ _ _ (getNodeByPath_unset w path Hun)). }
  pose proof (consistent_rows w Hcons) as Hrows.
  pose proof (consistent_counts w Hcons) as Hcounts.
  pose proof (consistent_blobs w Hcons) as Hblobs.
  pose proof (getNodeByPath_rows w t path HT Hrows) as Hget.
  destruct (fs_nodes w !! (t, path)) as [[h sz m c md|c md]|] eqn:Erow;
    cbn [fmap option_fmap option_map nodeFor] in Hget.
  - destruct (Hrows _ _ _ Erow) as [Hp Hr]. cbn in Hr.
    assert (Hone : 1 <= refCount w h).
    { rewrite Hcounts. exact (hashCount_one _ _ _ _ _ _ _ Erow). }
    destruct (deleteFile_state w t path h sz m c md HT Hp Hr Erow Hone)
      as (D1 & D2 & D3 & D4 & _).
    cbv zeta in *. set (w1 := final (deleteFile path w)) in *.
    split.
    + intros tenant p row. rewrite D2. intros Hrow.
      apply lookup_delete_Some in Hrow as [_ Hrow]. exact (Hrows _ _ _ Hrow).
    + intros h'. rewrite D3. unfold fileRefs. rewrite D2.
      pose proof (hashCount_delete _ _ _ h' Erow) as Hd.
      rewrite carries_file in Hd. rewrite !Hcounts. unfold fileRefs.
      destruct (String.eqb h' h) eqn:E.
      * apply String.eqb_eq in E. subst h'. lia.
      * lia.
    + intros tenant p h' sz' m' c' md'. rewrite D2, D4. intros Hrow.
      apply lookup_delete_Some in Hrow as [Hk Hrow].
      pose proof (Hblobs _ _ _ _ _ _ _ Hrow) as Hsome.
      destruct (Z.eqb_spec (refCount w h) 1) as [E1|E1]; [|exact Hsome].
      rewrite lookup_delete_ne; [exact Hsome|]. intros <-.
      pose proof (hashCount_two _ _ _ _ _ _ _ _ _ _ _ _ Hk Erow Hrow) as Htwo.
      rewrite Hcounts in E1. unfold fileRefs in E1. lia.
  - unfold deleteFile. run_by Hget. exact Hcons.
  - unfold deleteFile. run_by Hget. exact Hcons.
Qed.

Lemma directoryRow_consistent (w : World) (k : string * string) (c md : Z) :
  Consistent w -> validPath k.2 = true -> fs_nodes w !! k = None ->
  Consistent (set_fs_nodes (<[k := DirectoryRow c md]> (fs_nodes w)) w).
Proof.
  intros [Hrows Hcounts Hblobs] Hv Hnone. destruct k as [t p]. split.
  - intros tenant path row. cbn.
    destruct (decide ((t, p) = (tenant, path))) as [E|E].
    + rewrite E, lookup_insert_eq. intros [= <-]. inversion E; subst. auto.
    + rewrite lookup_insert_ne by exact E. apply Hrows.
  - intros h. unfold fileRefs. cbn [fs_nodes set_fs_nodes].
    rewrite (hashCount_fresh _ _ _ _ Hnone), carries_directory.
    change (refCount (set_fs_nodes _ w) h) with (refCount w h).
    rewrite Hcounts. unfold fileRefs. lia.
  - intros tenant path h sz m c' md'. cbn.
    destruct (decide ((t, p) = (tenant, path))) as [E|E].
    + rewrite E, lookup_insert_eq. discriminate.
    + rewrite lookup_insert_ne by exact E. apply Hblobs.
Qed.

Lemma directoryRow_deleted_consistent (w : World) (k : string * string) (c md : Z) :
  Consistent w -> fs_nodes w !! k = Some (DirectoryRow c md) ->
  Consistent (set_fs_nodes (delete k (fs_nodes w)) w).
Proof.
  intros [Hrows Hcounts Hblobs] Hrow. destruct k as [t p]. split.
  - intros tenant path row. cbn. intros H.
    apply lookup_delete_Some in H as [_ H]. exact (Hrows _ _ _ H).
  - intros h. unfold fileRefs. cbn [fs_nodes set_fs_nodes].
    change (refCount (set_fs_nodes _ w) h) with (refCount w h).
    rewrite Hcounts. unfold fileRefs.
    rewrite (hashCount_delete _ _ _ h Hrow), carries_directory. lia.
  - intros tenant path h sz m c' md'. cbn. intros H.
    apply lookup_delete_Some in H as [_ H]. exact (Hblobs _ _ _ _ _ _ _ H).
Qed.

Lemma createDirectory_invalid_path path w :
  validPath path = false -> final (createDirectory path w) = w.
Proof.
  intros Hv. destruct (create_invalid _ Hv) as (m & Hm & _).
  unfold createDirectory. rewrite Hm.
  now rewrite (bind_stop _ _ _ _ _ _ (lift_run (Throw (PlainError m)) w)).
Qed.

Lemma createDirectory_consistent (w : World) (path : string) :
  Consistent w -> Consistent (final (createDirectory path w)).
Proof.
  intros Hcons.
  destruct (validPath path) eqn:Hv;
    [|now rewrite (createDirectory_invalid_path path w Hv)].
  destruct (tenant_cases w) as [Hun|[t HT]].
  { unfold createDirectory. rewrite (create_valid _ Hv).
    rewrite (bind_run _ _ _ _ _ _ (lift_run _ w)). cbv beta.
    now rewrite (bind_stop _ _ _ _ _ _ (getNodeByPath_unset w path Hun)). }
  pose proof (consistent_rows w Hcons) as Hrows.
  rewrite (createDirectory_run w t path HT Hrows Hv). cbv zeta.
  destruct (fs_nodes w !! (t, path)) eqn:Erow; [exact Hcons|].
  destruct (String.eqb path "/");
    [exact (directoryRow_consistent w (t, path) _ _ Hcons Hv Erow)|].
  destruct (fs_nodes w !! (t, parentPath path)); [|exact Hcons].
  exact (directoryRow_consistent w (t, path) _ _ Hcons Hv Erow).
Qed.

Lemma deleteDirectory_consistent (w : World) (path : string) :
  Consistent w -> Consistent (final (deleteDirectory path w)).
Proof.
  intros Hcons. destruct (tenant_cases w) as [Hun|[t HT]].
  { unfold deleteDirectory.
    now rewrite (bind_stop _ _ _ _ _ _ (getNodeByPath_unset w path Hun)). }
  pose proof HT as [Ht Hne].
  pose proof (consistent_rows w Hcons) as Hrows.
  unfold deleteDirectory.
  run_by (getNodeByPath_rows w t path HT Hrows).
  destruct (fs_nodes w !! (t, path)) as [[h sz m c md|c md]|] eqn:Erow;
    cbn [fmap option_fmap option_map nodeFor after final]; try exact Hcons.
  run_by (listChildren_rows w t path HT Hrows).
  destruct (0 <? _); cbn [after final]; [exact Hcons|].
  rewrite (deleteNode_run w t Ht Hne path). cbn [final].
  exact (directoryRow_deleted_consistent w (t, path) c md Hcons Erow).
Qed.

Lemma readFile_final path w : final (readFile path w) = w.
Proof. exact (keeps_readFile (fun w' => w' = w) path w eq_refl). Qed.

Lemma copyFile_consistent (mime : string -> option string) (w : World)
    (source destination : string) :
  Consistent w -> CountsBelowMax w ->
  Consistent (final (copyFile mime source destination w)).
Proof.
  intros Hcons Hmax. unfold copyFile. rewrite bind_final, readFile_final.
  destruct (result (readFile source w)); [|exact Hcons].
  now apply writeFile_consistent.
Qed.

Lemma moveFile_consistent (mime : string -> option string) (w : World)
    (source destination : string) :
  Consistent w -> CountsBelowMax w ->
  Consistent (final (moveFile mime source destination w)).
Proof.
  intros Hcons Hmax. unfold moveFile. rewrite bind_final.
  pose proof (copyFile_consistent mime w source destination Hcons Hmax) as Hcopy.
  destruct (result (copyFile mime source destination w)); [|exact Hcopy].
  now apply deleteFile_consistent.
Qed.

Lemma rootWorld_consistent (t : string) : Consistent (rootWorld t).
Proof.
  split.
  - exact (inv_rows _ (rootWorld_invariant t)).
  - intros h. unfold refCount, fileRefs. cbn [blobs fs_nodes rootWorld].
    rewrite lookup_empty, <- insert_empty.
    rewrite (hashCount_fresh _ _ _ _ (lookup_empty _)), carries_directory.
    unfold hashCount. rewrite map_to_list_empty. reflexivity.
  - intros tenant path h sz m c md. cbn [fs_nodes rootWorld].
    intros H. apply lookup_singleton_Some in H as [_ H]. discriminate.
Qed.

Lemma rootWorld_below_max (t : string) : CountsBelowMax (rootWorld t).
Proof. intros h. unfold refCount. cbn. now rewrite lookup_empty. Qed.

Lemma oneFileWorld_consistent : Consistent oneFileWorld.
Proof.
  exact (writeFile_consistent noMime (rootWorld "T1") "/a" (Buffer_from "x")
           (rootWorld_consistent "T1") (rootWorld_below_max "T1")).
Qed.

(** X23: [writeFile] keeps the two stores consistent, whether it
    returns or throws, with or without a tenant: if every row can be read
    back, every count is the number of file rows that carry the hash, the
    blob of every file row is in the directory, and no count is at the
    limit of its column, then the first three hold again afterwards. *)
Theorem writeFile_keeps_consistent (mime : string -> option string) (w : World)
    (path : string) (content : Buffer) :
  Consistent w -> CountsBelowMax w ->
  Consistent (final (writeFile mime path content w)).
Proof. exact (writeFile_consistent mime w path content). Qed.

(** A first file written under a root. *)
Lemma writeFile_keeps_consistent_witness :
  let w := rootWorld "T1" in
  Consistent w /\ CountsBelowMax w
  /\ Consistent (final (writeFile noMime "/a" (Buffer_from "x") w)).
Proof.
  intros w.
  assert (H1 : Consistent w) by exact (rootWorld_consistent "T1").
  assert (H2 : CountsBelowMax w) by exact (rootWorld_below_max "T1").
  exact (conj H1 (conj H2
           (writeFile_keeps_consistent noMime w "/a" (Buffer_from "x") H1 H2))).
Defined.

(** X24: [deleteFile], [createDirectory] and [deleteDirectory] keep
    the two stores consistent, whether they return or throw, and so do
    [copyFile] and [moveFile] when no count is at the limit of its
    column. *)
Theorem operations_keep_consistent (mime : string -> option string)
    (w : World) (path source destination : string) :
  Consistent w ->
  Consistent (final (deleteFile path w))
  /\ Consistent (final (createDirectory path w))
  /\ Consistent (final (deleteDirectory path w))
  /\ (CountsBelowMax w ->
      Consistent (final (copyFile mime source destination w))
      /\ Consistent (final (moveFile mime source destination w))).
Proof.
  intros Hcons. repeat apply conj.
  - now apply deleteFile_consistent.
  - now apply createDirectory_consistent.
  - now apply deleteDirectory_consistent.
  - intros Hmax. split.
    + now apply copyFile_consistent.
    + now apply moveFile_consistent.
Qed.

(** Deleting and moving the one file of a tenant. *)
Lemma operations_keep_consistent_witness :
  let w := oneFileWorld in
  Consistent w /\ CountsBelowMax w
  /\ Consistent (final (deleteFile "/a" w))
  /\ Consistent (final (moveFile noMime "/a" "/b" w)).
Proof.
  intros w.
  assert (H1 : Consistent w) by exact oneFileWorld_consistent.
  assert (H2 : CountsBelowMax w) by exact (inv_bound w oneFileWorld_invariant).
  destruct (operations_keep_consistent noMime w "/a" "/a" "/b" H1)
    as (T1 & _ & _ & T2).
  exact (conj H1 (conj H2 (conj T1 (proj2 (T2 H2))))).
Defined.

(** ** The reclaimer *)

(** What one pass of [cleanup] leaves behind. *)
Lemma cleanup_state (w : World) :
  let hashes := PostgresRepository.selectOrphans (blobs w) in
  let o := OrphanCleanupService.cleanup w in
  result o = Ok (Z.of_nat (length hashes))
  /\ fs_nodes (final o) = fs_nodes w
  /\ blobs (final o) = blobs w
  /\ (forall h, blobDir (final o) !! h
                = if bool_decide (h ∈ hashes) then None else blobDir w !! h)
  /\ calls o = GetOrphanBlobs
               :: match hashes with
                  | [] => []
                  | _ => BlobDeleteMany hashes :: map BlobDelete hashes
                  end.
Proof.
  cbv zeta. unfold OrphanCleanupService.cleanup.
  rewrite (bind_run _ _ _ _ _ _ (getOrphanBlobs_run w)). cbv beta.
  destruct (PostgresRepository.selectOrphans (blobs w)) as [|h0 hashes] eqn:Eh.
  - cbn. repeat apply conj; try reflexivity.
  - change (Z.of_nat (length (h0 :: hashes)) =? 0) with false. cbv iota.
    destruct (deleteMany_state w (h0 :: hashes)) as (M1 & M2 & M3 & M4 & M5).
    cbv zeta in *.
    unfold after. cbn [result final calls].
    rewrite bind_result, bind_final, bind_calls, M1, M5. cbn [result final calls].
    repeat apply conj; auto.
    now rewrite app_nil_r.
Qed.

(** X25: one pass of [cleanup] returns the number of hashes
    GET_ORPHAN_BLOBS selected, deletes the blobs of these hashes and of no
    other, and changes no row of [fs_nodes] or [blobs]; in particular the
    blob of a hash that has no row of count 0, because it has no row at all
    or is still referenced, stays.  With no orphan the pass makes no call
    but [getOrphanBlobs]. *)
Theorem cleanup_deletes_orphans_only (w : World) :
  let o := OrphanCleanupService.cleanup w in
  result o = Ok (orphanBatch w)
  /\ fs_nodes (final o) = fs_nodes w
  /\ blobs (final o) = blobs w
  /\ (forall h, blobDir (final o) !! h
                = if bool_decide (h ∈ PostgresRepository.selectOrphans (blobs w))
                  then None else blobDir w !! h)
  /\ (forall h, ~ isOrphan w h -> blobDir (final o) !! h = blobDir w !! h)
  /\ (orphanBatch w = 0 -> calls o = [GetOrphanBlobs]).
Proof.
  destruct (cleanup_state w) as (C1 & C2 & C3 & C4 & C5). cbv zeta in *.
  repeat apply conj; auto.
  - intros h Hnot. rewrite C4. rewrite bool_decide_eq_false_2; [reflexivity|].
    intros Hin. apply Hnot.
    destruct (selectOrphans_elem (blobs w) h Hin) as (b & _ & Hb & H0). exists b. auto.
  - unfold orphanBatch. intros H0. rewrite C5.
    destruct (PostgresRepository.selectOrphans (blobs w)); [reflexivity|].
    cbn in H0. lia.
Qed.

Lemma cleanup_consistent (w : World) :
  Consistent w -> Consistent (final (OrphanCleanupService.cleanup w)).
Proof.
  intros Hcons. destruct Hcons as [Hrows Hcounts Hblobs].
  destruct (cleanup_state w) as (_ & C2 & C3 & C4 & _). cbv zeta in *.
  split.
  - unfold RowsWellFormed. rewrite C2. exact Hrows.
  - intros h. unfold refCount, fileRefs. rewrite C2, C3. apply Hcounts.
  - intros tenant path h sz m c md. rewrite C2, C4. intros Hrow.
    rewrite bool_decide_eq_false_2; [exact (Hblobs _ _ _ _ _ _ _ Hrow)|].
    intros Hin. destruct (selectOrphans_elem (blobs w) h Hin) as (b & _ & Hb & H0).
    pose proof (hashCount_one _ _ _ _ _ _ _ Hrow) as Hone.
    specialize (Hcounts h). unfold refCount, fileRefs in Hcounts.
    rewrite Hb in Hcounts. lia.
Qed.

Lemma cleanupLoop_consistent fuel batchSize total :
  Keeps Consistent (OrphanCleanupService.cleanupLoop fuel batchSize total).
Proof.
  revert total. induction fuel as [|fuel IH]; intros total;
    cbn [OrphanCleanupService.cleanupLoop].
  - apply keeps_ret.
  - apply keeps_bind; [exact cleanup_consistent|]. intros deleted. cbv zeta.
    destruct (deleted <? batchSize); [apply keeps_ret | apply IH].
Qed.

(** X26: the reclaimer keeps the two stores consistent: one pass of
    [cleanup], and any number of passes of [cleanupInBatches], delete no
    blob that a file row points at. *)
Theorem cleanup_keeps_consistent (w : World) (fuel : nat) (batchSize : Z) :
  Consistent w ->
  Consistent (final (OrphanCleanupService.cleanup w))
  /\ Consistent (final (OrphanCleanupService.cleanupInBatches fuel batchSize w)).
Proof.
  intros Hcons. split.
  - now apply cleanup_consistent.
  - now apply cleanupLoop_consistent.
Qed.

(** A pass over the orphan a deleted file leaves. *)
Lemma cleanup_keeps_consistent_witness :
  let w := final (deleteFile "/a" oneFileWorld) in
  Consistent w
  /\ orphanBatch w = 1
  /\ Consistent (final (OrphanCleanupService.cleanup w)).
Proof.
  intros w.
  assert (H1 : Consistent w)
    by exact (deleteFile_consistent oneFileWorld "/a" oneFileWorld_consistent).
  split; [exact H1|]. split; [vm_compute; reflexivity|].
  exact (proj1 (cleanup_keeps_consistent w 0 1 H1)).
Defined.

(** ** Hashes and paths *)

(** X27: the digest of any content is a hash [fromString] accepts:
    it has 64 characters and [fromString] of it gives back the hash of
    [fromContent]; and every string [fromString] accepts is kept as it is,
    has 64 characters, and only characters of [0-9a-f]. *)
Theorem fromContent_fromString (content : Buffer) :
  ContentHash.fromString (ContentHash.toString (ContentHash.fromContent content))
  = Ok (ContentHash.fromContent content)
  /\ String.length (ContentHash.toString (ContentHash.fromContent content)) = 64%nat
  /\ forall hash h,
       ContentHash.fromString hash = Ok h ->
       ContentHash.toString h = hash
       /\ String.length hash = 64%nat
       /\ forallb ContentHash.isHexChar (list_ascii_of_string hash) = true.
Proof.
  pose proof (sha256_wellFormed content) as Hwf. unfold sha256 in Hwf.
  repeat apply conj.
  - rewrite (fromString_wellFormed _ Hwf).
    destruct (ContentHash.fromContent content). reflexivity.
  - unfold ContentHash.wellFormed in Hwf. apply andb_prop in Hwf as [Hl _].
    now apply Nat.eqb_eq in Hl.
  - intros hash h. unfold ContentHash.fromString.
    destruct (ContentHash.wellFormed hash) eqn:E; cbn [negb]; [|discriminate].
    intros [= <-]. unfold ContentHash.wellFormed in E.
    apply andb_prop in E as [Hl Hhex]. apply Nat.eqb_eq in Hl. auto.
Qed.

Lemma includes_append (a b sub : string) :
  Js.includes a sub = true -> Js.includes (a +:+ b) sub = true.
Proof.
  induction a as [|x a IH]; rewrite ?append_nil, ?append_cons.
  - cbn [Js.includes]. rewrite orb_false_r. intros H.
    destruct sub; [|discriminate]. destruct b; reflexivity.
  - cbn [Js.includes]. intros H. apply orb_prop in H as [H|H].
    + apply prefix_append in H as [rest Hrest].
      apply orb_true_intro. left. apply prefix_append.
      exists (rest +:+ b). rewrite <- append_assoc, <- Hrest.
      now rewrite append_cons.
    + apply orb_true_intro. right. apply IH, H.
Qed.

Lemma includes_append_false (a b sub : string) :
  Js.includes (a +:+ b) sub = false -> Js.includes a sub = false.
Proof.
  intros H. destruct (Js.includes a sub) eqn:E; [|reflexivity].
  rewrite (includes_append a b sub E) in H. discriminate.
Qed.

(** X28: the parent of an accepted path is an accepted path, and the
    only path that is its own parent is [/]. *)
Theorem parentPath_valid (path : string) :
  validPath path = true ->
  validPath (parentPath path) = true
  /\ FilePath.create (parentPath path) = Ok {| FilePath.value := parentPath path |}
  /\ (parentPath path = path <-> path = "/").
Proof.
  intros Hv.
  pose proof (validPath_startsWith _ Hv) as Hs.
  destruct (parentPath_split path Hs) as (a & rest & Hpath & Hrest & Hparent).
  assert (Hp : validPath (parentPath path) = true).
  { rewrite Hparent. unfold validPath in Hv.
    apply andb_prop in Hv as [Hv Hnul]. apply andb_prop in Hv as [_ Hdots].
    apply negb_true_iff in Hnul. apply negb_true_iff in Hdots.
    rewrite Hpath in Hs, Hnul, Hdots.
    destruct a as [|c a]; [reflexivity|]. cbn [Js.orElse].
    unfold validPath. apply andb_true_intro.
    split; [apply andb_true_intro; split|].
    - unfold Js.startsWith in *. rewrite append_cons in Hs.
      cbn [String.prefix] in *. destruct (ascii_dec _ _); [|discriminate].
      destruct a; reflexivity.
    - apply negb_true_iff. exact (includes_append_false _ _ _ Hdots).
    - apply negb_true_iff. exact (includes_append_false _ _ _ Hnul). }
  repeat apply conj; [exact Hp | exact (create_valid _ Hp) | |].
  - rewrite Hparent. intros E. destruct a as [|c a]; cbn [Js.orElse] in E.
    + exact (eq_sym E).
    + exfalso. assert (Hl : String.length (String c a) = String.length path)
        by now rewrite E.
      rewrite Hpath, append_length in Hl. cbn [String.length] in Hl. lia.
  - intros ->. reflexivity.
Qed.

(** A path two components deep. *)
Lemma parentPath_valid_witness :
  validPath "/docs/a.txt" = true
  /\ validPath (parentPath "/docs/a.txt") = true
  /\ parentPath "/docs/a.txt" = "/docs".
Proof.
  assert (H : validPath "/docs/a.txt" = true) by reflexivity.
  split; [exact H|]. split; [exact (proj1 (parentPath_valid "/docs/a.txt" H))|].
  reflexivity.
Defined.

(** ** One blob for one content *)

Lemma countCalls_app test tr1 tr2 :
  countCalls test (tr1 ++ tr2) = (countCalls test tr1 + countCalls test tr2)%nat.
Proof. unfold countCalls. now rewrite filter_app, length_app. Qed.

Lemma writeFile_blob_writes (mime : string -> option string) (path : string)
    (content : Buffer) (w : World) :
  filter (fun c => isBlobWrite c = true) (calls (writeFile mime path content w))
  = if validPath path && negb (bool_decide (is_Some (blobDir w !! sha256 content)))
    then [BlobWrite (sha256 content)] else [].
Proof.
  destruct (validPath path) eqn:Hv; cbn [andb].
  - rewrite (writeFile_start mime path content w Hv).
    unfold after. cbn [calls]. rewrite filter_app.
    match goal with
    | |- _ ++ ?rest = _ => assert (Hrest : rest = [])
    end.
    { generalize (withBlob content w). intros w'.
      repeat trace_step; reflexivity. }
    rewrite Hrest, app_nil_r. unfold blobCallsOfWrite.
    destruct (bool_decide _); reflexivity.
  - destruct (create_invalid _ Hv) as (m & Hm & _).
    unfold writeFile. rewrite Hm.
    now rewrite (bind_stop _ _ _ _ _ _ (lift_run (Throw (PlainError m)) w)).
Qed.

(** X29: [writeFile] writes a blob only when the content is not stored
    yet: with the blob of the content in the directory it makes no [write]
    call; without it, on an accepted path, it makes exactly one; and the
    hash of every [write] it makes is the hash of the content. *)
Theorem writeFile_writes_blob_once (mime : string -> option string)
    (path : string) (content : Buffer) (w : World) :
  let tr := calls (writeFile mime path content w) in
  (is_Some (blobDir w !! sha256 content) -> countCalls isBlobWrite tr = 0%nat)
  /\ (blobDir w !! sha256 content = None -> validPath path = true ->
      countCalls isBlobWrite tr = 1%nat /\ BlobWrite (sha256 content) ∈ tr)
  /\ (forall h, BlobWrite h ∈ tr -> h = sha256 content).
Proof.
  cbv zeta. pose proof (writeFile_blob_writes mime path content w) as Hf.
  repeat apply conj.
  - intros Hsome. unfold countCalls. rewrite Hf.
    rewrite (bool_decide_eq_true_2 _ Hsome), andb_false_r. reflexivity.
  - intros Hnone Hv. unfold countCalls. rewrite Hf, Hv.
    rewrite bool_decide_eq_false_2 by (rewrite Hnone; intros [? ?]; discriminate).
    split; [reflexivity|].
    assert (Hin : BlobWrite (sha256 content)
                  ∈ filter (fun c => isBlobWrite c = true)
                      (calls (writeFile mime path content w))).
    { rewrite Hf, Hv.
      rewrite bool_decide_eq_false_2 by (rewrite Hnone; intros [? ?]; discriminate).
      apply list_elem_of_singleton. reflexivity. }
    apply list_elem_of_filter in Hin as [_ Hin]. exact Hin.
  - intros h Hin.
    assert (Hin' : BlobWrite h
                   ∈ filter (fun c => isBlobWrite c = true)
                       (calls (writeFile mime path content w))).
    { apply list_elem_of_filter. split; [reflexivity | exact Hin]. }
    rewrite Hf in Hin'. destruct (_ && _).
    + apply list_elem_of_singleton in Hin'. congruence.
    + inversion Hin'.
Qed.

(** ** Requests *)

Lemma respond_run {A} (m : M A) (ok : A -> Api.Response) (w : World) :
  Api.respond m ok w
  = {| result := Ok (match result (m w) with
                     | Ok a => ok a
                     | Throw e => Api.errorHandler e
                     end);
       final := final (m w); calls := calls (m w) |}.
Proof. reflexivity. Qed.

(** X30: the answers to a request that creates a directory, run
    after the tenant middleware for a user of tenant [t]: 400 and no store
    call when the path is absent or empty; 500 with the text [Internal
    server error] and no store call when [FilePath.create] rejects the
    path, its error being a plain [Error]; 409 when a node is at the path;
    404 when the path is not [/] and no node is at its parent; 200
    otherwise, with the directory row inserted.  Any answer but 200 leaves
    [fs_nodes] as it was. *)
Theorem createDirectory_request_statuses (w : World) (t : string)
    (path : option string) :
  t <> EmptyString -> RowsWellFormed w ->
  let o := (Api.tenantMiddleware (Some t) ;; Api.createDirectory path) w in
  exists response,
    result o = Ok response
    /\ match path with
       | None | Some EmptyString =>
           response = {| Api.status := 400; Api.body := Api.ErrorBody "Path required" |}
           /\ calls o = []
       | Some p =>
           if negb (validPath p) then
             response = {| Api.status := 500;
                           Api.body := Api.ErrorBody "Internal server error" |}
             /\ calls o = []
           else
             match fs_nodes w !! (t, p) with
             | Some _ =>
                 response = {| Api.status := 409;
                               Api.body := Api.ErrorBody ("Path already exists: " +:+ p) |}
             | None =>
                 if negb (String.eqb p "/")
                    && bool_decide (fs_nodes w !! (t, parentPath p) = None)
                 then response
                      = {| Api.status := 404;
                           Api.body := Api.ErrorBody ("Parent directory not found: "
                                                      +:+ parentPath p) |}
                 else response
                      = {| Api.status := 200;
                           Api.body := Api.MessagePathBody
                                         "Directory created successfully" p |}
                      /\ fs_nodes (final o)
                         = <[(t, p) := DirectoryRow (clock w) (clock w)]> (fs_nodes w)
             end
       end
    /\ (Api.status response <> 200 -> fs_nodes (final o) = fs_nodes w).
Proof.
    intros Hne Hrows o. subst o.
  set (w1 := set_tenant (Some t) w).
  assert (Hmid : Api.tenantMiddleware (Some t) w
                 = {| result := Ok tt; final := w1; calls := [] |}) by reflexivity.
  rewrite (bind_run _ _ _ _ _ _ Hmid). cbv beta. unfold after. cbn [app].
  assert (HT1 : TenantIs w1 t) by (split; [reflexivity | exact Hne]).
  assert (Hrows1 : RowsWellFormed w1) by exact Hrows.
  destruct path as [p|]; [|eexists; cbn; repeat split; try (intros _; reflexivity)].
  destruct p as [|c p]; [eexists; cbn; repeat split; try (intros _; reflexivity)|].
  set (path := String c p) in *.
  change (Api.createDirectory (Some path))
    with (Api.respond (createDirectory path)
            (fun _ => {| Api.status := 200;
                         Api.body := Api.MessagePathBody
                                       "Directory created successfully" path |})).
  rewrite respond_run. cbn [result final calls].
  destruct (validPath path) eqn:Hv; cbn [negb].
  - rewrite (createDirectory_run w1 t path HT1 Hrows1 Hv). cbv zeta.
    change (fs_nodes w1) with (fs_nodes w). change (clock w1) with (clock w).
    destruct (fs_nodes w !! (t, path)) as [row|] eqn:Erow.
    { eexists. cbn. repeat split; try (intros _; reflexivity). }
    destruct (String.eqb path "/") eqn:Eroot; cbn [negb andb].
    { eexists. cbn. repeat split; try (intros H; exfalso; apply H; reflexivity). }
    destruct (fs_nodes w !! (t, parentPath path)) as [prow|] eqn:Eparent.
    + rewrite bool_decide_eq_false_2 by discriminate.
      eexists. cbn. repeat split; try (intros H; exfalso; apply H; reflexivity).
    + rewrite bool_decide_eq_true_2 by reflexivity.
      eexists. cbn. repeat split; try (intros _; reflexivity).
  - destruct (create_invalid _ Hv) as (m & Hm & _).
    assert (Hrun : createDirectory path w1
                   = {| result := Throw (PlainError m); final := w1; calls := [] |}).
    { unfold createDirectory. rewrite Hm.
      now rewrite (bind_stop _ _ _ _ _ _ (lift_run (Throw (PlainError m)) w1)). }
    rewrite Hrun. eexists. cbn. repeat split; try (intros _; reflexivity).
Qed.

(** A request of tenant T1 that follows one of tenant T2. *)
Lemma createDirectory_request_statuses_witness :
  let w := set_tenant (Some "T2") (rootWorld "T1") in
  let o := (Api.tenantMiddleware (Some "T1") ;; Api.createDirectory (Some "/d")) w in
  "T1" <> EmptyString /\ RowsWellFormed w
  /\ exists response,
       result o = Ok response
       /\ response = {| Api.status := 200;
                        Api.body := Api.MessagePathBody
                                      "Directory created successfully" "/d" |}.
Proof.
  intros w o.
  assert (H1 : "T1" <> EmptyString) by discriminate.
  assert (H2 : RowsWellFormed w) by exact (inv_rows _ (rootWorld_invariant "T1")).
  split; [exact H1|]. split; [exact H2|].
  destruct (createDirectory_request_statuses w "T1" (Some "/d") H1 H2)
    as (response & Hr & Hm & _).
  exists response. split; [exact Hr|].
  replace (fs_nodes w !! ("T1", "/d")) with (@None Row) in Hm
    by (vm_compute; reflexivity).
  replace (fs_nodes w !! ("T1", parentPath "/d")) with (Some (DirectoryRow 0 0)) in Hm
    by (vm_compute; reflexivity).
  exact (proj1 Hm).
Defined.
